(** * District facility data: tabular parser, location resolver, metrics

    A shallow embedding of the data-ingestion and aggregation core of the
    district query API ([src/utils/dataLoader.js], [src/utils/metrics.js]) and
    the properties its specification states about it, followed by the
    loader's cache, the helpers of the request handler ([simpleHash],
    [isRateLimited], [validateQuery]) and [validateResponse] of
    [src/utils/queryProcessor.js], with further properties of all of these.

    Conventions of the embedding.
    - A JavaScript string is a [string]: a sequence of code units, here those
      below 256.  The built-in string methods the sources call ([trim],
      [toLowerCase], [startsWith], [includes], [split], [replace]) are written
      out on that alphabet.
    - A JavaScript number that holds a count ([length], [++]) is a [nat]; a
      number that holds a measurement is a binary64 [float].
    - A facility record is an object with string values: [gmap string string].
      Reading a missing property gives [None] ([undefined]); none of the
      property names the sources read is inherited from [Object.prototype].
    - An object that the sources index by a key taken from the data (a row
      of the parser, [byLevel], [byOwnership]) is a [gmap] of its own
      properties, read and written through the prototype: a key that names
      an inherited property reads as that property, and ["__proto__"] cannot
      be set to a string.
    - [a || b] on possibly missing strings is [a ||| b]: the first operand when
      it is truthy (present and non-empty), otherwise the second.
    - [parseFloat], [toFixed] and the conversion of a string to a number are
      the engine's; the development is parametric in them
      ([NumberBuiltins]), with a reference interpretation for the examples.
    - A number that holds a 32-bit integer or a time in milliseconds is a
      [Z], with [ToInt32] written out where the source applies a bit
      operation.
    - A parsed JSON value is a [json]; module-level maps ([dataCache],
      [rateLimitMap]) and the clock are passed in and out. *)

From Stdlib Require Import Ascii String List ZArith Lia Sorting.Sorted.
From Stdlib Require Import Floats.PrimFloat Floats.FloatOps Floats.SpecFloat.
From Stdlib Require Import Numbers.Cyclic.Int63.Uint63.
From stdpp Require Import gmap strings list fin_maps pretty.

Local Open Scope stdpp_scope.

(** ** JavaScript strings *)

Definition dquote : ascii := "034"%char.
Definition comma : ascii := ","%char.
Definition newline : ascii := "010"%char.

Definition nl : string := String newline "".
Definition dq : string := String dquote "".

(** [WhiteSpace] and [LineTerminator] code units below 256, as stripped by
    [String.prototype.trim]. *)
Definition isWhiteSpace (c : ascii) : bool :=
  match c with
  | "009" | "010" | "011" | "012" | "013" | " " | "160" => true
  | _ => false
  end%char.

Fixpoint trimStart (s : string) : string :=
  match s with
  | "" => ""
  | String c r => if isWhiteSpace c then trimStart r else s
  end.

Fixpoint trimEnd (s : string) : string :=
  match s with
  | "" => ""
  | String c r =>
      match trimEnd r with
      | "" => if isWhiteSpace c then "" else String c ""
      | r' => String c r'
      end
  end.

Definition trim (s : string) : string := trimEnd (trimStart s).

Definition lowerChar (c : ascii) : ascii :=
  let n := nat_of_ascii c in
  if ((65 <=? n) && (n <=? 90)) || ((192 <=? n) && (n <=? 222) && negb (n =? 215))
  then ascii_of_nat (n + 32) else c.

Fixpoint toLowerCase (s : string) : string :=
  match s with
  | "" => ""
  | String c r => String (lowerChar c) (toLowerCase r)
  end.

(** [s.startsWith(p)] *)
Definition startsWith (s p : string) : bool := String.prefix p s.

(** [s.includes(sub)] *)
Fixpoint includes (s sub : string) : bool :=
  String.prefix sub s ||
  match s with
  | "" => false
  | String _ r => includes r sub
  end.

(** [s.split('\n')]: never empty, [""] splits into one empty line. *)
Fixpoint splitLines (s : string) : list string :=
  match s with
  | "" => [""]
  | String c r =>
      if Ascii.eqb c newline then "" :: splitLines r
      else match splitLines r with
           | l :: ls => String c l :: ls
           | [] => [String c ""]
           end
  end.

(** [s.replace(/,/g, '')] *)
Fixpoint removeCommas (s : string) : string :=
  match s with
  | "" => ""
  | String c r => if Ascii.eqb c comma then removeCommas r else String c (removeCommas r)
  end.

(** Truthiness of a possibly missing string, and [||] on such values. *)
Definition truthy (v : option string) : bool :=
  match v with
  | Some (String _ _) => true
  | _ => false
  end.

Definition orElse (a b : option string) : option string :=
  if truthy a then a else b.

Infix "|||" := orElse (at level 50, left associativity).

(** [v || 'text'] with a string literal on the right: the result is a string. *)
Definition orDefault (a : option string) (d : string) : string :=
  match a with
  | Some (String c r) => String c r
  | _ => d
  end.

(** ** dataLoader.js: the tabular parser *)

(** The loop of [parseCSVLine]: [values], [current] and [inQuotes] are the
    three locals; the look-ahead [line[i + 1]] is the head of the rest, and
    [i++] on an escaped quote drops it. *)
Fixpoint parseCSVLine_loop (line : string) (values : list string)
    (current : string) (inQuotes : bool) : list string :=
  match line with
  | "" => values ++ [current]
  | String char rest =>
      if Ascii.eqb char dquote then
        match inQuotes, rest with
        | true, String nextChar rest' =>
            if Ascii.eqb nextChar dquote
            then parseCSVLine_loop rest' values (current +:+ String dquote "") true
            else parseCSVLine_loop rest values current (negb inQuotes)
        | _, _ => parseCSVLine_loop rest values current (negb inQuotes)
        end
      else if Ascii.eqb char comma && negb inQuotes then
        parseCSVLine_loop rest (values ++ [current]) "" inQuotes
      else
        parseCSVLine_loop rest values (current +:+ String char "") inQuotes
  end.

Definition parseCSVLine (line : string) : list string :=
  parseCSVLine_loop line [] "" false.

(** [row[key] = value] on an object created by [{}]: every key becomes an own
    property, except ["__proto__"], whose inherited setter ignores a string. *)
Definition setProperty {V} (key : string) (value : V) (obj : gmap string V) : gmap string V :=
  if decide (key = "__proto__") then obj else <[key := value]> obj.

(** [values[index]?.trim() || ''] *)
Definition cell (values : list string) (index : nat) : string :=
  match values !! index with
  | Some v => trim v
  | None => ""
  end.

(** [headers.forEach((header, index) => { row[header.trim()] = ... })],
    started at [index]. *)
Fixpoint fillRow (headers : list string) (index : nat) (values : list string)
    (row : gmap string string) : gmap string string :=
  match headers with
  | [] => row
  | header :: headers' =>
      fillRow headers' (S index) values (setProperty (trim header) (cell values index) row)
  end.

(** The body of the [for] loop of [parseCSV] over [lines[1..]]. *)
Fixpoint parseRows (headers : list string) (lines : list string) : list (gmap string string) :=
  match lines with
  | [] => []
  | line :: lines' =>
      match trim line with
      | "" => parseRows headers lines'
      | _ => fillRow headers 0 (parseCSVLine line) ∅ :: parseRows headers lines'
      end
  end.

Definition parseCSV (csvContent : string) : list (gmap string string) :=
  match splitLines (trim csvContent) with
  | [] => []
  | header :: rest => parseRows (parseCSVLine header) rest
  end.

(** *** Location-based filtering *)

Module LocationFilter.
(** The location filter object; an absent field is [None]. *)
Record t := mk {
  district : option string;
  subcounty : option string;
  parish : option string;
  village : option string
}.
End LocationFilter.

(** The first part of [filterByLocation]: the most specific truthy field,
    bottom-up; [None] is the initial [null]. *)
Definition filterCode (location : LocationFilter.t) : option string :=
  if truthy (LocationFilter.village location) then LocationFilter.village location
  else if truthy (LocationFilter.parish location) then LocationFilter.parish location
  else if truthy (LocationFilter.subcounty location) then LocationFilter.subcounty location
  else if truthy (LocationFilter.district location) then LocationFilter.district location
  else None.

Definition filterLevel (location : LocationFilter.t) : option string :=
  if truthy (LocationFilter.village location) then Some "village"
  else if truthy (LocationFilter.parish location) then Some "parish"
  else if truthy (LocationFilter.subcounty location) then Some "subcounty"
  else if truthy (LocationFilter.district location) then Some "district"
  else None.

(** [row.location_code || row.Location_code || ''] *)
Definition locationCode (row : gmap string string) : string :=
  orDefault (row !! "location_code" ||| row !! "Location_code") "".

Definition filterByLocation (facilities : list (gmap string string))
    (location : LocationFilter.t) : list (gmap string string) :=
  match filterCode location with
  | Some (String c r) =>
      List.filter (fun row => startsWith (locationCode row) (String c r)) facilities
  | _ => facilities
  end.

(** *** Location hierarchy resolver *)

Definition isDigit (c : ascii) : bool :=
  let n := nat_of_ascii c in (48 <=? n) && (n <=? 57).

Fixpoint skipDigits (s : string) : string :=
  match s with
  | "" => ""
  | String c r => if isDigit c then skipDigits r else s
  end.

(** [^L1\d+L2\d+...$]: every letter is followed by one or more digits, and
    nothing follows the last run.  No letter is a digit, so the greedy run is
    the only way [\d+] can match. *)
Fixpoint matchSegments (letters : list ascii) (s : string) : bool :=
  match letters with
  | [] => match s with "" => true | _ => false end
  | l :: letters' =>
      match s with
      | String c (String d r) =>
          Ascii.eqb c l && isDigit d && matchSegments letters' (skipDigits r)
      | _ => false
      end
  end.

Definition isDistrict (code : string) : bool := matchSegments ["D"%char] code.
Definition isSubcounty (code : string) : bool := matchSegments ["D"%char; "S"%char] code.
Definition isParish (code : string) : bool := matchSegments ["D"%char; "S"%char; "P"%char] code.
Definition isVillage (code : string) : bool :=
  matchSegments ["D"%char; "S"%char; "P"%char; "V"%char] code.

(** The location tree of [locations.json]; a missing child array reads as
    [[]] through [|| []]. *)
Module Village.
Record t := mk { code : string; name : string }.
End Village.

Module Parish.
Record t := mk { code : string; name : string; villages : list Village.t }.
End Parish.

Module Subcounty.
Record t := mk { code : string; name : string; parishes : list Parish.t }.
End Subcounty.

Module District.
Record t := mk { code : string; name : string; subcounties : list Subcounty.t }.
End District.

Module Locations.
(** [loadLocations] returns [{}] when the file is missing: no [districts]. *)
Record t := mk { districts : option (list District.t) }.
End Locations.

Module Descriptor.
(** What [getLocationByCode] returns for a hit. *)
Record t := mk {
  type : string;
  code : string;
  name : string;
  parish : option string;
  subcounty : option string;
  district : option string
}.
End Descriptor.

Section Resolver.
Variable code : string.

Fixpoint searchVillages (district : District.t) (subcounty : Subcounty.t)
    (parish : Parish.t) (villages : list Village.t) : option Descriptor.t :=
  match villages with
  | [] => None
  | village :: villages' =>
      if String.eqb (Village.code village) code && isVillage code then
        Some (Descriptor.mk "village" (Village.code village) (Village.name village)
                (Some (Parish.name parish)) (Some (Subcounty.name subcounty))
                (Some (District.name district)))
      else searchVillages district subcounty parish villages'
  end.

Fixpoint searchParishes (district : District.t) (subcounty : Subcounty.t)
    (parishes : list Parish.t) : option Descriptor.t :=
  match parishes with
  | [] => None
  | parish :: parishes' =>
      if String.eqb (Parish.code parish) code && isParish code then
        Some (Descriptor.mk "parish" (Parish.code parish) (Parish.name parish)
                None (Some (Subcounty.name subcounty)) (Some (District.name district)))
      else
        match searchVillages district subcounty parish (Parish.villages parish) with
        | Some found => Some found
        | None => searchParishes district subcounty parishes'
        end
  end.

Fixpoint searchSubcounties (district : District.t)
    (subcounties : list Subcounty.t) : option Descriptor.t :=
  match subcounties with
  | [] => None
  | subcounty :: subcounties' =>
      if String.eqb (Subcounty.code subcounty) code && isSubcounty code then
        Some (Descriptor.mk "subcounty" (Subcounty.code subcounty) (Subcounty.name subcounty)
                None None (Some (District.name district)))
      else
        match searchParishes district subcounty (Subcounty.parishes subcounty) with
        | Some found => Some found
        | None => searchSubcounties district subcounties'
        end
  end.

Fixpoint searchDistricts (districts : list District.t) : option Descriptor.t :=
  match districts with
  | [] => None
  | district :: districts' =>
      if String.eqb (District.code district) code && isDistrict code then
        Some (Descriptor.mk "district" (District.code district) (District.name district)
                None None None)
      else
        match searchSubcounties district (District.subcounties district) with
        | Some found => Some found
        | None => searchDistricts districts'
        end
  end.
End Resolver.

(** [None] is the [null] the source returns. *)
Definition getLocationByCode (locations : Locations.t) (code : string) : option Descriptor.t :=
  match Locations.districts locations, code with
  | Some districts, String _ _ => searchDistricts code districts
  | _, _ => None
  end.

(** ** metrics.js *)

(** *** Numbers *)

(** The numeric built-ins of the language that the sources call.  Their code
    is the engine's, not the repository's; the development is parametric in
    them. *)
Class NumberBuiltins := {
  (** [parseFloat(s)] *)
  parseFloat : string -> float;
  (** [x.toFixed(1)] *)
  toFixed1 : float -> string;
  (** the conversion of a string operand of [<], [>] and [/] to a number *)
  toNumber : string -> float
}.

(** A count as a number: exact, counts are array lengths. *)
Definition ofCount (n : nat) : float := PrimFloat.of_uint63 (Uint63.of_Z (Z.of_nat n)).

Module EducationBenchmarks.
Record t := mk {
  pupil_teacher_ratio_primary : float;
  pupil_teacher_ratio_secondary : float;
  pupil_classroom_ratio : float;
  pupil_toilet_stance_ratio : float;
  electricity_target : float;
  water_target : float;
  ict_lab_target : float
}.
End EducationBenchmarks.

Module HealthBenchmarks.
Record t := mk {
  population_per_hc2 : float;
  population_per_hc3 : float;
  population_per_hc4 : float;
  population_per_hospital : float;
  electricity_target : float;
  water_target : float
}.
End HealthBenchmarks.

Module BENCHMARKS.
Definition education : EducationBenchmarks.t :=
  EducationBenchmarks.mk 40 30 45 40 100 100 50.
Definition health : HealthBenchmarks.t :=
  HealthBenchmarks.mk 5000 20000 100000 500000 100 100.
End BENCHMARKS.

(** *** Helpers *)

(** [isYes(value)], [value] being the result of an [||] chain of properties. *)
Definition isYes (value : option string) : bool :=
  match value with
  | Some (String c r) =>
      let str := trim (toLowerCase (String c r)) in
      String.eqb str "yes" || String.eqb str "y" || String.eqb str "true" || String.eqb str "1"
  | _ => false
  end.

Section Numbers.
Context `{NumberBuiltins}.

(** [parseNumber(value)]; a record holds strings, so the [typeof value ===
    'number'] branch is not taken. *)
Definition parseNumber (value : option string) : float :=
  match value with
  | Some (String c r) =>
      let num := parseFloat (removeCommas (String c r)) in
      if PrimFloat.is_nan num then 0%float else num
  | _ => 0%float
  end.

End Numbers.

#[local] Set Warnings "-inexact-float".

(** [getSeverity(current, target)]; the literal [0.9] denotes the nearest
    binary64 value, in the source as here. *)
Definition getSeverity (current target : float) : string :=
  let ratio := (current / target)%float in
  if (ratio <? 0.5)%float then "critical"
  else if (ratio <? 0.75)%float then "high"
  else if (ratio <? 0.9)%float then "medium"
  else "low".

(** *** Objects used as counters *)

(** A property value of [byLevel] and [byOwnership]. *)
Inductive jsValue :=
  | JNumber (n : nat)
  | JString (s : string).

(** The properties an object created by [{}] inherits from
    [Object.prototype], each as the text it turns into under [+]: the
    prototype object itself for ["__proto__"], a native function for the
    others (text as V8 prints it). *)
Definition nativeFunctionText (name : string) : string :=
  "function " +:+ name +:+ "() { [native code] }".

Definition inheritedText (key : string) : option string :=
  if decide (key = "__proto__") then Some "[object Object]"
  else if decide (key = "constructor") then Some (nativeFunctionText "Object")
  else if decide (key ∈ ["__defineGetter__"; "__defineSetter__"; "hasOwnProperty";
                          "__lookupGetter__"; "__lookupSetter__"; "isPrototypeOf";
                          "propertyIsEnumerable"; "toString"; "valueOf";
                          "toLocaleString"])
  then Some (nativeFunctionText key)
  else None.

(** [(obj[key] || 0) + 1]: a number is incremented ([0 || 0] is [0]); a
    non-empty string, or an inherited object or function, is concatenated
    with ["1"]. *)
Definition nextCount (key : string) (obj : gmap string jsValue) : jsValue :=
  match obj !! key with
  | Some (JNumber n) => JNumber (n + 1)
  | Some (JString "") => JNumber 1
  | Some (JString s) => JString (s +:+ "1")
  | None =>
      match inheritedText key with
      | Some text => JString (text +:+ "1")
      | None => JNumber 1
      end
  end.

(** [obj[key] = (obj[key] || 0) + 1] *)
Definition increment (key : string) (obj : gmap string jsValue) : gmap string jsValue :=
  setProperty key (nextCount key obj) obj.

(** *** Aggregates *)

Module Gap.
Record t := mk {
  type : string;
  current : string;
  target : option float;
  benchmark : option float;
  severity : string
}.
End Gap.

Module Education.
Record Infrastructure := mkInfrastructure {
  withElectricity : nat;
  withWater : nat;
  withICTLab : nat;
  withLibrary : nat;
  electricityPercentage : option string;
  waterPercentage : option string;
  ictLabPercentage : option string;
  libraryPercentage : option string
}.
Record Enrollment := mkEnrollment {
  totalLearners : float;
  totalTeachers : float;
  totalClassrooms : float
}.
Record Ratios := mkRatios {
  pupilTeacherRatio : option string;
  pupilClassroomRatio : option string
}.
Record Metrics := mkMetrics {
  totalFacilities : nat;
  byLevel : gmap string jsValue;
  byOwnership : gmap string jsValue;
  infrastructure : Infrastructure;
  enrollment : Enrollment;
  ratios : Ratios;
  gaps : list Gap.t;
  benchmarks : option EducationBenchmarks.t
}.
End Education.

Module Health.
Record Infrastructure := mkInfrastructure {
  withElectricity : nat;
  withWater : nat;
  withAmbulance : nat;
  withMaternity : nat;
  electricityPercentage : option string;
  waterPercentage : option string;
  ambulancePercentage : option string;
  maternityPercentage : option string
}.
Record Services := mkServices {
  offeringHIV : nat;
  offeringMaternal : nat;
  offeringChildHealth : nat;
  offeringImmunization : nat;
  hivPercentage : option string;
  maternalPercentage : option string;
  childHealthPercentage : option string;
  immunizationPercentage : option string
}.
Record Metrics := mkMetrics {
  totalFacilities : nat;
  byLevel : gmap string jsValue;
  byOwnership : gmap string jsValue;
  infrastructure : Infrastructure;
  services : Services;
  gaps : list Gap.t;
  benchmarks : option HealthBenchmarks.t
}.
End Health.

(** What [calculateMetrics] returns: one of the two aggregates, or [{}]. *)
Inductive Aggregate :=
  | EducationAggregate (metrics : Education.Metrics)
  | HealthAggregate (metrics : Health.Metrics)
  | EmptyAggregate.

(** *** Subcounty breakdown *)

Module SubcountyGroup.
(** A value of [subcountyMap]; its [metrics: {}] is never read. *)
Record t := mk {
  name : string;
  facilities : list (gmap string string)
}.
End SubcountyGroup.

Module BreakdownEntry.
(** [{ location, facilityCount, ...scMetrics }]: no aggregate has a property
    of those two names, so the spread overrides neither. *)
Record t := mk {
  location : string;
  facilityCount : nat;
  metrics : Aggregate
}.
End BreakdownEntry.

(** A [Map] with string keys, in insertion order. *)
Definition mapHas {V} (key : string) (m : list (string * V)) : bool :=
  existsb (fun kv => String.eqb kv.1 key) m.

(** [m.set(key, value)]: in place for a key that is there, at the end otherwise. *)
Fixpoint mapSet {V} (key : string) (value : V) (m : list (string * V)) : list (string * V) :=
  match m with
  | [] => [(key, value)]
  | (k, v) :: m' => if String.eqb k key then (k, value) :: m' else (k, v) :: mapSet key value m'
  end.

(** [update(m.get(key))] for an update in place of the value object. *)
Fixpoint mapUpdate {V} (key : string) (update : V -> V) (m : list (string * V)) : list (string * V) :=
  match m with
  | [] => []
  | (k, v) :: m' => if String.eqb k key then (k, update v) :: m' else (k, v) :: mapUpdate key update m'
  end.

Definition subcountyOf (facility : gmap string string) : string :=
  orDefault (facility !! "subcounty" ||| facility !! "Subcounty" ||| facility !! "sub_county")
    "Unknown".

(** The body of [facilities.forEach] in [getSubcountyBreakdown]. *)
Definition groupStep (subcountyMap : list (string * SubcountyGroup.t))
    (facility : gmap string string) : list (string * SubcountyGroup.t) :=
  let subcounty := subcountyOf facility in
  let subcountyMap' :=
    if mapHas subcounty subcountyMap then subcountyMap
    else mapSet subcounty (SubcountyGroup.mk subcounty []) subcountyMap in
  mapUpdate subcounty
    (fun sc => SubcountyGroup.mk (SubcountyGroup.name sc) (SubcountyGroup.facilities sc ++ [facility]))
    subcountyMap'.

(** [sc.facilities[0]?.level?.toLowerCase().includes('health') ? 'health' : 'education'] *)
Definition groupCategory (sc : SubcountyGroup.t) : string :=
  match SubcountyGroup.facilities sc with
  | first :: _ =>
      match first !! "level" with
      | Some level => if includes (toLowerCase level) "health" then "health" else "education"
      | None => "education"
      end
  | [] => "education"
  end.

(** [array.sort(compare)]: the sort is stable, so the result is the one of a
    stable insertion sort.  [compare x y > 0] puts [x] after [y]. *)
Fixpoint insertBy {A} (compare : A -> A -> Z) (x : A) (l : list A) : list A :=
  match l with
  | [] => [x]
  | y :: l' => if (0 <? compare x y)%Z then y :: insertBy compare x l' else x :: l
  end.

Definition sortBy {A} (compare : A -> A -> Z) (l : list A) : list A :=
  foldr (insertBy compare) [] l.

(** [(a, b) => b.facilityCount - a.facilityCount] *)
Definition compareEntries (a b : BreakdownEntry.t) : Z :=
  (Z.of_nat (BreakdownEntry.facilityCount b) - Z.of_nat (BreakdownEntry.facilityCount a))%Z.

(** [if (c) n++] *)
Definition countIf (c : bool) (n : nat) : nat := if c then n + 1 else n.

(** [if (x > 0) total += x] *)
Definition addPositive (x total : float) : float :=
  if (0 <? x)%float then (total + x)%float else total.

Section Aggregator.
Context `{NumberBuiltins}.

(** [(count / total * 100).toFixed(1)] *)
Definition percentage (count total : nat) : string :=
  toFixed1 (ofCount count / ofCount total * 100)%float.

(** The electricity gap test and record, shared by both categories:
    [undefined < target] is false. *)
Definition electricityGap (pct : option string) (target : float) : list Gap.t :=
  match pct with
  | Some current =>
      if (toNumber current <? target)%float then
        [Gap.mk "electricity" current (Some target) None
           (getSeverity (toNumber current) target)]
      else []
  | None => []
  end.

(** The pupil-teacher gap test and record: [undefined > benchmark] is false. *)
Definition pupilTeacherGap (ratio : option string) (benchmark : float) : list Gap.t :=
  match ratio with
  | Some current =>
      if (benchmark <? toNumber current)%float then
        [Gap.mk "pupil_teacher_ratio" current None (Some benchmark)
           (getSeverity benchmark (toNumber current))]
      else []
  | None => []
  end.

(** The three [const]s of the enrollment block of [calculateEducationMetrics]. *)
Definition learnersOf (facility : gmap string string) : float :=
  parseNumber (facility !! "total_learners" ||| facility !! "Total_Learners"
               ||| facility !! "enrollment").

Definition teachersOf (facility : gmap string string) : float :=
  parseNumber (facility !! "total_teachers" ||| facility !! "Total_Teachers"
               ||| facility !! "teachers").

Definition classroomsOf (facility : gmap string string) : float :=
  parseNumber (facility !! "total_classrooms" ||| facility !! "Total_Classrooms"
               ||| facility !! "classrooms").

(** The labels a record is counted under. *)
Definition educationLevelOf (facility : gmap string string) : string :=
  orDefault (facility !! "level" ||| facility !! "Level") "Unknown".

Definition healthLevelOf (facility : gmap string string) : string :=
  orDefault (facility !! "level" ||| facility !! "Level" ||| facility !! "facility_level")
    "Unknown".

Definition ownershipOf (facility : gmap string string) : string :=
  orDefault (facility !! "ownership" ||| facility !! "Ownership") "Unknown".

(** The body of [facilities.forEach] in [calculateEducationMetrics]. *)
Definition educationStep (metrics : Education.Metrics) (facility : gmap string string)
    : Education.Metrics :=
  let level := educationLevelOf facility in
  let ownership := ownershipOf facility in
  let infra := Education.infrastructure metrics in
  let enrol := Education.enrollment metrics in
  let learners := learnersOf facility in
  let teachers := teachersOf facility in
  let classrooms := classroomsOf facility in
  Education.mkMetrics
    (Education.totalFacilities metrics)
    (increment level (Education.byLevel metrics))
    (increment ownership (Education.byOwnership metrics))
    (Education.mkInfrastructure
       (countIf (isYes (facility !! "electricity_available" ||| facility !! "Electricity"))
          (Education.withElectricity infra))
       (countIf (isYes (facility !! "water_available" ||| facility !! "Water"))
          (Education.withWater infra))
       (countIf (isYes (facility !! "ict_lab" ||| facility !! "ICT_Lab"))
          (Education.withICTLab infra))
       (countIf (isYes (facility !! "library" ||| facility !! "Library"))
          (Education.withLibrary infra))
       (Education.electricityPercentage infra) (Education.waterPercentage infra)
       (Education.ictLabPercentage infra) (Education.libraryPercentage infra))
    (Education.mkEnrollment
       (addPositive learners (Education.totalLearners enrol))
       (addPositive teachers (Education.totalTeachers enrol))
       (addPositive classrooms (Education.totalClassrooms enrol)))
    (Education.ratios metrics)
    (Education.gaps metrics)
    (Education.benchmarks metrics).

(** The object literal [calculateEducationMetrics] starts from. *)
Definition educationInit (facilities : list (gmap string string)) : Education.Metrics :=
  Education.mkMetrics (length facilities) ∅ ∅
    (Education.mkInfrastructure 0 0 0 0 None None None None)
    (Education.mkEnrollment 0 0 0)
    (Education.mkRatios None None)
    []
    None.

(** The statements after the loop: percentages, ratios, gaps, benchmarks. *)
Definition educationFinish (metrics : Education.Metrics) : Education.Metrics :=
  let total := Education.totalFacilities metrics in
  let infra := Education.infrastructure metrics in
  let enrol := Education.enrollment metrics in
  let infra' :=
    if 0 <? total then
      Education.mkInfrastructure
        (Education.withElectricity infra) (Education.withWater infra)
        (Education.withICTLab infra) (Education.withLibrary infra)
        (Some (percentage (Education.withElectricity infra) total))
        (Some (percentage (Education.withWater infra) total))
        (Some (percentage (Education.withICTLab infra) total))
        (Some (percentage (Education.withLibrary infra) total))
    else infra in
  let ptr :=
    if (0 <? Education.totalTeachers enrol)%float
    then Some (toFixed1 (Education.totalLearners enrol / Education.totalTeachers enrol)%float)
    else Education.pupilTeacherRatio (Education.ratios metrics) in
  let pcr :=
    if (0 <? Education.totalClassrooms enrol)%float
    then Some (toFixed1 (Education.totalLearners enrol / Education.totalClassrooms enrol)%float)
    else Education.pupilClassroomRatio (Education.ratios metrics) in
  Education.mkMetrics
    total
    (Education.byLevel metrics)
    (Education.byOwnership metrics)
    infra'
    enrol
    (Education.mkRatios ptr pcr)
    (Education.gaps metrics
       ++ electricityGap (Education.electricityPercentage infra')
            (EducationBenchmarks.electricity_target BENCHMARKS.education)
       ++ pupilTeacherGap ptr
            (EducationBenchmarks.pupil_teacher_ratio_primary BENCHMARKS.education))
    (Some BENCHMARKS.education).

Definition calculateEducationMetrics (facilities : list (gmap string string))
    (location : LocationFilter.t) : Education.Metrics :=
  educationFinish (fold_left educationStep facilities (educationInit facilities)).

(** The body of [facilities.forEach] in [calculateHealthMetrics]. *)
Definition healthStep (metrics : Health.Metrics) (facility : gmap string string)
    : Health.Metrics :=
  let level := healthLevelOf facility in
  let ownership := ownershipOf facility in
  let infra := Health.infrastructure metrics in
  let serv := Health.services metrics in
  Health.mkMetrics
    (Health.totalFacilities metrics)
    (increment level (Health.byLevel metrics))
    (increment ownership (Health.byOwnership metrics))
    (Health.mkInfrastructure
       (countIf (isYes (facility !! "electricity" ||| facility !! "Electricity"))
          (Health.withElectricity infra))
       (countIf (isYes (facility !! "water" ||| facility !! "Water"))
          (Health.withWater infra))
       (countIf (isYes (facility !! "ambulance" ||| facility !! "Ambulance"))
          (Health.withAmbulance infra))
       (countIf (isYes (facility !! "maternity_ward" ||| facility !! "Maternity"))
          (Health.withMaternity infra))
       (Health.electricityPercentage infra) (Health.waterPercentage infra)
       (Health.ambulancePercentage infra) (Health.maternityPercentage infra))
    (Health.mkServices
       (countIf (isYes (facility !! "hiv_services" ||| facility !! "HIV"
                        ||| facility !! "has_hiv_tb_care" ||| facility !! "hivaids_and_tb_care1"))
          (Health.offeringHIV serv))
       (countIf (isYes (facility !! "maternal_services" ||| facility !! "Maternal"
                        ||| facility !! "has_maternal_health"))
          (Health.offeringMaternal serv))
       (countIf (isYes (facility !! "child_health" ||| facility !! "Child_Health"))
          (Health.offeringChildHealth serv))
       (countIf (isYes (facility !! "immunization" ||| facility !! "Immunization"
                        ||| facility !! "has_immunization" ||| facility !! "immunization_services1"))
          (Health.offeringImmunization serv))
       (Health.hivPercentage serv) (Health.maternalPercentage serv)
       (Health.childHealthPercentage serv) (Health.immunizationPercentage serv))
    (Health.gaps metrics)
    (Health.benchmarks metrics).

(** The object literal [calculateHealthMetrics] starts from. *)
Definition healthInit (facilities : list (gmap string string)) : Health.Metrics :=
  Health.mkMetrics (length facilities) ∅ ∅
    (Health.mkInfrastructure 0 0 0 0 None None None None)
    (Health.mkServices 0 0 0 0 None None None None)
    []
    None.

(** The statements after the loop: percentages, gaps, benchmarks. *)
Definition healthFinish (metrics : Health.Metrics) : Health.Metrics :=
  let total := Health.totalFacilities metrics in
  let infra := Health.infrastructure metrics in
  let serv := Health.services metrics in
  let infra' :=
    if 0 <? total then
      Health.mkInfrastructure
        (Health.withElectricity infra) (Health.withWater infra)
        (Health.withAmbulance infra) (Health.withMaternity infra)
        (Some (percentage (Health.withElectricity infra) total))
        (Some (percentage (Health.withWater infra) total))
        (Some (percentage (Health.withAmbulance infra) total))
        (Some (percentage (Health.withMaternity infra) total))
    else infra in
  let serv' :=
    if 0 <? total then
      Health.mkServices
        (Health.offeringHIV serv) (Health.offeringMaternal serv)
        (Health.offeringChildHealth serv) (Health.offeringImmunization serv)
        (Some (percentage (Health.offeringHIV serv) total))
        (Some (percentage (Health.offeringMaternal serv) total))
        (Some (percentage (Health.offeringChildHealth serv) total))
        (Some (percentage (Health.offeringImmunization serv) total))
    else serv in
  Health.mkMetrics
    total
    (Health.byLevel metrics)
    (Health.byOwnership metrics)
    infra'
    serv'
    (Health.gaps metrics
       ++ electricityGap (Health.electricityPercentage infra')
            (HealthBenchmarks.electricity_target BENCHMARKS.health))
    (Some BENCHMARKS.health).

Definition calculateHealthMetrics (facilities : list (gmap string string))
    (location : LocationFilter.t) : Health.Metrics :=
  healthFinish (fold_left healthStep facilities (healthInit facilities)).

Definition calculateMetrics (facilities : list (gmap string string))
    (location : LocationFilter.t) (category : string) : Aggregate :=
  if String.eqb category "education" then
    EducationAggregate (calculateEducationMetrics facilities location)
  else if String.eqb category "health" then
    HealthAggregate (calculateHealthMetrics facilities location)
  else EmptyAggregate.

(** *** Subcounty breakdown: entries and ranking *)

Definition breakdownEntry (sc : SubcountyGroup.t) : BreakdownEntry.t :=
  BreakdownEntry.mk (SubcountyGroup.name sc) (length (SubcountyGroup.facilities sc))
    (calculateMetrics (SubcountyGroup.facilities sc)
       (LocationFilter.mk None None None None) (groupCategory sc)).

Definition getSubcountyBreakdown (facilities : list (gmap string string))
    (metric : string) : list BreakdownEntry.t :=
  let subcountyMap := fold_left groupStep facilities [] in
  let breakdown := map (fun kv => breakdownEntry kv.2) subcountyMap in
  sortBy compareEntries breakdown.

End Aggregator.

(** *** A reference interpretation of the numeric built-ins

    Enough of [parseFloat], [toFixed(1)] and the string-to-number conversion
    to run the examples: plain decimal numerals ([-12.5], [1200]) are read
    through one correctly rounded division, and a finite number is printed
    from its exact binary value, rounding half up.  Exponents, [Infinity] as
    input and the exponential output of [toFixed] from 1e21 on are left out. *)

Fixpoint readDigits (s : string) (acc : Z) (count : nat) : Z * nat * string :=
  match s with
  | String c r =>
      if isDigit c then readDigits r (10 * acc + Z.of_nat (nat_of_ascii c - 48)) (S count)
      else (acc, count, s)
  | "" => (acc, count, s)
  end.

(** The longest decimal prefix of [s]: sign, numerator, number of fraction
    digits, and what follows; [None] when there is no digit. *)
Definition readDecimal (s : string) : option (bool * Z * nat * string) :=
  let '(negative, s1) :=
    match s with
    | String "-" r => (true, r)
    | String "+" r => (false, r)
    | _ => (false, s)
    end in
  let '(int, intCount, s2) := readDigits s1 0 0 in
  match s2 with
  | String "." r =>
      let '(num, fracCount, s3) := readDigits r int 0 in
      if (intCount + fracCount =? 0)%nat then None
      else Some (negative, num, fracCount, s3)
  | _ => if (intCount =? 0)%nat then None else Some (negative, int, 0%nat, s2)
  end.

Definition ofZ (z : Z) : float := PrimFloat.of_uint63 (Uint63.of_Z z).

Definition decimalValue (negative : bool) (num : Z) (fracCount : nat) : float :=
  let x := (ofZ num / ofZ (10 ^ Z.of_nat fracCount))%float in
  if negative then (- x)%float else x.

Definition refParseFloat (s : string) : float :=
  match readDecimal (trimStart s) with
  | Some (negative, num, fracCount, _) => decimalValue negative num fracCount
  | None => PrimFloat.nan
  end.

Definition refToNumber (s : string) : float :=
  match trim s with
  | "" => 0%float
  | t =>
      match readDecimal t with
      | Some (negative, num, fracCount, "") => decimalValue negative num fracCount
      | _ => PrimFloat.nan
      end
  end.

(** The integer nearest to [10 * m * 2^e], the larger one on a tie. *)
Definition tenths (m : positive) (e : Z) : Z :=
  if (0 <=? e)%Z then 10 * Z.pos m * 2 ^ e
  else (20 * Z.pos m + 2 ^ (- e)) / 2 ^ (1 - e).

Definition refToFixed1 (x : float) : string :=
  match Prim2SF x with
  | S754_zero _ => "0.0"
  | S754_infinity negative => if negative then "-Infinity" else "Infinity"
  | S754_nan => "NaN"
  | S754_finite negative m e =>
      let n := tenths m e in
      (if negative then "-" else "") +:+ pretty (n / 10)%Z +:+ "." +:+ pretty (n mod 10)%Z
  end.

Definition referenceBuiltins : NumberBuiltins :=
  {| parseFloat := refParseFloat; toFixed1 := refToFixed1; toNumber := refToNumber |}.

(** ** loadCSVData (dataLoader.js, the loader that filters by location code)

    The loader reads a module-level cache and fetches a file.  The cache is
    passed in and out; the text that the fetches yielded, if any, is an
    argument ([csvContent], [None] when no source answered). *)

(** [location?.district] *)
Definition districtCodeOf (location : option LocationFilter.t) : option string :=
  match location with
  | Some location => LocationFilter.district location
  | None => None
  end.

(** The callback of [parsed.filter] in [loadCSVData]. *)
Definition inDistrict (districtCode : option string) (row : gmap string string) : bool :=
  if negb (truthy districtCode) || negb (truthy (Some (locationCode row))) then true
  else startsWith (locationCode row) (orDefault districtCode "").

(** [location && (location.subcounty || location.parish || location.village)] *)
Definition hasLowerLevel (location : option LocationFilter.t) : bool :=
  match location with
  | Some location =>
      truthy (LocationFilter.subcounty location ||| LocationFilter.parish location
              ||| LocationFilter.village location)
  | None => false
  end.

(** The last statements of [loadCSVData]. *)
Definition narrowToLocation (districtData : list (gmap string string))
    (location : option LocationFilter.t) : list (gmap string string) :=
  match location with
  | Some location' =>
      if hasLowerLevel location then filterByLocation districtData location'
      else districtData
  | None => districtData
  end.

(** [`${districtName.toLowerCase()}_${category}`] *)
Definition cacheKey (districtName category : string) : string :=
  toLowerCase districtName +:+ "_" +:+ category.

Definition loadCSVData (dataCache : gmap string (list (gmap string string)))
    (csvContent : option string) (districtName category : string)
    (location : option LocationFilter.t)
    : list (gmap string string) * gmap string (list (gmap string string)) :=
  match dataCache !! cacheKey districtName category with
  | Some districtData => (narrowToLocation districtData location, dataCache)
  | None =>
      if truthy csvContent then
        let parsed := parseCSV (orDefault csvContent "") in
        let districtData := List.filter (inDistrict (districtCodeOf location)) parsed in
        (narrowToLocation districtData location,
         <[cacheKey districtName category := districtData]> dataCache)
      else ([], dataCache)
  end.

(** ** index.js: helpers of the request handler *)

(** *** simpleHash *)

(** [ToInt32]: the integer modulo 2^32 that lies in [-2^31, 2^31). *)
Definition toInt32 (z : Z) : Z := ((z + 2 ^ 31) mod 2 ^ 32 - 2 ^ 31)%Z.

(** [a << n] and [a & b] on numbers that hold integers. *)
Definition shiftLeft (a n : Z) : Z := toInt32 (Z.shiftl (toInt32 a) n).

Definition bitAnd (a b : Z) : Z := Z.land (toInt32 a) (toInt32 b).

(** [str.charCodeAt(i)] *)
Definition charCode (c : ascii) : Z := Z.of_nat (nat_of_ascii c).

(** The body of the loop of [simpleHash]; the sum is exact in binary64. *)
Definition hashStep (hash : Z) (char : ascii) : Z :=
  let hash := (shiftLeft hash 5 - hash + charCode char)%Z in
  bitAnd hash hash.

Fixpoint hashLoop (str : string) (hash : Z) : Z :=
  match str with
  | "" => hash
  | String char rest => hashLoop rest (hashStep hash char)
  end.

(** [n.toString(36)] for an integer [n >= 0]: digits [0-9] then [a-z], most
    significant first; [fuel] bounds the number of digits. *)
Definition digit36 (d : Z) : ascii :=
  ascii_of_nat (Z.to_nat (if (d <? 10)%Z then 48 + d else 87 + d)).

Fixpoint toString36_digits (fuel : nat) (n : Z) (text : string) : string :=
  match fuel with
  | O => text
  | S fuel' =>
      let text' := String (digit36 (n mod 36)) text in
      if (n <? 36)%Z then text' else toString36_digits fuel' (n / 36) text'
  end.

Definition toString36 (n : Z) : string :=
  toString36_digits (S (Z.to_nat (Z.log2 n))) n "".

(** [Math.abs(hash).toString(36)] *)
Definition simpleHash (str : string) : string :=
  toString36 (Z.abs (hashLoop str 0)).

(** *** isRateLimited *)

Module RateEntry.
Record t := mk { count : nat; resetTime : Z }.
End RateEntry.

Definition RATE_LIMIT : nat := 20.
Definition RATE_WINDOW : Z := 60000.

(** [isRateLimited(clientIP)] with the module-level [rateLimitMap] passed in
    and out and [Date.now()] as the argument [now] (milliseconds). *)
Definition isRateLimited (now : Z) (rateLimitMap : gmap string RateEntry.t)
    (clientIP : string) : bool * gmap string RateEntry.t :=
  let clientData :=
    match rateLimitMap !! clientIP with
    | Some entry => entry
    | None => RateEntry.mk 0 (now + RATE_WINDOW)
    end in
  if (RateEntry.resetTime clientData <? now)%Z then
    (false, <[clientIP := RateEntry.mk 1 (now + RATE_WINDOW)]> rateLimitMap)
  else if RATE_LIMIT <=? RateEntry.count clientData then
    (true, rateLimitMap)
  else
    (false,
     <[clientIP := RateEntry.mk (RateEntry.count clientData + 1)
                     (RateEntry.resetTime clientData)]> rateLimitMap).

(** ** JSON values: request bodies and model responses *)

#[local] Set Warnings "-register-all".

(** What [JSON.parse] and [request.json()] return.  An object is a finite
    map from its own keys; the order of its keys is not observed by the code
    below. *)
Inductive json :=
  | JNull
  | JBool (b : bool)
  | JNum (x : float)
  | JStr (s : string)
  | JArr (items : list json)
  | JObj (fields : gmap string json).

(** [!!v]: [null], [false], [0], [-0], [NaN] and the empty string are falsy. *)
Definition truthyJson (v : json) : bool :=
  match v with
  | JNull => false
  | JBool b => b
  | JNum x => negb (PrimFloat.eqb x 0) && negb (PrimFloat.is_nan x)
  | JStr s => negb (String.eqb s "")
  | JArr _ | JObj _ => true
  end.

(** [!!v.key] and [v.key] for a value that is not [null] and a key that no
    prototype defines (every key read below): an object gives its own
    property, any other value gives [undefined]. *)
Definition getField (v : json) (key : string) : option json :=
  match v with
  | JObj fields => fields !! key
  | _ => None
  end.

Definition truthyField (v : json) (key : string) : bool :=
  match getField v key with
  | Some value => truthyJson value
  | None => false
  end.

(** *** validateQuery *)

Inductive Validation :=
  | Valid
  | Invalid (error : string).

(** [validateQuery(body)]; [None] is the [TypeError] of [body.query] on
    [null]. *)
Definition validateQuery (body : json) : option Validation :=
  match body with
  | JNull => None
  | _ =>
      Some
        match getField body "query" with
        | Some (JStr (String _ _ as query)) =>
            if String.length query <? 3 then
              Invalid "Query is too short. Please provide more details."
            else if 500 <? String.length query then
              Invalid "Query is too long. Please keep it under 500 characters."
            else if negb (truthyField body "category")
                    || negb match getField body "category" with
                            | Some (JStr category) =>
                                bool_decide (category ∈ ["health"; "education"])
                            | _ => false
                            end then
              Invalid ("Category must be either " +:+ dq +:+ "health" +:+ dq +:+ " or "
                       +:+ dq +:+ "education" +:+ dq)
            else
              match getField body "location" with
              | Some location =>
                  if negb (truthyJson location) || negb (truthyField location "district")
                  then Invalid "Location with at least a district is required"
                  else Valid
              | None => Invalid "Location with at least a district is required"
              end
        | _ => Invalid "Query is required and must be a string"
        end
  end.

(** *** validateResponse *)

Definition validTypes : list string := ["answer"; "filter"; "comparison"; "clarification"].

Definition viewMap : gmap string string :=
  <["answer" := "grid"]>
    (<["filter" := "map"]>
       (<["comparison" := "comparison"]> (<["clarification" := "grid"]> ∅))).

(** [viewMap[type] || 'grid'] for a [type] that names no member of
    [Object.prototype]; [validateResponse] passes a member of [validTypes]. *)
Definition getDefaultView (type : string) : string :=
  match viewMap !! type with
  | Some (String _ _ as view) => view
  | _ => "grid"
  end.

(** [if (response.key) cleaned.key = response.key] *)
Definition copyTruthy (response : json) (key : string) (cleaned : gmap string json)
    : gmap string json :=
  match getField response key with
  | Some value => if truthyJson value then <[key := value]> cleaned else cleaned
  | None => cleaned
  end.

(** [if (response.key !== undefined) cleaned.key = response.key] *)
Definition copyDefined (response : json) (key : string) (cleaned : gmap string json)
    : gmap string json :=
  match getField response key with
  | Some value => <[key := value]> cleaned
  | None => cleaned
  end.

Definition missingFieldsResponse : gmap string json :=
  <["type" := JStr "clarification"]>
    (<["text" := JStr "I encountered an issue processing your query. Please try rephrasing it."]>
       (<["suggestions" :=
            JArr [JStr ("Try asking about specific metrics (e.g., " +:+ dq
                        +:+ "How many schools have electricity?" +:+ dq +:+ ")");
                  JStr ("Ask for comparisons (e.g., " +:+ dq
                        +:+ "Which subcounty has the most health facilities?" +:+ dq +:+ ")");
                  JStr ("Request filtered data (e.g., " +:+ dq
                        +:+ "Show me schools without water" +:+ dq +:+ ")")]]>
          (<["suggestedView" := JStr "grid"]> ∅))).

Definition defaultSuggestions : json :=
  JArr [JStr "Try being more specific about what you want to know";
        JStr "Specify a location or metric you're interested in";
        JStr "Ask about a specific category (health or education)"].

(** The [switch (response.type)] of [validateResponse], which adds the
    fields of the type to [cleaned]. *)
Definition addTypeFields (type : string) (response : json) (cleaned : gmap string json)
    : gmap string json :=
  if String.eqb type "answer" then
    copyTruthy response "suggestedAction" (copyTruthy response "data" cleaned)
  else if String.eqb type "filter" then
    copyTruthy response "suggestedAction"
      (copyTruthy response "facilities"
         (copyDefined response "resultCount" (copyTruthy response "filters" cleaned)))
  else if String.eqb type "comparison" then
    copyTruthy response "suggestedAction"
      (copyTruthy response "insights" (copyTruthy response "rankings" cleaned))
  else if String.eqb type "clarification" then
    <["suggestions" :=
        match getField response "suggestions" with
        | Some value => if truthyJson value then value else defaultSuggestions
        | None => defaultSuggestions
        end]> cleaned
  else cleaned.

(** [validateResponse(response)]: the object it returns; [None] is the
    [TypeError] of [response.type] on [null].  The two assignments to
    [response.type] and [response.suggestedView] are the local [type] and
    [suggestedView]. *)
Definition validateResponse (response : json) : option (gmap string json) :=
  match response with
  | JNull => None
  | _ =>
      Some
        match getField response "type", getField response "text" with
        | Some type0, Some text =>
            if negb (truthyJson type0) || negb (truthyJson text) then missingFieldsResponse
            else
              let type :=
                match type0 with
                | JStr s => if bool_decide (s ∈ validTypes) then s else "clarification"
                | _ => "clarification"
                end in
              let suggestedView :=
                match getField response "suggestedView" with
                | Some view => if truthyJson view then view else JStr (getDefaultView type)
                | None => JStr (getDefaultView type)
                end in
              addTypeFields type response
                (<["type" := JStr type]>
                   (<["text" := text]> (<["suggestedView" := suggestedView]> ∅)))
        | _, _ => missingFieldsResponse
        end
  end.

(** ** Vocabulary of the properties *)

(** Presence of the percentage fields of an aggregate. *)
Definition noPercentages (aggregate : Aggregate) : Prop :=
  match aggregate with
  | EducationAggregate m =>
      let infra := Education.infrastructure m in
      Education.electricityPercentage infra = None /\
      Education.waterPercentage infra = None /\
      Education.ictLabPercentage infra = None /\
      Education.libraryPercentage infra = None
  | HealthAggregate m =>
      let infra := Health.infrastructure m in
      let serv := Health.services m in
      Health.electricityPercentage infra = None /\
      Health.waterPercentage infra = None /\
      Health.ambulancePercentage infra = None /\
      Health.maternityPercentage infra = None /\
      Health.hivPercentage serv = None /\
      Health.maternalPercentage serv = None /\
      Health.childHealthPercentage serv = None /\
      Health.immunizationPercentage serv = None
  | EmptyAggregate => True
  end.

(** A ratio field is there only over a non-zero accumulator. *)
Definition ratiosGuarded (aggregate : Aggregate) : Prop :=
  match aggregate with
  | EducationAggregate m =>
      (Education.totalTeachers (Education.enrollment m) = 0%float ->
       Education.pupilTeacherRatio (Education.ratios m) = None) /\
      (Education.totalClassrooms (Education.enrollment m) = 0%float ->
       Education.pupilClassroomRatio (Education.ratios m) = None)
  | _ => True
  end.

(** The nodes of a location tree, level by level. *)
Definition subcountiesOf (districts : list District.t) : list Subcounty.t :=
  flat_map District.subcounties districts.

Definition parishesOf (districts : list District.t) : list Parish.t :=
  flat_map Subcounty.parishes (subcountiesOf districts).

Definition villagesOf (districts : list District.t) : list Village.t :=
  flat_map Parish.villages (parishesOf districts).

Definition treeCodes (districts : list District.t) : list string :=
  map District.code districts ++ map Subcounty.code (subcountiesOf districts)
  ++ map Parish.code (parishesOf districts) ++ map Village.code (villagesOf districts).

(** [found] describes a node of the tree whose code is [code], at the depth
    the pattern of [code] names. *)
Definition describesNode (districts : list District.t) (code : string)
    (found : Descriptor.t) : Prop :=
  (Descriptor.type found = "district" /\ isDistrict code = true /\
   exists node, In node districts /\ District.code node = code /\
                Descriptor.name found = District.name node) \/
  (Descriptor.type found = "subcounty" /\ isSubcounty code = true /\
   exists node, In node (subcountiesOf districts) /\ Subcounty.code node = code /\
                Descriptor.name found = Subcounty.name node) \/
  (Descriptor.type found = "parish" /\ isParish code = true /\
   exists node, In node (parishesOf districts) /\ Parish.code node = code /\
                Descriptor.name found = Parish.name node) \/
  (Descriptor.type found = "village" /\ isVillage code = true /\
   exists node, In node (villagesOf districts) /\ Village.code node = code /\
                Descriptor.name found = Village.name node).

(** The quoting convention of the tabular input: a field wrapped in double
    quotes, with every double quote inside it doubled. *)
Fixpoint escapeQuotes (field : string) : string :=
  match field with
  | "" => ""
  | String c r =>
      if Ascii.eqb c dquote then String dquote (String dquote (escapeQuotes r))
      else String c (escapeQuotes r)
  end.

Definition quoteField (field : string) : string :=
  String dquote (escapeQuotes field +:+ dq).

(** A field as a line may hold it: wrapped in double quotes, or as it is.  A
    field can stand as it is when it holds no double quote and no comma. *)
Definition writeField (quoted : bool) (field : string) : string :=
  if quoted then quoteField field else field.

Fixpoint isPlain (field : string) : bool :=
  match field with
  | "" => true
  | String c r => negb (Ascii.eqb c dquote) && negb (Ascii.eqb c comma) && isPlain r
  end.

Definition writable (item : bool * string) : Prop :=
  item.1 = false -> isPlain item.2 = true.

(** [pieces.join(separator)] *)
Fixpoint joinWith (separator : string) (pieces : list string) : string :=
  match pieces with
  | [] => ""
  | [piece] => piece
  | piece :: pieces' => piece +:+ separator +:+ joinWith separator pieces'
  end.

(** Lines and headers of a tabular input. *)
Fixpoint allWhite (s : string) : bool :=
  match s with
  | "" => true
  | String c r => isWhiteSpace c && allWhite r
  end.

Fixpoint hasNewline (s : string) : bool :=
  match s with
  | "" => false
  | String c r => Ascii.eqb c newline || hasNewline r
  end.

(** [!line.trim()] *)
Definition isBlank (line : string) : bool :=
  match trim line with
  | "" => true
  | _ => false
  end.

(** A header line: one line, not blank. *)
Definition wellFormedHeader (header : string) : Prop :=
  hasNewline header = false /\ isBlank header = false.

(** The trimmed entries of a header line. *)
Definition headerKeys (header : string) : gset string :=
  list_to_set (map trim (parseCSVLine header)).

(** What [trimEnd] leaves of a text given by its lines: trailing blank
    lines go, and the last line that stays loses its trailing white space. *)
Fixpoint trimEndLines (lines : list string) : list string :=
  match lines with
  | [] => []
  | line :: lines' =>
      match trimEndLines lines' with
      | [] => if isBlank line then [] else [trimEnd line]
      | kept => line :: kept
      end
  end.

(** The first of the [candidates] that is present and not empty, else the
    [fallback]. *)
Fixpoint firstTruthy (candidates : list (option string)) (fallback : string) : string :=
  match candidates with
  | [] => fallback
  | Some (String c r) :: _ => String c r
  | _ :: candidates' => firstTruthy candidates' fallback
  end.

(** What the grouping loop has built after the records [seen]: distinct
    keys, one per label seen; each group named by its key and holding, in
    order, the records seen under that label; the group sizes add up. *)
Definition grouped (subcountyMap : list (string * SubcountyGroup.t))
    (seen : list (gmap string string)) : Prop :=
  NoDup (map fst subcountyMap) /\
  (forall key group, In (key, group) subcountyMap ->
     SubcountyGroup.name group = key /\
     SubcountyGroup.facilities group
       = List.filter (fun facility => String.eqb (subcountyOf facility) key) seen) /\
  (forall key, In key (map fst subcountyMap)
               <-> exists facility, In facility seen /\ subcountyOf facility = key) /\
  sum_list_with (fun kv => length (SubcountyGroup.facilities kv.2)) subcountyMap
  = length seen.

(** [x] may stand before [y] in an array sorted by [compare]. *)
Definition mayPrecede {A} (compare : A -> A -> Z) (x y : A) : Prop := (compare x y <= 0)%Z.

(** The per-label counts of [byLevel] or [byOwnership] added up; a property
    that holds a string is not a count, and there is no total. *)
Definition addCount (value : jsValue) (total : option nat) : option nat :=
  match value, total with
  | JNumber n, Some t => Some (n + t)
  | _, _ => None
  end.

Definition labelTotal (obj : gmap string jsValue) : option nat :=
  map_fold (fun _ value total => addCount value total) (Some 0) obj.

(** The record that [parseCSV] builds from one data line under a header line. *)
Definition rowOf (header line : string) : gmap string string :=
  fillRow (parseCSVLine header) 0 (parseCSVLine line) ∅.

Fixpoint hasQuote (s : string) : bool :=
  match s with
  | "" => false
  | String c r => Ascii.eqb c dquote || hasQuote r
  end.

Fixpoint countCommas (s : string) : nat :=
  match s with
  | "" => 0
  | String c r => (if Ascii.eqb c comma then 1 else 0) + countCommas r
  end.

(** The texts of the code patterns: a letter, then a run of one or more
    digits, for each level. *)
Fixpoint allDigits (s : string) : bool :=
  match s with
  | "" => true
  | String c r => isDigit c && allDigits r
  end.

Definition digitRun (s : string) : Prop := s <> "" /\ allDigits s = true.

Fixpoint segmentsText (letters : list ascii) (runs : list string) : string :=
  match letters, runs with
  | letter :: letters', run :: runs' => String letter (run +:+ segmentsText letters' runs')
  | _, _ => ""
  end.

(** [found] is the descriptor of a node of the tree, with the names of the
    nodes above it. *)
Definition describesPath (districts : list District.t) (found : Descriptor.t) : Prop :=
  (exists district, In district districts /\
     found = Descriptor.mk "district" (District.code district) (District.name district)
               None None None) \/
  (exists district subcounty,
     In district districts /\ In subcounty (District.subcounties district) /\
     found = Descriptor.mk "subcounty" (Subcounty.code subcounty) (Subcounty.name subcounty)
               None None (Some (District.name district))) \/
  (exists district subcounty parish,
     In district districts /\ In subcounty (District.subcounties district) /\
     In parish (Subcounty.parishes subcounty) /\
     found = Descriptor.mk "parish" (Parish.code parish) (Parish.name parish)
               None (Some (Subcounty.name subcounty)) (Some (District.name district))) \/
  (exists district subcounty parish village,
     In district districts /\ In subcounty (District.subcounties district) /\
     In parish (Subcounty.parishes subcounty) /\ In village (Parish.villages parish) /\
     found = Descriptor.mk "village" (Village.code village) (Village.name village)
               (Some (Parish.name parish)) (Some (Subcounty.name subcounty))
               (Some (District.name district))).

(** Two education aggregates that agree on everything but the enrollment
    sums, which are floating-point sums and depend on the order of addition. *)
Definition sameCounts (m m' : Education.Metrics) : Prop :=
  Education.totalFacilities m = Education.totalFacilities m' /\
  Education.byLevel m = Education.byLevel m' /\
  Education.byOwnership m = Education.byOwnership m' /\
  Education.infrastructure m = Education.infrastructure m' /\
  Education.ratios m = Education.ratios m' /\
  Education.gaps m = Education.gaps m' /\
  Education.benchmarks m = Education.benchmarks m'.

(** The labels of a list in the order in which each is first seen. *)
Definition noteLabel (seen : list string) (label : string) : list string :=
  if existsb (fun known => String.eqb known label) seen then seen else seen ++ [label].

Definition firstSeen (labels : list string) : list string :=
  fold_left noteLabel labels [].

(** The polynomial in 31 that [simpleHash] computes modulo 2^32. *)
Fixpoint polynomial31 (str : string) (start : Z) : Z :=
  match str with
  | "" => start
  | String c rest => polynomial31 rest (31 * start + charCode c)
  end.

Definition digitValue36 (c : ascii) : Z :=
  let n := Z.of_nat (nat_of_ascii c) in
  if (n <? 58)%Z then n - 48 else n - 87.

Fixpoint valueBase36 (text : string) (start : Z) : Z :=
  match text with
  | "" => start
  | String c rest => valueBase36 rest (36 * start + digitValue36 c)
  end.

Definition isBase36Digit (c : ascii) : bool :=
  let n := nat_of_ascii c in
  ((48 <=? n) && (n <=? 57)) || ((97 <=? n) && (n <=? 122)).

Fixpoint allBase36 (text : string) : bool :=
  match text with
  | "" => true
  | String c rest => isBase36Digit c && allBase36 rest
  end.

(** Calls of one client at the given times, in order: the verdicts and the
    map left behind. *)
Fixpoint rateRun (times : list Z) (rateLimitMap : gmap string RateEntry.t)
    (clientIP : string) : list bool * gmap string RateEntry.t :=
  match times with
  | [] => ([], rateLimitMap)
  | now :: times' =>
      let (limited, rateLimitMap') := isRateLimited now rateLimitMap clientIP in
      let (verdicts, final) := rateRun times' rateLimitMap' clientIP in
      (limited :: verdicts, final)
  end.

(** The fields that [validateResponse] may add for a response type. *)
Definition typeFields (type : string) : list string :=
  if String.eqb type "answer" then ["data"; "suggestedAction"]
  else if String.eqb type "filter" then
    ["filters"; "resultCount"; "facilities"; "suggestedAction"]
  else if String.eqb type "comparison" then ["rankings"; "insights"; "suggestedAction"]
  else ["suggestions"].

(** The value of a field when it is truthy. *)
Definition truthyPart (field : option json) : option json :=
  match field with
  | Some value => if truthyJson value then Some value else None
  | None => None
  end.

(** The three fields that every response of [validateResponse] has. *)
Definition baseResponse (type : string) (text suggestedView : json) : gmap string json :=
  <["type" := JStr type]> (<["text" := text]> (<["suggestedView" := suggestedView]> ∅)).

(** ** Data of the worked examples *)

(** A district with one subcounty and one parish, and no village. *)
Definition sampleLocations : Locations.t :=
  Locations.mk (Some
    [ District.mk "D01" "Kayunga"
        [ Subcounty.mk "D01S02" "Busaana"
            [ Parish.mk "D01S02P03" "Namirembe" [] ] ] ]).

(** Three schools: two in Busaana, one of them without a teacher count, and
    one in Kayunga Town Council. *)
Definition sampleSchools : list (gmap string string) :=
  [ {[ "subcounty" := "Busaana"; "level" := "Primary"; "total_learners" := "400";
       "total_teachers" := "8"; "electricity_available" := "Yes" ]};
    {[ "subcounty" := "Busaana"; "level" := "Primary"; "total_learners" := "1,200";
       "electricity_available" := "No" ]};
    {[ "subcounty" := "Kayunga Town Council"; "level" := "Secondary";
       "total_learners" := "300"; "total_teachers" := "12";
       "electricity_available" := "yes" ]} ].

(** Schools without a usable teacher count: zero, not a number, missing. *)
Definition unstaffedSchools : list (gmap string string) :=
  [ {[ "total_learners" := "120"; "total_teachers" := "0" ]};
    {[ "total_learners" := "80"; "teachers" := "n/a" ]};
    {[ "level" := "Primary" ]} ].

Definition noLocation : LocationFilter.t := LocationFilter.mk None None None None.

(** Records that name their subcounty in different columns: the first names
    it twice, the fourth has an empty [subcounty], the last names none. *)
Definition mixedColumns : list (gmap string string) :=
  [ {[ "subcounty" := "Busaana"; "Subcounty" := "Kayonza" ]};
    {[ "Subcounty" := "Kayonza"; "sub_county" := "Nazigo" ]};
    {[ "sub_county" := "Kayonza" ]};
    {[ "subcounty" := ""; "sub_county" := "Kayonza" ]};
    {[ "level" := "Primary" ]} ].

(** A model response with a field of another type, and what is kept of it. *)
Definition sampleResponse : json :=
  JObj (<["type" := JStr "filter"]>
          (<["text" := JStr "12 schools have no water"]>
             (<["resultCount" := JNum 12]> (<["rankings" := JArr []]> ∅)))).

Definition sampleCleaned : gmap string json :=
  <["type" := JStr "filter"]>
    (<["text" := JStr "12 schools have no water"]>
       (<["suggestedView" := JStr "map"]> (<["resultCount" := JNum 12]> ∅))).

(** * Properties *)

(** ** Severity *)

Section SeverityFacts.
Variables current target : float.
Let ratio := (current / target)%float.

Lemma getSeverity_critical :
  getSeverity current target = "critical" <-> (ratio <? 0.5)%float = true.
Proof.
  unfold getSeverity. fold ratio.
  destruct (ratio <? 0.5)%float; [easy|].
  destruct (ratio <? 0.75)%float; [easy|].
  destruct (ratio <? 0.9)%float; easy.
Qed.

Lemma getSeverity_high :
  getSeverity current target = "high"
  <-> (ratio <? 0.5)%float = false /\ (ratio <? 0.75)%float = true.
Proof.
  unfold getSeverity. fold ratio.
  destruct (ratio <? 0.5)%float; [easy|].
  destruct (ratio <? 0.75)%float; [easy|].
  destruct (ratio <? 0.9)%float; easy.
Qed.

Lemma getSeverity_medium :
  getSeverity current target = "medium"
  <-> (ratio <? 0.5)%float = false /\ (ratio <? 0.75)%float = false
      /\ (ratio <? 0.9)%float = true.
Proof.
  unfold getSeverity. fold ratio.
  destruct (ratio <? 0.5)%float; [easy|].
  destruct (ratio <? 0.75)%float; [easy|].
  destruct (ratio <? 0.9)%float; easy.
Qed.

Lemma getSeverity_low :
  getSeverity current target = "low"
  <-> (ratio <? 0.5)%float = false /\ (ratio <? 0.75)%float = false
      /\ (ratio <? 0.9)%float = false.
Proof.
  unfold getSeverity. fold ratio.
  destruct (ratio <? 0.5)%float; [easy|].
  destruct (ratio <? 0.75)%float; [easy|].
  destruct (ratio <? 0.9)%float; easy.
Qed.

End SeverityFacts.

(** C1, as the specification states it, fails: the thresholds are strict, so
    a ratio of exactly 0.75 is not below 0.75.  Three quarters is classified
    ['medium'], not ['high']. *)
Lemma getSeverity_ratio_three_quarters_is_not_high :
  (3 / 4)%float = 0.75%float /\ getSeverity 3 4 = "medium" /\
  ~ (forall current target : float,
        (current / target)%float = 0.75%float -> getSeverity current target = "high").
Proof.
  split; [reflexivity|]. split; [reflexivity|].
  intros claim. specialize (claim 3%float 4%float eq_refl). discriminate claim.
Qed.

(** C1 (amended): severity is decided by strict less-than tests on the
    quotient [current / target], taken in order: below 0.5 is ['critical'],
    otherwise below 0.75 is ['high'], otherwise below 0.9 is ['medium'],
    otherwise ['low'].  Each threshold itself falls in the class above it: a
    ratio of exactly 0.5 is ['high'], exactly 0.75 is ['medium'], exactly 0.9
    is ['low']. *)
Theorem getSeverity_strict_thresholds (current target : float) :
  let ratio := (current / target)%float in
  (getSeverity current target = "critical" <-> (ratio <? 0.5)%float = true) /\
  (getSeverity current target = "high"
     <-> (ratio <? 0.5)%float = false /\ (ratio <? 0.75)%float = true) /\
  (getSeverity current target = "medium"
     <-> (ratio <? 0.5)%float = false /\ (ratio <? 0.75)%float = false
         /\ (ratio <? 0.9)%float = true) /\
  (getSeverity current target = "low"
     <-> (ratio <? 0.5)%float = false /\ (ratio <? 0.75)%float = false
         /\ (ratio <? 0.9)%float = false) /\
  (ratio = 0.5%float -> getSeverity current target = "high") /\
  (ratio = 0.75%float -> getSeverity current target = "medium") /\
  (ratio = 0.9%float -> getSeverity current target = "low").
Proof.
  intros ratio.
  split; [apply getSeverity_critical|].
  split; [apply getSeverity_high|].
  split; [apply getSeverity_medium|].
  split; [apply getSeverity_low|].
  unfold getSeverity. fold ratio.
  repeat split; intros ->; reflexivity.
Qed.

(** The three boundary ratios, reached by positive operands. *)
Lemma getSeverity_strict_thresholds_witness :
  getSeverity 1 2 = "high" /\ getSeverity 3 4 = "medium" /\ getSeverity 9 10 = "low".
Proof.
  pose proof (getSeverity_strict_thresholds 1 2) as (_ & _ & _ & _ & H12 & _ & _).
  pose proof (getSeverity_strict_thresholds 3 4) as (_ & _ & _ & _ & _ & H34 & _).
  pose proof (getSeverity_strict_thresholds 9 10) as (_ & _ & _ & _ & _ & _ & H910).
  split; [exact (H12 eq_refl)|]. split; [exact (H34 eq_refl)|exact (H910 eq_refl)].
Defined.

(** ** The aggregator: what the loop leaves alone *)

Section AggregatorFacts.
Context `{NumberBuiltins}.

(** The education loop only touches the counters and the sums. *)
Lemma educationFold_frame facilities metrics :
  let metrics' := fold_left educationStep facilities metrics in
  Education.totalFacilities metrics' = Education.totalFacilities metrics /\
  Education.ratios metrics' = Education.ratios metrics /\
  Education.gaps metrics' = Education.gaps metrics /\
  Education.electricityPercentage (Education.infrastructure metrics')
    = Education.electricityPercentage (Education.infrastructure metrics) /\
  Education.waterPercentage (Education.infrastructure metrics')
    = Education.waterPercentage (Education.infrastructure metrics) /\
  Education.ictLabPercentage (Education.infrastructure metrics')
    = Education.ictLabPercentage (Education.infrastructure metrics) /\
  Education.libraryPercentage (Education.infrastructure metrics')
    = Education.libraryPercentage (Education.infrastructure metrics).
Proof.
  revert metrics. induction facilities as [|facility facilities IH]; intros metrics; simpl.
  - repeat split.
  - destruct (IH (educationStep metrics facility)) as (-> & -> & -> & -> & -> & -> & ->).
    repeat split.
Qed.

Lemma healthFold_frame facilities metrics :
  let metrics' := fold_left healthStep facilities metrics in
  Health.totalFacilities metrics' = Health.totalFacilities metrics /\
  Health.gaps metrics' = Health.gaps metrics /\
  (Health.electricityPercentage (Health.infrastructure metrics'),
   Health.waterPercentage (Health.infrastructure metrics'),
   Health.ambulancePercentage (Health.infrastructure metrics'),
   Health.maternityPercentage (Health.infrastructure metrics'))
  = (Health.electricityPercentage (Health.infrastructure metrics),
     Health.waterPercentage (Health.infrastructure metrics),
     Health.ambulancePercentage (Health.infrastructure metrics),
     Health.maternityPercentage (Health.infrastructure metrics)) /\
  (Health.hivPercentage (Health.services metrics'),
   Health.maternalPercentage (Health.services metrics'),
   Health.childHealthPercentage (Health.services metrics'),
   Health.immunizationPercentage (Health.services metrics'))
  = (Health.hivPercentage (Health.services metrics),
     Health.maternalPercentage (Health.services metrics),
     Health.childHealthPercentage (Health.services metrics),
     Health.immunizationPercentage (Health.services metrics)).
Proof.
  revert metrics. induction facilities as [|facility facilities IH]; intros metrics; simpl.
  - repeat split.
  - destruct (IH (healthStep metrics facility)) as (-> & -> & -> & ->).
    repeat split.
Qed.

(** The sums after the loop are those of the enrollment block alone. *)
Lemma educationFold_enrollment facilities metrics :
  Education.enrollment (fold_left educationStep facilities metrics)
  = fold_left
      (fun enrol facility =>
         Education.mkEnrollment
           (addPositive (learnersOf facility) (Education.totalLearners enrol))
           (addPositive (teachersOf facility) (Education.totalTeachers enrol))
           (addPositive (classroomsOf facility) (Education.totalClassrooms enrol)))
      facilities (Education.enrollment metrics).
Proof.
  revert metrics. induction facilities as [|facility facilities IH]; intros metrics; simpl.
  - reflexivity.
  - rewrite IH. reflexivity.
Qed.

(** Records without a positive teacher count leave the accumulator alone. *)
Lemma educationFold_no_teachers facilities metrics :
  Forall (fun facility => (0 <? teachersOf facility)%float = false) facilities ->
  Education.totalTeachers (Education.enrollment (fold_left educationStep facilities metrics))
  = Education.totalTeachers (Education.enrollment metrics).
Proof.
  intros Hnone. revert metrics.
  induction Hnone as [|facility facilities Hf _ IH]; intros metrics; simpl.
  - reflexivity.
  - rewrite IH. simpl. unfold addPositive. rewrite Hf. reflexivity.
Qed.

(** C3: an aggregate over no facilities ([totalFacilities = 0]) has no
    percentage field, in either category; and whatever the facilities, the
    education aggregate has no [pupilTeacherRatio] when the teacher sum is
    zero and no [pupilClassroomRatio] when the classroom sum is zero. *)
Theorem calculateMetrics_guards_division facilities location category :
  (length facilities = 0 -> noPercentages (calculateMetrics facilities location category)) /\
  ratiosGuarded (calculateMetrics facilities location category).
Proof.
  unfold calculateMetrics.
  destruct (String.eqb category "education"); [|destruct (String.eqb category "health")].
  - split.
    + intros Hlen. destruct facilities; [|discriminate Hlen]. simpl. repeat split.
    + unfold calculateEducationMetrics, ratiosGuarded.
      destruct (educationFold_frame facilities (educationInit facilities))
        as (_ & Hratios & _).
      set (m := fold_left educationStep facilities (educationInit facilities)) in *.
      unfold educationFinish. cbn [Education.enrollment Education.ratios
        Education.pupilTeacherRatio Education.pupilClassroomRatio].
      rewrite Hratios. split; intros ->; reflexivity.
  - split; [|exact I].
    intros Hlen. destruct facilities; [|discriminate Hlen]. simpl. repeat split.
  - split; [intros _|]; exact I.
Qed.

(** C7: for a category that is neither ['education'] nor ['health'],
    [calculateMetrics] returns the empty object, whatever the facilities. *)
Theorem calculateMetrics_unknown_category facilities location category :
  category <> "education" -> category <> "health" ->
  calculateMetrics facilities location category = EmptyAggregate.
Proof.
  intros Hedu Hhealth. unfold calculateMetrics.
  destruct (String.eqb_spec category "education") as [->|_]; [contradiction|].
  destruct (String.eqb_spec category "health") as [->|_]; [contradiction|].
  reflexivity.
Qed.

(** C10: when no record has a positive parsed teacher count, the education
    aggregate has no [pupilTeacherRatio] and no gap of type
    ['pupil_teacher_ratio']. *)
Theorem no_teachers_no_ratio_no_gap facilities location :
  Forall (fun facility => (0 <? teachersOf facility)%float = false) facilities ->
  let metrics := calculateEducationMetrics facilities location in
  Education.totalTeachers (Education.enrollment metrics) = 0%float /\
  Education.pupilTeacherRatio (Education.ratios metrics) = None /\
  Forall (fun gap => Gap.type gap <> "pupil_teacher_ratio") (Education.gaps metrics).
Proof.
  intros Hnone. unfold calculateEducationMetrics.
  pose proof (educationFold_no_teachers facilities (educationInit facilities) Hnone) as Hsum.
  destruct (educationFold_frame facilities (educationInit facilities))
    as (_ & Hratios & Hgaps & _).
  set (m := fold_left educationStep facilities (educationInit facilities)) in *.
  simpl in Hsum, Hratios, Hgaps.
  unfold educationFinish.
  cbn [Education.enrollment Education.ratios Education.pupilTeacherRatio Education.gaps].
  rewrite Hsum, Hratios, Hgaps. cbn.
  split; [reflexivity|]. split; [reflexivity|].
  rewrite app_nil_r.
  unfold electricityGap.
  destruct (Education.electricityPercentage _) as [current|]; [|constructor].
  destruct (toNumber current <? _)%float; constructor; [discriminate|constructor].
Qed.

End AggregatorFacts.

(** ** Location-based filtering *)

Lemma startsWith_spec (s p : string) :
  startsWith s p = true <-> exists rest, s = p +:+ rest.
Proof.
  unfold startsWith. revert s. induction p as [|a p IH]; intros s.
  - split; [intros _; exists s; reflexivity|intros _; destruct s; reflexivity].
  - destruct s as [|b s]; simpl.
    + split; [discriminate|intros [rest Hrest]; discriminate Hrest].
    + destruct (ascii_dec a b) as [->|Hne].
      * rewrite IH. split; intros [rest Hrest]; exists rest.
        -- rewrite Hrest. reflexivity.
        -- change (String b s = String b (p +:+ rest)) in Hrest.
           injection Hrest as Hrest. exact Hrest.
      * split; [discriminate|].
        intros [rest Hrest].
        change (String b s = String a (p +:+ rest)) in Hrest.
        injection Hrest as Hab _. congruence.
Qed.

Lemma filterCode_truthy (location : LocationFilter.t) (code : string) :
  filterCode location = Some code -> truthy (Some code) = true.
Proof.
  unfold filterCode.
  destruct (truthy (LocationFilter.village location)) eqn:Hv; [intros <-; exact Hv|].
  destruct (truthy (LocationFilter.parish location)) eqn:Hp; [intros <-; exact Hp|].
  destruct (truthy (LocationFilter.subcounty location)) eqn:Hs; [intros <-; exact Hs|].
  destruct (truthy (LocationFilter.district location)) eqn:Hd; [intros <-; exact Hd|].
  discriminate.
Qed.

(** The filter code is the first non-empty field, from the village up. *)
Lemma filterCode_spec (location : LocationFilter.t) (code : string) :
  filterCode location = Some code <->
  code <> "" /\
  (LocationFilter.village location = Some code \/
   truthy (LocationFilter.village location) = false /\
   (LocationFilter.parish location = Some code \/
    truthy (LocationFilter.parish location) = false /\
    (LocationFilter.subcounty location = Some code \/
     truthy (LocationFilter.subcounty location) = false /\
     LocationFilter.district location = Some code))).
Proof.
  assert (forall field : option string,
            truthy field = true -> field = Some code -> code <> "") as Hnonempty.
  { intros field Htruthy ->. destruct code; [discriminate Htruthy|discriminate]. }
  assert (forall field : option string,
            truthy field = false -> field = Some code -> code <> "" -> False) as Hempty.
  { intros field Hfalsy ->. destruct code; [congruence|discriminate Hfalsy]. }
  unfold filterCode.
  destruct (truthy (LocationFilter.village location)) eqn:Hv.
  { split; [intros Heq; split; [eapply Hnonempty; eassumption|left; exact Heq]|].
    intros (_ & [Heq|[Hfalse _]]); [exact Heq|discriminate Hfalse]. }
  destruct (truthy (LocationFilter.parish location)) eqn:Hp.
  { split; [intros Heq; split; [eapply Hnonempty; eassumption|right; split; [reflexivity|left; exact Heq]]|].
    intros (Hcode & [Heq|[_ [Heq|[Hfalse _]]]]);
      [destruct (Hempty _ Hv Heq Hcode)|exact Heq|discriminate Hfalse]. }
  destruct (truthy (LocationFilter.subcounty location)) eqn:Hs.
  { split; [intros Heq; split; [eapply Hnonempty; eassumption|
                                right; split; [reflexivity|right; split; [reflexivity|left; exact Heq]]]|].
    intros (Hcode & [Heq|[_ [Heq|[_ [Heq|[Hfalse _]]]]]]);
      [destruct (Hempty _ Hv Heq Hcode)|destruct (Hempty _ Hp Heq Hcode)
      |exact Heq|discriminate Hfalse]. }
  destruct (truthy (LocationFilter.district location)) eqn:Hd.
  { split; [intros Heq; split; [eapply Hnonempty; eassumption|
                                right; split; [reflexivity|right; split; [reflexivity|
                                right; split; [reflexivity|exact Heq]]]]|].
    intros (Hcode & [Heq|[_ [Heq|[_ [Heq|[_ Heq]]]]]]);
      [destruct (Hempty _ Hv Heq Hcode)|destruct (Hempty _ Hp Heq Hcode)
      |destruct (Hempty _ Hs Heq Hcode)|exact Heq]. }
  split; [discriminate|].
  intros (Hcode & [Heq|[_ [Heq|[_ [Heq|[_ Heq]]]]]]); exfalso;
    [exact (Hempty _ Hv Heq Hcode)|exact (Hempty _ Hp Heq Hcode)
    |exact (Hempty _ Hs Heq Hcode)|exact (Hempty _ Hd Heq Hcode)].
Qed.

(** C2, as the specification states it, fails: the code a record is tested on
    is [location_code], or [Location_code] when that one is missing or empty.
    A record that only has [Location_code] is retained. *)
Lemma filterByLocation_reads_Location_code :
  ({[ "Location_code" := "D01S02" ]} : gmap string string) !! "location_code" = None /\
  filterByLocation [ {[ "Location_code" := "D01S02" ]} ]
    (LocationFilter.mk None (Some "D01S02") None None)
  = [ {[ "Location_code" := "D01S02" ]} ] /\
  ~ (forall facilities location code row,
        filterCode location = Some code ->
        In row (filterByLocation facilities location) ->
        exists value, row !! "location_code" = Some value /\ startsWith value code = true).
Proof.
  split; [reflexivity|]. split; [reflexivity|].
  intros claim.
  destruct (claim [ {[ "Location_code" := "D01S02" ]} ]
              (LocationFilter.mk None (Some "D01S02") None None)
              "D01S02" {[ "Location_code" := "D01S02" ]} eq_refl)
    as (value & Hvalue & _).
  - left. reflexivity.
  - discriminate Hvalue.
Qed.

(** C2 (amended): the filter code is the most specific non-empty field of the
    filter, in the order village, parish, subcounty, district; without one,
    every record is returned.  With one, a record is retained if and only if
    its location code has the filter code as a literal prefix, where the
    location code of a record is its [location_code], or its [Location_code]
    when [location_code] is missing or empty, or the empty string.  Records
    with codes D01, D01S02, D01S02P03, D01S02P03V04 and a sibling D01S03P01,
    filtered by subcounty D01S02, give exactly the middle three. *)
Theorem filterByLocation_prefix facilities location :
  (forall code,
     filterCode location = Some code <->
     code <> "" /\
     (LocationFilter.village location = Some code \/
      truthy (LocationFilter.village location) = false /\
      (LocationFilter.parish location = Some code \/
       truthy (LocationFilter.parish location) = false /\
       (LocationFilter.subcounty location = Some code \/
        truthy (LocationFilter.subcounty location) = false /\
        LocationFilter.district location = Some code)))) /\
  (filterCode location = None -> filterByLocation facilities location = facilities) /\
  (forall code, filterCode location = Some code ->
     code <> "" /\
     filterByLocation facilities location
       = List.filter (fun row => startsWith (locationCode row) code) facilities /\
     forall row, In row (filterByLocation facilities location)
                 <-> In row facilities /\ exists rest, locationCode row = code +:+ rest) /\
  (forall row,
     locationCode row =
       match row !! "location_code", row !! "Location_code" with
       | Some (String c r), _ => String c r
       | _, Some value => value
       | _, None => ""
       end) /\
  (forall r1 r2 r3 r4 r5 : gmap string string,
     r1 !! "location_code" = Some "D01" ->
     r2 !! "location_code" = Some "D01S02" ->
     r3 !! "location_code" = Some "D01S02P03" ->
     r4 !! "location_code" = Some "D01S02P03V04" ->
     r5 !! "location_code" = Some "D01S03P01" ->
     forall district,
       filterByLocation [r1; r2; r3; r4; r5]
         (LocationFilter.mk district (Some "D01S02") None None)
       = [r2; r3; r4]).
Proof.
  split; [apply filterCode_spec|]. split.
  { intros Hnone. unfold filterByLocation. rewrite Hnone. reflexivity. }
  split.
  { intros code Hcode. pose proof (filterCode_truthy _ _ Hcode) as Htruthy.
    destruct code as [|c r]; [discriminate Htruthy|].
    split; [discriminate|].
    assert (filterByLocation facilities location
            = List.filter (fun row => startsWith (locationCode row) (String c r)) facilities)
      as Hfilter.
    { unfold filterByLocation. rewrite Hcode. reflexivity. }
    split; [exact Hfilter|].
    intros row. rewrite Hfilter, filter_In, startsWith_spec. reflexivity. }
  split.
  { intros row. unfold locationCode, orElse, orDefault, truthy.
    destruct (row !! "location_code") as [[|c r]|];
      destruct (row !! "Location_code") as [[|c' r']|]; reflexivity. }
  intros r1 r2 r3 r4 r5 H1 H2 H3 H4 H5 district.
  unfold filterByLocation, filterCode. cbn.
  unfold locationCode. rewrite H1, H2, H3, H4, H5. reflexivity.
Qed.

(** The four records of the example, and one that only has [Location_code]. *)
Lemma filterByLocation_prefix_witness :
  filterByLocation
    [ {[ "location_code" := "D01" ]}; {[ "location_code" := "D01S02" ]};
      {[ "location_code" := "D01S02P03" ]}; {[ "location_code" := "D01S02P03V04" ]};
      {[ "location_code" := "D01S03P01" ]} ]
    (LocationFilter.mk (Some "D01") (Some "D01S02") None None)
  = [ {[ "location_code" := "D01S02" ]}; {[ "location_code" := "D01S02P03" ]};
      {[ "location_code" := "D01S02P03V04" ]} ].
Proof.
  pose proof (filterByLocation_prefix [] (LocationFilter.mk None None None None))
    as (_ & _ & _ & _ & Hexample).
  apply Hexample; reflexivity.
Defined.

(** ** Location hierarchy resolver *)

Section ResolverFacts.
Variable code : string.

Lemma searchVillages_Some district subcounty parish villages found :
  searchVillages code district subcounty parish villages = Some found ->
  Descriptor.type found = "village" /\ Descriptor.code found = code /\
  isVillage code = true /\
  exists node, In node villages /\ Village.code node = code /\
               Descriptor.name found = Village.name node.
Proof.
  induction villages as [|village villages IH]; simpl; [discriminate|].
  destruct (String.eqb_spec (Village.code village) code) as [Heq|_]; simpl.
  - destruct (isVillage code) eqn:Hpattern.
    + intros [= <-]. simpl. repeat split; [exact Heq|]. exists village. auto.
    + intros Hrest. destruct (IH Hrest) as (? & ? & ? & node & ? & ? & ?).
      repeat split; try assumption. exists node. auto.
  - intros Hrest. destruct (IH Hrest) as (? & ? & ? & node & ? & ? & ?).
    repeat split; try assumption. exists node. auto.
Qed.

Lemma searchParishes_Some district subcounty parishes found :
  searchParishes code district subcounty parishes = Some found ->
  Descriptor.code found = code /\
  ((Descriptor.type found = "parish" /\ isParish code = true /\
    exists node, In node parishes /\ Parish.code node = code /\
                 Descriptor.name found = Parish.name node) \/
   (Descriptor.type found = "village" /\ isVillage code = true /\
    exists node, In node (flat_map Parish.villages parishes) /\ Village.code node = code /\
                 Descriptor.name found = Village.name node)).
Proof.
  induction parishes as [|parish parishes IH]; simpl; [discriminate|].
  assert (searchParishes code district subcounty parishes = Some found ->
          Descriptor.code found = code /\
          ((Descriptor.type found = "parish" /\ isParish code = true /\
            exists node, (parish = node \/ In node parishes) /\ Parish.code node = code /\
                         Descriptor.name found = Parish.name node) \/
           (Descriptor.type found = "village" /\ isVillage code = true /\
            exists node, In node (Parish.villages parish ++ flat_map Parish.villages parishes)
                         /\ Village.code node = code /\
                         Descriptor.name found = Village.name node))) as Htail.
  { intros Hrest. destruct (IH Hrest) as (Hcode & [(? & ? & node & ? & ? & ?)|(? & ? & node & ? & ? & ?)]).
    - split; [exact Hcode|]. left. repeat split; try assumption. exists node. auto.
    - split; [exact Hcode|]. right. repeat split; try assumption. exists node.
      rewrite in_app_iff. auto. }
  assert (forall inner,
            searchVillages code district subcounty parish (Parish.villages parish) = inner ->
            match inner with
            | Some found' => Some found'
            | None => searchParishes code district subcounty parishes
            end = Some found ->
            Descriptor.code found = code /\
            ((Descriptor.type found = "parish" /\ isParish code = true /\
              exists node, (parish = node \/ In node parishes) /\ Parish.code node = code /\
                           Descriptor.name found = Parish.name node) \/
             (Descriptor.type found = "village" /\ isVillage code = true /\
              exists node, In node (Parish.villages parish ++ flat_map Parish.villages parishes)
                           /\ Village.code node = code /\
                           Descriptor.name found = Village.name node))) as Hinner.
  { intros [found'|] Hvillages; [|exact Htail].
    intros [= ->].
    destruct (searchVillages_Some _ _ _ _ _ Hvillages) as (? & ? & ? & node & ? & ? & ?).
    split; [assumption|]. right. repeat split; try assumption. exists node.
    rewrite in_app_iff. auto. }
  destruct (String.eqb_spec (Parish.code parish) code) as [Heq|_]; simpl;
    [|exact (Hinner _ eq_refl)].
  destruct (isParish code) eqn:Hpattern; [|exact (Hinner _ eq_refl)].
  intros [= <-]. simpl. split; [exact Heq|]. left. repeat split. exists parish. auto.
Qed.

Lemma searchSubcounties_Some district subcounties found :
  searchSubcounties code district subcounties = Some found ->
  Descriptor.code found = code /\
  ((Descriptor.type found = "subcounty" /\ isSubcounty code = true /\
    exists node, In node subcounties /\ Subcounty.code node = code /\
                 Descriptor.name found = Subcounty.name node) \/
   (Descriptor.type found = "parish" /\ isParish code = true /\
    exists node, In node (flat_map Subcounty.parishes subcounties) /\ Parish.code node = code /\
                 Descriptor.name found = Parish.name node) \/
   (Descriptor.type found = "village" /\ isVillage code = true /\
    exists node, In node (flat_map Parish.villages (flat_map Subcounty.parishes subcounties))
                 /\ Village.code node = code /\
                 Descriptor.name found = Village.name node)).
Proof.
  induction subcounties as [|subcounty subcounties IH]; simpl; [discriminate|].
  rewrite flat_map_app.
  assert (searchSubcounties code district subcounties = Some found ->
          Descriptor.code found = code /\
          ((Descriptor.type found = "subcounty" /\ isSubcounty code = true /\
            exists node, (subcounty = node \/ In node subcounties) /\ Subcounty.code node = code /\
                         Descriptor.name found = Subcounty.name node) \/
           (Descriptor.type found = "parish" /\ isParish code = true /\
            exists node, In node (Subcounty.parishes subcounty
                                  ++ flat_map Subcounty.parishes subcounties)
                         /\ Parish.code node = code /\
                         Descriptor.name found = Parish.name node) \/
           (Descriptor.type found = "village" /\ isVillage code = true /\
            exists node, In node (flat_map Parish.villages (Subcounty.parishes subcounty)
                                  ++ flat_map Parish.villages
                                       (flat_map Subcounty.parishes subcounties))
                         /\ Village.code node = code /\
                         Descriptor.name found = Village.name node))) as Htail.
  { intros Hrest.
    destruct (IH Hrest) as (Hcode & [(? & ? & node & ? & ? & ?)
                                    |[(? & ? & node & ? & ? & ?)|(? & ? & node & ? & ? & ?)]]);
      (split; [exact Hcode|]).
    - left. repeat split; try assumption. exists node. auto.
    - right. left. repeat split; try assumption. exists node. rewrite in_app_iff. auto.
    - right. right. repeat split; try assumption. exists node. rewrite in_app_iff. auto. }
  assert (forall inner,
            searchParishes code district subcounty (Subcounty.parishes subcounty) = inner ->
            match inner with
            | Some found' => Some found'
            | None => searchSubcounties code district subcounties
            end = Some found ->
            Descriptor.code found = code /\
            ((Descriptor.type found = "subcounty" /\ isSubcounty code = true /\
              exists node, (subcounty = node \/ In node subcounties)
                           /\ Subcounty.code node = code /\
                           Descriptor.name found = Subcounty.name node) \/
             (Descriptor.type found = "parish" /\ isParish code = true /\
              exists node, In node (Subcounty.parishes subcounty
                                    ++ flat_map Subcounty.parishes subcounties)
                           /\ Parish.code node = code /\
                           Descriptor.name found = Parish.name node) \/
             (Descriptor.type found = "village" /\ isVillage code = true /\
              exists node, In node (flat_map Parish.villages (Subcounty.parishes subcounty)
                                    ++ flat_map Parish.villages
                                         (flat_map Subcounty.parishes subcounties))
                           /\ Village.code node = code /\
                           Descriptor.name found = Village.name node))) as Hinner.
  { intros [found'|] Hparishes; [|exact Htail].
    intros [= ->].
    destruct (searchParishes_Some _ _ _ _ Hparishes)
      as (Hcode & [(? & ? & node & ? & ? & ?)|(? & ? & node & ? & ? & ?)]);
      (split; [exact Hcode|]).
    - right. left. repeat split; try assumption. exists node. rewrite in_app_iff. auto.
    - right. right. repeat split; try assumption. exists node. rewrite in_app_iff. auto. }
  destruct (String.eqb_spec (Subcounty.code subcounty) code) as [Heq|_]; simpl;
    [|exact (Hinner _ eq_refl)].
  destruct (isSubcounty code) eqn:Hpattern; [|exact (Hinner _ eq_refl)].
  intros [= <-]. simpl. split; [exact Heq|]. left. repeat split. exists subcounty. auto.
Qed.

Lemma searchDistricts_Some districts found :
  searchDistricts code districts = Some found ->
  Descriptor.code found = code /\ describesNode districts code found.
Proof.
  unfold describesNode, villagesOf, parishesOf, subcountiesOf.
  induction districts as [|district districts IH]; simpl; [discriminate|].
  rewrite !flat_map_app.
  assert (forall inner,
            searchSubcounties code district (District.subcounties district) = inner ->
            match inner with
            | Some found' => Some found'
            | None => searchDistricts code districts
            end = Some found ->
            Descriptor.code found = code /\
            ((Descriptor.type found = "district" /\ isDistrict code = true /\
              exists node, (district = node \/ In node districts) /\ District.code node = code /\
                           Descriptor.name found = District.name node) \/
             (Descriptor.type found = "subcounty" /\ isSubcounty code = true /\
              exists node, In node (District.subcounties district
                                    ++ flat_map District.subcounties districts)
                           /\ Subcounty.code node = code /\
                           Descriptor.name found = Subcounty.name node) \/
             (Descriptor.type found = "parish" /\ isParish code = true /\
              exists node, In node (flat_map Subcounty.parishes (District.subcounties district)
                                    ++ flat_map Subcounty.parishes
                                         (flat_map District.subcounties districts))
                           /\ Parish.code node = code /\
                           Descriptor.name found = Parish.name node) \/
             (Descriptor.type found = "village" /\ isVillage code = true /\
              exists node,
                In node (flat_map Parish.villages
                           (flat_map Subcounty.parishes (District.subcounties district))
                         ++ flat_map Parish.villages
                              (flat_map Subcounty.parishes
                                 (flat_map District.subcounties districts)))
                /\ Village.code node = code /\
                Descriptor.name found = Village.name node))) as Hinner.
  { intros [found'|] Hsubcounties.
    - intros [= ->].
      destruct (searchSubcounties_Some _ _ _ Hsubcounties)
        as (Hcode & [(? & ? & node & ? & ? & ?)
                    |[(? & ? & node & ? & ? & ?)|(? & ? & node & ? & ? & ?)]]);
        (split; [exact Hcode|]).
      + right. left. repeat split; try assumption. exists node. rewrite in_app_iff. auto.
      + right. right. left. repeat split; try assumption. exists node.
        rewrite in_app_iff. auto.
      + right. right. right. repeat split; try assumption. exists node.
        rewrite in_app_iff. auto.
    - intros Hrest.
      destruct (IH Hrest)
        as (Hcode & [(? & ? & node & ? & ? & ?)
                    |[(? & ? & node & ? & ? & ?)
                     |[(? & ? & node & ? & ? & ?)|(? & ? & node & ? & ? & ?)]]]);
        (split; [exact Hcode|]).
      + left. repeat split; try assumption. exists node. auto.
      + right. left. repeat split; try assumption. exists node. rewrite in_app_iff. auto.
      + right. right. left. repeat split; try assumption. exists node.
        rewrite in_app_iff. auto.
      + right. right. right. repeat split; try assumption. exists node.
        rewrite in_app_iff. auto. }
  destruct (String.eqb_spec (District.code district) code) as [Heq|_]; simpl;
    [|exact (Hinner _ eq_refl)].
  destruct (isDistrict code) eqn:Hpattern; [|exact (Hinner _ eq_refl)].
  intros [= <-]. simpl. split; [exact Heq|]. left. repeat split. exists district. auto.
Qed.

End ResolverFacts.

(** C6: [getLocationByCode] returns a descriptor only for a code that some
    node of the tree carries, at the depth that the pattern of the code names
    (district, subcounty, parish or village form), and the descriptor has that
    code and that node's name.  For a code that no node carries, and for a
    code of none of the four forms, such as ["XX99"], it returns [null]; it
    is a total function, so it never throws. *)
Theorem getLocationByCode_sound locations code :
  (forall found, getLocationByCode locations code = Some found ->
     Descriptor.code found = code /\
     exists districts, Locations.districts locations = Some districts /\
                       describesNode districts code found) /\
  (forall districts, Locations.districts locations = Some districts ->
     ~ In code (treeCodes districts) -> getLocationByCode locations code = None) /\
  (isDistrict code = false -> isSubcounty code = false ->
   isParish code = false -> isVillage code = false ->
   getLocationByCode locations code = None) /\
  getLocationByCode locations "XX99" = None.
Proof.
  assert (forall c found, getLocationByCode locations c = Some found ->
            Descriptor.code found = c /\
            exists districts, Locations.districts locations = Some districts /\
                              describesNode districts c found) as Hsound.
  { intros c found. unfold getLocationByCode.
    destruct (Locations.districts locations) as [districts|]; [|discriminate].
    destruct c as [|c0 c']; [discriminate|].
    intros Hfound. destruct (searchDistricts_Some _ _ _ Hfound) as [Hcode Hnode].
    split; [exact Hcode|]. exists districts. auto. }
  assert (forall c, isDistrict c = false -> isSubcounty c = false ->
                    isParish c = false -> isVillage c = false ->
                    getLocationByCode locations c = None) as Hpattern.
  { intros c Hd Hs Hp Hv.
    destruct (getLocationByCode locations c) as [found|] eqn:Hfound; [|reflexivity].
    destruct (Hsound _ _ Hfound) as (_ & districts & _ & Hnode).
    destruct Hnode as [(_ & Hyes & _)|[(_ & Hyes & _)|[(_ & Hyes & _)|(_ & Hyes & _)]]];
      congruence. }
  split; [exact (Hsound code)|]. split.
  { intros districts Hdistricts Habsent.
    destruct (getLocationByCode locations code) as [found|] eqn:Hfound; [|reflexivity].
    destruct (Hsound _ _ Hfound) as (_ & districts' & Hdistricts' & Hnode).
    rewrite Hdistricts in Hdistricts'. injection Hdistricts' as <-.
    exfalso. apply Habsent. unfold treeCodes. rewrite !in_app_iff, !in_map_iff.
    destruct Hnode as [(_ & _ & node & ? & ? & _)|[(_ & _ & node & ? & ? & _)
                      |[(_ & _ & node & ? & ? & _)|(_ & _ & node & ? & ? & _)]]].
    - left. exists node. auto.
    - right. left. exists node. auto.
    - right. right. left. exists node. auto.
    - right. right. right. exists node. auto. }
  split; [exact (Hpattern code)|].
  apply Hpattern; reflexivity.
Qed.

(** A village code that the sample tree lacks, and the parish above it. *)
Lemma getLocationByCode_sound_witness :
  getLocationByCode sampleLocations "D01S02P03V04" = None /\
  getLocationByCode sampleLocations "XX99" = None /\
  getLocationByCode sampleLocations "D01S02P03"
  = Some (Descriptor.mk "parish" "D01S02P03" "Namirembe" None (Some "Busaana") (Some "Kayunga")).
Proof.
  pose proof (getLocationByCode_sound sampleLocations "D01S02P03V04") as (_ & Habsent & _ & Hxx).
  split; [|split; [exact Hxx|reflexivity]].
  eapply Habsent; [reflexivity|].
  simpl. intros [H|[H|[H|[]]]]; discriminate H.
Defined.

(** ** The tabular parser: quoting *)

Lemma append_cons (c : ascii) (s t : string) : String c s +:+ t = String c (s +:+ t).
Proof. reflexivity. Qed.

Lemma append_empty_l (t : string) : "" +:+ t = t.
Proof. reflexivity. Qed.

Lemma append_empty_r (s : string) : s +:+ "" = s.
Proof. induction s as [|c s IH]; [reflexivity|]. rewrite append_cons, IH. reflexivity. Qed.

Lemma append_assoc (s t u : string) : (s +:+ t) +:+ u = s +:+ (t +:+ u).
Proof.
  induction s as [|c s IH]; [reflexivity|]. rewrite !append_cons, IH. reflexivity.
Qed.

(** Inside quotes, the escaped text of a field and its closing quote are read
    back as the field, whatever it holds, when a separator or nothing follows. *)
Lemma parseCSVLine_loop_quoted (field rest : string) :
  (rest = "" \/ exists rest', rest = String comma rest') ->
  forall values current,
    parseCSVLine_loop (escapeQuotes field +:+ String dquote rest) values current true
    = parseCSVLine_loop rest values (current +:+ field) false.
Proof.
  intros Hrest. induction field as [|c field IH]; intros values current.
  - rewrite append_empty_l, append_empty_r. simpl.
    destruct Hrest as [->|[rest' ->]]; reflexivity.
  - simpl escapeQuotes. destruct (Ascii.eqb c dquote) eqn:Hc.
    + apply Ascii.eqb_eq in Hc. subst c.
      rewrite !append_cons. simpl. rewrite IH, append_assoc. reflexivity.
    + rewrite append_cons. simpl. rewrite Hc, andb_false_r.
      rewrite IH, append_assoc. reflexivity.
Qed.

Lemma parseCSVLine_loop_plain (field rest : string) :
  isPlain field = true ->
  forall values current,
    parseCSVLine_loop (field +:+ rest) values current false
    = parseCSVLine_loop rest values (current +:+ field) false.
Proof.
  induction field as [|c field IH]; intros Hplain values current.
  - rewrite append_empty_l, append_empty_r. reflexivity.
  - simpl in Hplain. apply andb_true_iff in Hplain as [Hc Hplain].
    apply andb_true_iff in Hc as [Hquote Hcomma].
    apply negb_true_iff in Hquote, Hcomma.
    rewrite append_cons. simpl parseCSVLine_loop. rewrite Hquote, Hcomma. cbn [andb].
    rewrite IH by exact Hplain. rewrite append_assoc. reflexivity.
Qed.

(** One written field, up to the comma that ends it or the end of the line. *)
Lemma parseCSVLine_loop_written (item : bool * string) (rest : string) :
  writable item ->
  (rest = "" \/ exists rest', rest = String comma rest') ->
  forall values current,
    parseCSVLine_loop (writeField item.1 item.2 +:+ rest) values current false
    = parseCSVLine_loop rest values (current +:+ item.2) false.
Proof.
  intros Hitem Hrest values current. destruct item as [[|] field]; cbn [fst snd writeField] in *.
  - unfold quoteField, dq.
    rewrite append_cons, append_assoc, append_cons, append_empty_l.
    simpl parseCSVLine_loop.
    apply parseCSVLine_loop_quoted. exact Hrest.
  - apply parseCSVLine_loop_plain. apply Hitem. reflexivity.
Qed.

Lemma parseCSVLine_loop_items (items : list (bool * string)) :
  forall item values,
    Forall writable (item :: items) ->
    parseCSVLine_loop
      (joinWith "," (map (fun item => writeField item.1 item.2) (item :: items))) values "" false
    = values ++ map snd (item :: items).
Proof.
  induction items as [|next items IH]; intros item values Hitems.
  - inversion Hitems as [|? ? Hitem _]; subst.
    cbn [map joinWith]. rewrite <- (append_empty_r (writeField item.1 item.2)).
    rewrite parseCSVLine_loop_written by (auto; left; reflexivity).
    rewrite append_empty_l. reflexivity.
  - inversion Hitems as [|? ? Hitem Hrest]; subst.
    change (joinWith "," (map (fun item => writeField item.1 item.2) (item :: next :: items)))
      with (writeField item.1 item.2 +:+ ","
            +:+ joinWith "," (map (fun item => writeField item.1 item.2) (next :: items))).
    remember (joinWith "," (map (fun item => writeField item.1 item.2) (next :: items)))
      as tail eqn:Htail.
    change ("," +:+ tail) with (String comma tail).
    rewrite parseCSVLine_loop_written by (auto; right; eexists; reflexivity).
    rewrite append_empty_l. simpl parseCSVLine_loop. subst tail.
    rewrite IH by exact Hrest. rewrite <- app_assoc. reflexivity.
Qed.

(** C5: field splitting honours double-quote quoting.  A line is a sequence
    of fields separated by commas, each field either wrapped in double
    quotes (and then it may hold commas and double quotes, the latter written
    doubled) or standing as it is (and then it holds neither); every such
    line, with quoted and unquoted fields mixed in any way, splits back into
    exactly these fields.  So a comma inside quotes does not separate, a
    doubled quote inside quotes is one literal quote, and the quotes that
    wrap a field are not part of it.  Header [name,count] with data line
    ["Bukasa, A","5"] gives the single record
    [{name: "Bukasa, A", count: "5"}]. *)
Theorem parseCSVLine_honours_quotes :
  (forall item items,
     Forall writable (item :: items) ->
     parseCSVLine (joinWith "," (map (fun item => writeField item.1 item.2) (item :: items)))
     = map snd (item :: items)) /\
  (forall field fields,
     parseCSVLine (joinWith "," (map quoteField (field :: fields))) = field :: fields) /\
  parseCSVLine (quoteField "a,b") = ["a,b"] /\
  parseCSVLine (quoteField ("say " +:+ dq +:+ "hi" +:+ dq)) = ["say " +:+ dq +:+ "hi" +:+ dq] /\
  parseCSVLine ("Kayunga," +:+ dq +:+ "Bukasa, A" +:+ dq +:+ ",5,"
                +:+ dq +:+ "say " +:+ dq +:+ dq +:+ "hi" +:+ dq +:+ dq +:+ dq)
  = ["Kayunga"; "Bukasa, A"; "5"; "say " +:+ dq +:+ "hi" +:+ dq] /\
  parseCSV ("name,count" +:+ nl +:+
            dq +:+ "Bukasa, A" +:+ dq +:+ "," +:+ dq +:+ "5" +:+ dq)
  = [ {[ "name" := "Bukasa, A"; "count" := "5" ]} ].
Proof.
  split; [|split; [|split; [|split; [|split]]]].
  - intros item items Hitems. unfold parseCSVLine.
    apply (parseCSVLine_loop_items items item []). exact Hitems.
  - intros field fields. unfold parseCSVLine.
    pose proof (parseCSVLine_loop_items (map (pair true) fields) (true, field) []) as Hsplit.
    change ((true, field) :: map (pair true) fields)
      with (map (pair true) (field :: fields)) in Hsplit.
    rewrite !map_map in Hsplit. cbn [fst snd writeField app] in Hsplit.
    rewrite map_id in Hsplit. apply Hsplit.
    apply Forall_forall. intros item Hin Hplain.
    apply list_elem_of_In, in_map_iff in Hin as (f & <- & _). discriminate Hplain.
  - reflexivity.
  - reflexivity.
  - vm_compute. reflexivity.
  - vm_compute. reflexivity.
Qed.

(** ** The tabular parser: lines *)

Lemma trimEnd_empty_iff (s : string) : trimEnd s = "" <-> allWhite s = true.
Proof.
  induction s as [|c s IH]; simpl; [easy|].
  destruct (trimEnd s) as [|c' s'] eqn:Hs.
  - destruct (isWhiteSpace c); simpl.
    + rewrite <- IH. easy.
    + easy.
  - split; [discriminate|].
    intros Hall. apply andb_true_iff in Hall as [_ Hall].
    apply IH in Hall. discriminate Hall.
Qed.

Lemma trimStart_empty_iff (s : string) : trimStart s = "" <-> allWhite s = true.
Proof.
  induction s as [|c s IH]; simpl; [easy|].
  destruct (isWhiteSpace c); simpl; [exact IH|easy].
Qed.

Lemma allWhite_trimStart (s : string) : allWhite (trimStart s) = allWhite s.
Proof.
  induction s as [|c s IH]; simpl; [reflexivity|].
  destruct (isWhiteSpace c) eqn:Hc; simpl; [exact IH|rewrite Hc; reflexivity].
Qed.

Lemma allWhite_trimEnd (s : string) : allWhite (trimEnd s) = allWhite s.
Proof.
  induction s as [|c s IH]; simpl; [reflexivity|].
  destruct (trimEnd s) as [|c' s'] eqn:Hs.
  - apply trimEnd_empty_iff in Hs. rewrite Hs, andb_true_r.
    destruct (isWhiteSpace c) eqn:Hc; simpl; [reflexivity|rewrite Hc; reflexivity].
  - change (allWhite (String c (String c' s'))) with (isWhiteSpace c && allWhite (String c' s')).
    rewrite IH. reflexivity.
Qed.

Lemma isBlank_allWhite (s : string) : isBlank s = allWhite s.
Proof.
  unfold isBlank, trim.
  destruct (trimEnd (trimStart s)) as [|c r] eqn:Ht.
  - apply trimEnd_empty_iff in Ht. rewrite allWhite_trimStart in Ht. auto.
  - destruct (allWhite s) eqn:Hall; [|reflexivity].
    rewrite <- allWhite_trimStart, <- trimEnd_empty_iff in Hall. congruence.
Qed.

Lemma allWhite_app (s t : string) : allWhite (s +:+ t) = allWhite s && allWhite t.
Proof.
  induction s as [|c s IH]; [reflexivity|].
  rewrite append_cons. simpl. rewrite IH, andb_assoc. reflexivity.
Qed.

Lemma trimStart_app (s t : string) :
  allWhite s = false -> trimStart (s +:+ t) = trimStart s +:+ t.
Proof.
  induction s as [|c s IH]; [discriminate|].
  rewrite append_cons. simpl.
  destruct (isWhiteSpace c); simpl; [exact IH|reflexivity].
Qed.

Lemma trimStart_allWhite_app (p s : string) :
  allWhite p = true -> trimStart (p +:+ s) = trimStart s.
Proof.
  induction p as [|c p IH]; [reflexivity|].
  rewrite append_cons. simpl. destruct (isWhiteSpace c); simpl; [exact IH|discriminate].
Qed.

Lemma trimEnd_app (s t : string) :
  trimEnd (s +:+ t) = if allWhite t then trimEnd s else s +:+ trimEnd t.
Proof.
  induction s as [|c s IH].
  - rewrite !append_empty_l. destruct (allWhite t) eqn:Ht; [|reflexivity].
    apply trimEnd_empty_iff. exact Ht.
  - rewrite append_cons. simpl. rewrite IH.
    destruct (allWhite t) eqn:Ht; [reflexivity|].
    destruct (s +:+ trimEnd t) as [|c' r] eqn:Hr; [|rewrite append_cons, Hr; reflexivity].
    exfalso. destruct s; [|discriminate Hr]. rewrite append_empty_l in Hr.
    apply trimEnd_empty_iff in Hr. congruence.
Qed.

Lemma hasNewline_app (s t : string) : hasNewline (s +:+ t) = hasNewline s || hasNewline t.
Proof.
  induction s as [|c s IH]; [reflexivity|].
  rewrite append_cons. simpl. rewrite IH, orb_assoc. reflexivity.
Qed.

Lemma hasNewline_trimStart (s : string) : hasNewline s = false -> hasNewline (trimStart s) = false.
Proof.
  induction s as [|c s IH]; simpl; [reflexivity|].
  intros Hs. apply orb_false_iff in Hs as [Hc Hs].
  destruct (isWhiteSpace c); simpl; [auto|]. rewrite Hc. exact Hs.
Qed.

Lemma hasNewline_trimEnd (s : string) : hasNewline s = false -> hasNewline (trimEnd s) = false.
Proof.
  induction s as [|c s IH]; simpl; [reflexivity|].
  intros Hs. apply orb_false_iff in Hs as [Hc Hs]. specialize (IH Hs).
  destruct (trimEnd s) as [|c' r].
  - destruct (isWhiteSpace c); simpl; [reflexivity|]. rewrite Hc. reflexivity.
  - change (hasNewline (String c (String c' r))) with (Ascii.eqb c newline || hasNewline (String c' r)).
    rewrite Hc, IH. reflexivity.
Qed.

Lemma splitLines_line (s : string) : hasNewline s = false -> splitLines s = [s].
Proof.
  induction s as [|c s IH]; simpl; [reflexivity|].
  intros Hs. apply orb_false_iff in Hs as [Hc Hs].
  rewrite Hc, (IH Hs). reflexivity.
Qed.

Lemma splitLines_app (s t : string) :
  hasNewline s = false -> splitLines (s +:+ String newline t) = s :: splitLines t.
Proof.
  induction s as [|c s IH]; intros Hs.
  - reflexivity.
  - simpl in Hs. apply orb_false_iff in Hs as [Hc Hs].
    rewrite append_cons. simpl. rewrite Hc, (IH Hs). reflexivity.
Qed.

Lemma splitLines_joinWith (line : string) (lines : list string) :
  Forall (fun l => hasNewline l = false) (line :: lines) ->
  splitLines (joinWith nl (line :: lines)) = line :: lines.
Proof.
  revert line. induction lines as [|next lines IH]; intros line Hlines.
  - apply splitLines_line. inversion Hlines; assumption.
  - change (joinWith nl (line :: next :: lines))
      with (line +:+ nl +:+ joinWith nl (next :: lines)).
    unfold nl at 1. rewrite append_cons, append_empty_l.
    inversion Hlines as [|? ? Hline Hrest]; subst.
    rewrite (splitLines_app _ _ Hline), (IH _ Hrest). reflexivity.
Qed.

Lemma trimEndLines_no_newline (lines : list string) :
  Forall (fun l => hasNewline l = false) lines ->
  Forall (fun l => hasNewline l = false) (trimEndLines lines).
Proof.
  induction 1 as [|line lines Hline _ IH]; simpl; [constructor|].
  destruct (trimEndLines lines) as [|kept0 kept].
  - destruct (isBlank line); constructor; [|constructor].
    apply hasNewline_trimEnd. exact Hline.
  - constructor; assumption.
Qed.

Lemma trimEndLines_empty (lines : list string) :
  trimEndLines lines = [] -> Forall (fun l => isBlank l = true) lines.
Proof.
  induction lines as [|line lines IH]; simpl; [constructor|].
  destruct (trimEndLines lines) as [|kept0 kept]; [|discriminate].
  destruct (isBlank line) eqn:Hblank; [|discriminate].
  intros _. constructor; auto.
Qed.

(** Lines that are kept make a text that is not all white space. *)
Lemma joinWith_trimEndLines_not_white (lines : list string) :
  trimEndLines lines <> [] -> allWhite (joinWith nl (trimEndLines lines)) = false.
Proof.
  induction lines as [|line lines IH]; simpl; [congruence|].
  destruct (trimEndLines lines) as [|kept0 kept].
  - destruct (isBlank line) eqn:Hblank; [congruence|]. intros _. simpl.
    rewrite allWhite_trimEnd, <- isBlank_allWhite. exact Hblank.
  - intros _.
    change (joinWith nl (line :: kept0 :: kept))
      with (line +:+ nl +:+ joinWith nl (kept0 :: kept)).
    rewrite !allWhite_app, IH by discriminate. rewrite !andb_false_r. reflexivity.
Qed.

Lemma trimEnd_joinWith (lines : list string) :
  trimEnd (joinWith nl lines) = joinWith nl (trimEndLines lines).
Proof.
  induction lines as [|line lines IH]; [reflexivity|].
  destruct lines as [|next lines].
  - simpl. rewrite isBlank_allWhite.
    destruct (allWhite line) eqn:Hline; [|reflexivity].
    apply trimEnd_empty_iff. exact Hline.
  - change (joinWith nl (line :: next :: lines))
      with (line +:+ nl +:+ joinWith nl (next :: lines)).
    rewrite trimEnd_app.
    change (trimEndLines (line :: next :: lines))
      with (match trimEndLines (next :: lines) with
            | [] => if isBlank line then [] else [trimEnd line]
            | kept => line :: kept
            end).
    destruct (trimEndLines (next :: lines)) as [|kept0 kept] eqn:Hkept.
    + change (joinWith nl []) with "" in IH. apply trimEnd_empty_iff in IH.
      rewrite allWhite_app, IH. change (allWhite nl && true) with true. cbv iota.
      rewrite isBlank_allWhite.
      destruct (allWhite line) eqn:Hline; [|reflexivity].
      apply trimEnd_empty_iff. exact Hline.
    + assert (allWhite (joinWith nl (next :: lines)) = false) as Hnot.
      { rewrite <- allWhite_trimEnd, IH. rewrite <- Hkept.
        apply joinWith_trimEndLines_not_white. rewrite Hkept. discriminate. }
      rewrite allWhite_app, Hnot, andb_false_r.
      rewrite trimEnd_app, Hnot, IH. reflexivity.
Qed.

Lemma isBlank_trimEnd (line : string) : isBlank (trimEnd line) = isBlank line.
Proof. rewrite !isBlank_allWhite. apply allWhite_trimEnd. Qed.

Lemma trimEndLines_nonblank (lines : list string) :
  length (List.filter (fun l => negb (isBlank l)) (trimEndLines lines))
  = length (List.filter (fun l => negb (isBlank l)) lines).
Proof.
  induction lines as [|line lines IH]; [reflexivity|].
  simpl trimEndLines. destruct (trimEndLines lines) as [|kept0 kept].
  - simpl in IH. simpl. destruct (isBlank line) eqn:Hblank; simpl.
    + exact IH.
    + rewrite isBlank_trimEnd, Hblank. simpl. rewrite <- IH. reflexivity.
  - simpl List.filter at 2. simpl List.filter at 1.
    destruct (negb (isBlank line)); simpl; rewrite <- IH; reflexivity.
Qed.

Lemma parseRows_length (headers : list string) (lines : list string) :
  length (parseRows headers lines)
  = length (List.filter (fun l => negb (isBlank l)) lines).
Proof.
  induction lines as [|line lines IH]; [reflexivity|].
  simpl. unfold isBlank. destruct (trim line); simpl; rewrite IH; reflexivity.
Qed.

(** The keys that the header loop adds to a row: every trimmed header
    entry except ["__proto__"], which [setProperty] leaves out. *)
Lemma fillRow_dom (headers : list string) :
  forall index values (row : gmap string string),
    dom (fillRow headers index values row)
    = dom row ∪ (list_to_set (map trim headers) ∖ {["__proto__"]}).
Proof.
  induction headers as [|header headers IH]; intros index values row.
  - cbn [fillRow map list_to_set]. apply set_eq. intros key.
    rewrite elem_of_union, elem_of_difference, elem_of_empty. tauto.
  - cbn [fillRow map list_to_set]. rewrite IH. apply set_eq. intros key.
    unfold setProperty. destruct (decide (trim header = "__proto__")) as [Heq|Hne].
    + rewrite !elem_of_union, !elem_of_difference, elem_of_union, !elem_of_singleton, Heq.
      tauto.
    + rewrite dom_insert_L.
      rewrite !elem_of_union, !elem_of_difference, elem_of_union, !elem_of_singleton.
      split; [|tauto]. intros [[->|Hrow]|Hrest]; tauto.
Qed.

Lemma parseRows_dom (headers : list string) (lines : list string) :
  Forall (fun row : gmap string string =>
            dom row = list_to_set (map trim headers) ∖ {["__proto__"]})
    (parseRows headers lines).
Proof.
  induction lines as [|line lines IH]; simpl; [constructor|].
  destruct (trim line); [exact IH|].
  constructor; [|exact IH].
  rewrite fillRow_dom. rewrite dom_empty_L, union_empty_l_L. reflexivity.
Qed.

(** Induction for a loop that reads one character and looks at the next. *)
Lemma string_lookahead_ind (P : string -> Prop) :
  P "" ->
  (forall c rest, P rest -> (forall n rest', rest = String n rest' -> P rest') ->
                  P (String c rest)) ->
  forall s, P s.
Proof.
  intros Hempty Hstep s.
  enough (P s /\ forall n rest', s = String n rest' -> P rest') as [Hs _] by exact Hs.
  induction s as [|c s [IHs IHtail]].
  - split; [exact Hempty|discriminate].
  - split; [apply Hstep; assumption|]. intros n rest' [= _ <-]. exact IHs.
Qed.

Lemma parseCSVLine_loop_values (line : string) :
  forall values current inQuotes,
    parseCSVLine_loop line values current inQuotes
    = values ++ parseCSVLine_loop line [] current inQuotes.
Proof.
  induction line as [|c rest IHrest IHnext] using string_lookahead_ind;
    intros values current inQuotes.
  - reflexivity.
  - simpl. destruct (Ascii.eqb c dquote).
    + destruct inQuotes; [|apply IHrest].
      destruct rest as [|n rest']; [apply IHrest|].
      destruct (Ascii.eqb n dquote); [|apply IHrest].
      apply (IHnext n rest' eq_refl).
    + destruct (Ascii.eqb c comma && negb inQuotes); [|apply IHrest].
      rewrite IHrest, (IHrest ([] ++ [current])), app_assoc. reflexivity.
Qed.

Lemma trim_allWhite_app (p s : string) : allWhite p = true -> trim (p +:+ s) = trim s.
Proof. intros Hp. unfold trim. rewrite trimStart_allWhite_app by exact Hp. reflexivity. Qed.

(** White space in front of the field being read does not show after [trim]. *)
Lemma parseCSVLine_loop_prefix (p : string) (line : string) :
  allWhite p = true ->
  forall current inQuotes,
    map trim (parseCSVLine_loop line [] (p +:+ current) inQuotes)
    = map trim (parseCSVLine_loop line [] current inQuotes).
Proof.
  intros Hp.
  induction line as [|c rest IHrest IHnext] using string_lookahead_ind;
    intros current inQuotes.
  - simpl. rewrite trim_allWhite_app by exact Hp. reflexivity.
  - simpl. destruct (Ascii.eqb c dquote).
    + destruct inQuotes; [|apply IHrest].
      destruct rest as [|n rest']; [apply IHrest|].
      destruct (Ascii.eqb n dquote); [|apply IHrest].
      rewrite append_assoc. apply (IHnext n rest' eq_refl).
    + destruct (Ascii.eqb c comma && negb inQuotes).
      * rewrite (parseCSVLine_loop_values rest [p +:+ current]),
          (parseCSVLine_loop_values rest [current]).
        simpl. rewrite trim_allWhite_app by exact Hp. reflexivity.
      * rewrite append_assoc. apply IHrest.
Qed.

Lemma isWhiteSpace_plain (c : ascii) :
  isWhiteSpace c = true -> Ascii.eqb c dquote = false /\ Ascii.eqb c comma = false.
Proof.
  intros Hc. split.
  - destruct (Ascii.eqb_spec c dquote) as [->|_]; [discriminate Hc|reflexivity].
  - destruct (Ascii.eqb_spec c comma) as [->|_]; [discriminate Hc|reflexivity].
Qed.

Lemma parseCSVLine_loop_trimStart (line : string) :
  forall current, allWhite current = true ->
  exists current', allWhite current' = true /\
    parseCSVLine_loop line [] current false
    = parseCSVLine_loop (trimStart line) [] current' false.
Proof.
  induction line as [|c line IH]; intros current Hcurrent.
  - exists current. auto.
  - simpl trimStart. destruct (isWhiteSpace c) eqn:Hc; [|exists current; auto].
    destruct (isWhiteSpace_plain c Hc) as [Hquote Hcomma].
    destruct (IH (current +:+ String c "")) as (current' & Hwhite & Heq).
    { rewrite allWhite_app, Hcurrent. simpl. rewrite Hc. reflexivity. }
    exists current'. split; [exact Hwhite|].
    rewrite <- Heq. simpl. rewrite Hquote, Hcomma. reflexivity.
Qed.

(** The trimmed entries of a header do not depend on white space before it. *)
Lemma parseCSVLine_trimStart (line : string) :
  map trim (parseCSVLine (trimStart line)) = map trim (parseCSVLine line).
Proof.
  unfold parseCSVLine.
  destruct (parseCSVLine_loop_trimStart line "" eq_refl) as (current' & Hwhite & ->).
  rewrite <- (append_empty_r current') at 1.
  symmetry. apply parseCSVLine_loop_prefix. exact Hwhite.
Qed.

(** A tabular input whose first line is a header [H] (one line, not blank),
    followed by data lines of which [N] are not blank, parses into exactly [N]
    records (a blank line gives no record), and the keys of every record are
    exactly the trimmed entries of [H] other than ["__proto__"]: a column of
    that name never becomes a key. *)
Theorem parseCSV_records (header : string) (dataLines : list string) :
  wellFormedHeader header ->
  Forall (fun line => hasNewline line = false) dataLines ->
  length (parseCSV (joinWith nl (header :: dataLines)))
  = length (List.filter (fun line => negb (isBlank line)) dataLines) /\
  Forall (fun row : gmap string string => dom row = headerKeys header ∖ {["__proto__"]})
    (parseCSV (joinWith nl (header :: dataLines))).
Proof.
  intros (Hline & Hblank) Hlines.
  rewrite isBlank_allWhite in Hblank.
  assert (trimStart (joinWith nl (header :: dataLines))
          = joinWith nl (trimStart header :: dataLines)) as Hstart.
  { destruct dataLines as [|line lines]; [reflexivity|].
    change (joinWith nl (header :: line :: lines))
      with (header +:+ nl +:+ joinWith nl (line :: lines)).
    rewrite trimStart_app by exact Hblank. reflexivity. }
  unfold parseCSV, trim. rewrite Hstart, trimEnd_joinWith.
  set (first := trimStart header) in *.
  assert (isBlank first = false) as Hfirst.
  { rewrite isBlank_allWhite. unfold first. rewrite allWhite_trimStart. exact Hblank. }
  assert (hasNewline first = false) as Hfirstline by (apply hasNewline_trimStart; exact Hline).
  pose proof (trimEndLines_no_newline _ Hlines) as Hkept.
  pose proof (trimEndLines_nonblank dataLines) as Hcount.
  simpl trimEndLines. rewrite Hfirst.
  destruct (trimEndLines dataLines) as [|kept0 kept].
  - rewrite splitLines_joinWith
      by (constructor; [apply hasNewline_trimEnd; exact Hfirstline|constructor]).
    simpl. split; [exact Hcount|constructor].
  - rewrite splitLines_joinWith by (constructor; assumption).
    split.
    + rewrite parseRows_length. exact Hcount.
    + unfold headerKeys. rewrite <- (parseCSVLine_trimStart header).
      apply parseRows_dom.
Qed.

(** C4 at the input on which the code departs from it.  The header
    [__proto__,name] is one line, not blank, with the two entries
    [__proto__] and [name], and one data line that is not blank follows it.
    [parseCSV] returns one record, but its only key is [name]: the assignment
    [row['__proto__'] = 'x'] reaches the inherited setter, which ignores a
    string, so the keys of the record are not the trimmed entries of the
    header. *)
Theorem parseCSV_loses_proto_column :
  wellFormedHeader "__proto__,name" /\
  map trim (parseCSVLine "__proto__,name") = ["__proto__"; "name"] /\
  parseCSV ("__proto__,name" +:+ nl +:+ "x,Bukasa") = [ {[ "name" := "Bukasa" ]} ] /\
  Forall (fun row : gmap string string =>
            row !! "__proto__" = None /\
            "__proto__" ∈ headerKeys "__proto__,name" /\
            dom row <> headerKeys "__proto__,name")
    (parseCSV ("__proto__,name" +:+ nl +:+ "x,Bukasa")).
Proof.
  assert (parseCSV ("__proto__,name" +:+ nl +:+ "x,Bukasa") = [ {[ "name" := "Bukasa" ]} ])
    as Hrows by (vm_compute; reflexivity).
  assert ("__proto__" ∈ headerKeys "__proto__,name") as Hkey.
  { unfold headerKeys. apply elem_of_list_to_set, list_elem_of_In. vm_compute. auto. }
  split; [split; reflexivity|]. split; [reflexivity|]. split; [exact Hrows|].
  rewrite Hrows. constructor; [|constructor].
  split; [reflexivity|]. split; [exact Hkey|].
  intros Hdom. rewrite <- Hdom in Hkey. apply elem_of_dom in Hkey as [value Hvalue].
  discriminate Hvalue.
Qed.

(** ** Subcounty breakdown *)

Section MapFacts.
Context {V : Type}.
Implicit Types (m : list (string * V)) (key : string).

Lemma mapHas_spec key m : mapHas key m = true <-> In key (map fst m).
Proof.
  unfold mapHas. rewrite existsb_exists, in_map_iff. split.
  - intros ([k v] & Hin & Heq). apply String.eqb_eq in Heq. exists (k, v). auto.
  - intros ([k v] & Heq & Hin). exists (k, v). split; [exact Hin|].
    apply String.eqb_eq. exact Heq.
Qed.

Lemma mapSet_fresh key (value : V) m :
  ~ In key (map fst m) -> mapSet key value m = m ++ [(key, value)].
Proof.
  induction m as [|[k v] m IH]; simpl; [reflexivity|].
  intros Hfresh. destruct (String.eqb_spec k key) as [->|_]; [tauto|].
  rewrite IH by tauto. reflexivity.
Qed.

Lemma mapUpdate_keys key (update : V -> V) m :
  map fst (mapUpdate key update m) = map fst m.
Proof.
  induction m as [|[k v] m IH]; simpl; [reflexivity|].
  destruct (String.eqb k key); simpl; [reflexivity|]. rewrite IH. reflexivity.
Qed.

(** With distinct keys, [mapUpdate] changes the value under [key] and no other. *)
Lemma mapUpdate_In key (update : V -> V) m k' v' :
  NoDup (map fst m) ->
  In (k', v') (mapUpdate key update m) ->
  (k' <> key /\ In (k', v') m) \/ (k' = key /\ exists v, In (key, v) m /\ v' = update v).
Proof.
  induction m as [|[k v] m IH]; simpl; [tauto|].
  intros Hnodup. apply NoDup_cons in Hnodup as [Hk Hnodup].
  destruct (String.eqb_spec k key) as [->|Hne]; simpl.
  - intros [[= <- <-]|Hin].
    + right. split; [reflexivity|]. exists v. auto.
    + left. split; [|auto]. intros ->. apply Hk.
      apply list_elem_of_In, in_map_iff. exists (key, v'). auto.
  - intros [[= <- <-]|Hin].
    + left. auto.
    + destruct (IH Hnodup Hin) as [[? ?]|(? & v0 & ? & ?)]; [left; auto|].
      right. split; [assumption|]. exists v0. auto.
Qed.

Lemma mapUpdate_sum (size : V -> nat) key (update : V -> V) m :
  (forall v, size (update v) = S (size v)) ->
  In key (map fst m) ->
  sum_list_with (fun kv => size kv.2) (mapUpdate key update m)
  = S (sum_list_with (fun kv => size kv.2) m).
Proof.
  intros Hgrow. induction m as [|[k v] m IH]; simpl; [tauto|].
  intros Hin. destruct (String.eqb_spec k key) as [->|Hne]; simpl.
  - rewrite Hgrow. reflexivity.
  - rewrite IH by (destruct Hin; [contradiction|assumption]). lia.
Qed.

End MapFacts.

Lemma grouped_step subcountyMap seen facility :
  grouped subcountyMap seen ->
  grouped (groupStep subcountyMap facility) (seen ++ [facility]).
Proof.
  intros (Hnodup & Hgroups & Hkeys & Hsum).
  unfold groupStep.
  set (label := subcountyOf facility).
  set (opened := if mapHas label subcountyMap then subcountyMap
                 else mapSet label (SubcountyGroup.mk label []) subcountyMap).
  assert (NoDup (map fst opened) /\
          In label (map fst opened) /\
          (forall key, In key (map fst opened) <-> key = label \/ In key (map fst subcountyMap)) /\
          (forall key group, In (key, group) opened ->
             SubcountyGroup.name group = key /\
             SubcountyGroup.facilities group
               = List.filter (fun f => String.eqb (subcountyOf f) key) seen) /\
          sum_list_with (fun kv => length (SubcountyGroup.facilities kv.2)) opened
          = length seen) as (Hnodup' & Hlabel & Hkeys' & Hgroups' & Hsum').
  { unfold opened. destruct (mapHas label subcountyMap) eqn:Hhas.
    - apply mapHas_spec in Hhas. repeat split; try assumption.
      + tauto.
      + intros [->|?]; assumption.
      + apply Hgroups; assumption.
      + apply Hgroups; assumption.
    - assert (~ In label (map fst subcountyMap)) as Hfresh.
      { rewrite <- mapHas_spec, Hhas. discriminate. }
      rewrite (mapSet_fresh _ _ _ Hfresh), map_app. simpl.
      split; [|split; [|split; [|split]]].
      + apply NoDup_app. split; [exact Hnodup|]. split; [|apply NoDup_singleton].
        intros key Hin Hin'. apply list_elem_of_In in Hin, Hin'.
        destruct Hin' as [->|[]]. contradiction.
      + rewrite in_app_iff. right. left. reflexivity.
      + intros key. rewrite in_app_iff. simpl. intuition congruence.
      + intros key group Hin. apply in_app_iff in Hin as [Hin|[[= <- <-]|[]]].
        * apply Hgroups. exact Hin.
        * simpl. split; [reflexivity|].
          destruct (List.filter _ seen) as [|f fs] eqn:Hf; [reflexivity|].
          exfalso. apply Hfresh. apply Hkeys. exists f.
          assert (In f (List.filter (fun f0 => String.eqb (subcountyOf f0) label) seen))
            as Hinf by (rewrite Hf; left; reflexivity).
          apply filter_In in Hinf as [Hinf Heq]. apply String.eqb_eq in Heq. auto.
      + rewrite sum_list_with_app. simpl. lia. }
  clearbody opened.
  split; [|split; [|split]].
  - rewrite mapUpdate_keys. exact Hnodup'.
  - intros key group Hin.
    rewrite List.filter_app. simpl.
    destruct (mapUpdate_In _ _ _ _ _ Hnodup' Hin)
      as [[Hne Hin']|(-> & old & Hin' & ->)].
    + destruct (Hgroups' _ _ Hin') as [Hname Hfacilities].
      split; [exact Hname|]. rewrite Hfacilities.
      fold label. destruct (String.eqb_spec label key) as [Heq|_]; [congruence|].
      rewrite app_nil_r. reflexivity.
    + destruct (Hgroups' _ _ Hin') as [Hname Hfacilities]. simpl.
      split; [exact Hname|]. rewrite Hfacilities.
      fold label. rewrite String.eqb_refl. reflexivity.
  - intros key. rewrite mapUpdate_keys, Hkeys', Hkeys. split.
    + intros [->|(f & Hin & Heq)].
      * exists facility. rewrite in_app_iff. simpl. auto.
      * exists f. rewrite in_app_iff. auto.
    + intros (f & Hin & Heq). apply in_app_iff in Hin as [Hin|[<-|[]]].
      * right. exists f. auto.
      * left. symmetry. exact Heq.
  - rewrite (mapUpdate_sum (fun g => length (SubcountyGroup.facilities g))).
    + rewrite Hsum', length_app. simpl. lia.
    + intros g. simpl. rewrite length_app. simpl. lia.
    + exact Hlabel.
Qed.

Lemma grouped_fold facilities :
  forall subcountyMap seen,
    grouped subcountyMap seen ->
    grouped (fold_left groupStep facilities subcountyMap) (seen ++ facilities).
Proof.
  induction facilities as [|facility facilities IH]; intros subcountyMap seen Hgrouped; simpl.
  - rewrite app_nil_r. exact Hgrouped.
  - replace (seen ++ facility :: facilities) with ((seen ++ [facility]) ++ facilities)
      by (rewrite <- app_assoc; reflexivity).
    apply IH, grouped_step, Hgrouped.
Qed.

Lemma grouped_empty : grouped [] [].
Proof.
  split; [constructor|]. split; [intros ? ? []|]. split; [|reflexivity].
  intros key. split; [intros []|intros (f & [] & _)].
Qed.

Section SortFacts.
Context {A : Type} (compare : A -> A -> Z).

Lemma insertBy_Permutation (x : A) (l : list A) : Permutation (insertBy compare x l) (x :: l).
Proof.
  induction l as [|y l IH]; simpl; [reflexivity|].
  destruct (0 <? compare x y)%Z; [|reflexivity].
  rewrite IH. apply perm_swap.
Qed.

Lemma sortBy_Permutation (l : list A) : Permutation (sortBy compare l) l.
Proof.
  induction l as [|x l IH]; simpl; [reflexivity|].
  rewrite insertBy_Permutation, IH. reflexivity.
Qed.

Hypothesis compare_total : forall x y, (0 < compare x y)%Z -> (compare y x <= 0)%Z.

Lemma insertBy_Sorted (x : A) (l : list A) :
  Sorted (mayPrecede compare) l -> Sorted (mayPrecede compare) (insertBy compare x l).
Proof.
  induction 1 as [|y l Hsorted IH Hhd]; simpl.
  - constructor; constructor.
  - destruct (Z.ltb_spec 0 (compare x y)) as [Hlt|Hge].
    + constructor; [exact IH|].
      destruct Hhd as [|z l Hyz]; simpl.
      * constructor. apply compare_total. exact Hlt.
      * destruct (0 <? compare x z)%Z; constructor; [exact Hyz|].
        apply compare_total. exact Hlt.
    + constructor; [constructor; assumption|]. constructor. exact Hge.
Qed.

Lemma sortBy_Sorted (l : list A) : Sorted (mayPrecede compare) (sortBy compare l).
Proof.
  induction l as [|x l IH]; simpl; [constructor|].
  apply insertBy_Sorted. exact IH.
Qed.

End SortFacts.

Lemma subcountyOf_default (facility : gmap string string) :
  truthy (facility !! "subcounty") = false ->
  truthy (facility !! "Subcounty") = false ->
  truthy (facility !! "sub_county") = false ->
  subcountyOf facility = "Unknown".
Proof.
  unfold subcountyOf, orElse. intros -> -> Hlast.
  destruct (facility !! "sub_county") as [[|c r]|]; [reflexivity|discriminate|reflexivity].
Qed.

Section BreakdownFacts.
Context `{NumberBuiltins}.

Lemma breakdownEntry_location sc :
  BreakdownEntry.location (breakdownEntry sc) = SubcountyGroup.name sc.
Proof. reflexivity. Qed.

Lemma breakdownEntry_count sc :
  BreakdownEntry.facilityCount (breakdownEntry sc) = length (SubcountyGroup.facilities sc).
Proof. reflexivity. Qed.

(** The label of a record is the first truthy one of its [subcounty],
    [Subcounty] and [sub_county], else ['Unknown']. *)
Lemma subcountyOf_chain (facility : gmap string string) :
  subcountyOf facility
  = firstTruthy [facility !! "subcounty"; facility !! "Subcounty"; facility !! "sub_county"]
      "Unknown".
Proof.
  unfold subcountyOf, orDefault, orElse, truthy. cbn [firstTruthy].
  destruct (facility !! "subcounty") as [[|c1 r1]|];
    destruct (facility !! "Subcounty") as [[|c2 r2]|];
    destruct (facility !! "sub_county") as [[|c3 r3]|]; reflexivity.
Qed.

(** The breakdown in terms of the grouping loop: one entry per label that
    the loop resolved, with the records of that label, in descending order
    of size. *)
Lemma getSubcountyBreakdown_grouped facilities metric :
  let breakdown := getSubcountyBreakdown facilities metric in
  NoDup (map BreakdownEntry.location breakdown) /\
  (forall label, In label (map BreakdownEntry.location breakdown)
                 <-> exists facility, In facility facilities /\ subcountyOf facility = label) /\
  Forall (fun entry =>
            BreakdownEntry.facilityCount entry
            = length (List.filter
                        (fun facility =>
                           String.eqb (subcountyOf facility) (BreakdownEntry.location entry))
                        facilities)) breakdown /\
  sum_list_with BreakdownEntry.facilityCount breakdown = length facilities /\
  StronglySorted
    (fun a b => BreakdownEntry.facilityCount b <= BreakdownEntry.facilityCount a) breakdown.
Proof.
  intros breakdown.
  pose proof (grouped_fold facilities [] [] grouped_empty) as Hgrouped.
  rewrite app_nil_l in Hgrouped.
  destruct Hgrouped as (Hnodup & Hgroups & Hkeys & Hsum).
  set (subcountyMap := fold_left groupStep facilities []) in *.
  set (entries := map (fun kv => breakdownEntry kv.2) subcountyMap).
  assert (Permutation breakdown entries) as Hperm by apply sortBy_Permutation.
  assert (map BreakdownEntry.location entries = map fst subcountyMap) as Hlocations.
  { unfold entries. rewrite map_map. apply map_ext_in.
    intros [key group] Hin. simpl. apply Hgroups. exact Hin. }
  assert (Forall (fun entry =>
            BreakdownEntry.facilityCount entry
            = length (List.filter
                        (fun facility =>
                           String.eqb (subcountyOf facility) (BreakdownEntry.location entry))
                        facilities)) entries) as Hcounts.
  { unfold entries. apply Forall_forall. intros entry Hin.
    apply list_elem_of_In, in_map_iff in Hin as ([key group] & <- & Hin).
    simpl. destruct (Hgroups _ _ Hin) as [-> ->]. reflexivity. }
  split; [|split; [|split; [|split]]].
  - rewrite Hperm, Hlocations. exact Hnodup.
  - intros label. rewrite <- Hkeys, <- Hlocations.
    split; apply Permutation_in; [|symmetry]; apply Permutation_map; exact Hperm.
  - rewrite Hperm. exact Hcounts.
  - rewrite Hperm. unfold entries.
    rewrite <- Hsum. clear. induction subcountyMap as [|kv m IH]; simpl; [reflexivity|].
    rewrite IH. reflexivity.
  - apply Sorted_StronglySorted.
    + intros a b c Hab Hbc. lia.
    + unfold breakdown, getSubcountyBreakdown.
      eapply Sorted_ind with (P := fun l =>
        Sorted (fun a b => BreakdownEntry.facilityCount b <= BreakdownEntry.facilityCount a) l);
        [constructor| |apply (sortBy_Sorted compareEntries)].
      * intros a l _ IH Hhd. constructor; [exact IH|].
        destruct Hhd as [|b l Hab]; constructor.
        unfold mayPrecede, compareEntries in Hab. lia.
      * intros x y. unfold compareEntries. lia.
Qed.

(** C8: the subcounty breakdown has exactly one entry per distinct resolved
    subcounty label of the input, where the label of a record is its
    [subcounty], else its [Subcounty], else its [sub_county] (the first that is
    present and not empty), else ['Unknown']; the [facilityCount] of an entry
    is the number of input records with its label; the counts add up to the
    length of the input; and the entries are in descending order of
    [facilityCount].  On the three schools of the worked example the
    breakdown is Busaana with 2, then Kayunga Town Council with 1; on records
    that name their subcounty in different columns, or in none, it is
    Kayonza with 3, then Busaana and Unknown with 1 each. *)
Theorem getSubcountyBreakdown_ranked facilities metric :
  let label := fun facility : gmap string string =>
    firstTruthy [facility !! "subcounty"; facility !! "Subcounty"; facility !! "sub_county"]
      "Unknown" in
  let breakdown := getSubcountyBreakdown facilities metric in
  NoDup (map BreakdownEntry.location breakdown) /\
  (forall name, In name (map BreakdownEntry.location breakdown)
                <-> exists facility, In facility facilities /\ label facility = name) /\
  Forall (fun entry =>
            BreakdownEntry.facilityCount entry
            = length (List.filter
                        (fun facility =>
                           String.eqb (label facility) (BreakdownEntry.location entry))
                        facilities)) breakdown /\
  sum_list_with BreakdownEntry.facilityCount breakdown = length facilities /\
  StronglySorted
    (fun a b => BreakdownEntry.facilityCount b <= BreakdownEntry.facilityCount a) breakdown /\
  (forall facility,
     truthy (facility !! "subcounty") = false ->
     truthy (facility !! "Subcounty") = false ->
     truthy (facility !! "sub_county") = false ->
     In facility facilities ->
     In "Unknown" (map BreakdownEntry.location breakdown)) /\
  map (fun entry => (BreakdownEntry.location entry, BreakdownEntry.facilityCount entry))
    (getSubcountyBreakdown sampleSchools metric)
  = [("Busaana", 2); ("Kayunga Town Council", 1)] /\
  map (fun entry => (BreakdownEntry.location entry, BreakdownEntry.facilityCount entry))
    (getSubcountyBreakdown mixedColumns metric)
  = [("Kayonza", 3); ("Busaana", 1); ("Unknown", 1)].
Proof.
  intros label breakdown.
  assert (forall facility, subcountyOf facility = label facility) as Hlabel
    by exact subcountyOf_chain.
  destruct (getSubcountyBreakdown_grouped facilities metric)
    as (Hnodup & Hnames & Hcounts & Hsum & Hsorted).
  fold breakdown in Hnodup, Hnames, Hcounts, Hsum, Hsorted.
  assert (forall name, In name (map BreakdownEntry.location breakdown)
                       <-> exists facility, In facility facilities /\ label facility = name)
    as Hnames'.
  { intros name. rewrite Hnames. split; intros (facility & Hin & Hname);
      exists facility; (split; [exact Hin|]); [rewrite <- Hlabel|rewrite Hlabel]; exact Hname. }
  split; [exact Hnodup|]. split; [exact Hnames'|]. split.
  { eapply Forall_impl; [exact Hcounts|]. intros entry Hcount. cbn beta in *.
    rewrite Hcount. f_equal. apply List.filter_ext. intros facility.
    rewrite Hlabel. reflexivity. }
  split; [exact Hsum|]. split; [exact Hsorted|]. split.
  { intros facility Hlower Hupper Hunder Hin. apply Hnames'. exists facility.
    split; [exact Hin|]. rewrite <- Hlabel. apply subcountyOf_default; assumption. }
  split; vm_compute; reflexivity.
Qed.

End BreakdownFacts.

(** ** Worked examples *)

(** No facilities in either category, and schools without teachers. *)
Lemma calculateMetrics_guards_division_witness :
  noPercentages (@calculateMetrics referenceBuiltins [] noLocation "health") /\
  noPercentages (@calculateMetrics referenceBuiltins [] noLocation "education") /\
  Education.pupilTeacherRatio
    (Education.ratios (@calculateEducationMetrics referenceBuiltins unstaffedSchools noLocation))
  = None.
Proof.
  split; [|split].
  - apply (@calculateMetrics_guards_division referenceBuiltins [] noLocation "health").
    reflexivity.
  - apply (@calculateMetrics_guards_division referenceBuiltins [] noLocation "education").
    reflexivity.
  - pose proof (@calculateMetrics_guards_division referenceBuiltins unstaffedSchools
                  noLocation "education") as [_ Hratios].
    destruct Hratios as [Hteachers _]. apply Hteachers. reflexivity.
Defined.

Lemma calculateMetrics_unknown_category_witness :
  @calculateMetrics referenceBuiltins sampleSchools noLocation "transport" = EmptyAggregate.
Proof.
  apply (@calculateMetrics_unknown_category referenceBuiltins); discriminate.
Defined.

Lemma no_teachers_no_ratio_no_gap_witness :
  Education.pupilTeacherRatio
    (Education.ratios (@calculateEducationMetrics referenceBuiltins unstaffedSchools noLocation))
  = None /\
  Forall (fun gap => Gap.type gap <> "pupil_teacher_ratio")
    (Education.gaps (@calculateEducationMetrics referenceBuiltins unstaffedSchools noLocation)).
Proof.
  apply (@no_teachers_no_ratio_no_gap referenceBuiltins unstaffedSchools noLocation).
  repeat constructor.
Defined.

(** A header with padded names, two records, and blank lines between and after. *)
Lemma parseCSV_records_witness :
  length (parseCSV (joinWith nl [" name , count"; "Bukasa,5"; "   "; ""; "Busaana,7"; ""]))
  = 2 /\
  Forall (fun row : gmap string string => dom row = {[ "name"; "count" ]})
    (parseCSV (joinWith nl [" name , count"; "Bukasa,5"; "   "; ""; "Busaana,7"; ""])).
Proof.
  destruct (parseCSV_records " name , count" ["Bukasa,5"; "   "; ""; "Busaana,7"; ""])
    as [Hlength Hkeys].
  - split; reflexivity.
  - repeat constructor.
  - split; [exact Hlength|].
    eapply Forall_impl; [exact Hkeys|]. intros row Hrow. rewrite Hrow.
    vm_compute. reflexivity.
Defined.

(** ** Counters and per-label counts *)

Lemma addCount_comm (v1 v2 : jsValue) (total : option nat) :
  addCount v1 (addCount v2 total) = addCount v2 (addCount v1 total).
Proof.
  destruct v1 as [n1|s1], v2 as [n2|s2], total as [t|]; simpl; try reflexivity.
  f_equal. lia.
Qed.

Lemma inheritedText_proto (key : string) : inheritedText key = None -> key <> "__proto__".
Proof. intros Hnone ->. discriminate Hnone. Qed.

(** Counting a label that is not an inherited property name adds one. *)
Lemma labelTotal_increment (key : string) (obj : gmap string jsValue) (total : nat) :
  inheritedText key = None ->
  labelTotal obj = Some total ->
  labelTotal (increment key obj) = Some (S total).
Proof.
  intros Hown Htotal. unfold increment, setProperty, nextCount.
  destruct (decide (key = "__proto__")) as [Hproto|_];
    [exfalso; exact (inheritedText_proto key Hown Hproto)|].
  rewrite Hown. unfold labelTotal in *.
  destruct (obj !! key) as [[n|s]|] eqn:Hkey.
  - rewrite (map_fold_delete_L _ _ key (JNumber n) obj) in Htotal;
      [|intros; apply addCount_comm|exact Hkey].
    rewrite <- insert_delete_eq.
    rewrite map_fold_insert_L;
      [|intros; apply addCount_comm|apply lookup_delete_eq].
    destruct (map_fold _ _ (delete key obj)) as [rest|]; [|discriminate Htotal].
    simpl in *. injection Htotal as <-. f_equal. lia.
  - rewrite (map_fold_delete_L _ _ key (JString s) obj) in Htotal;
      [|intros; apply addCount_comm|exact Hkey].
    discriminate Htotal.
  - rewrite map_fold_insert_L; [|intros; apply addCount_comm|exact Hkey].
    rewrite Htotal. reflexivity.
Qed.

Lemma countIf_le (c : bool) (n bound : nat) : n <= bound -> countIf c n <= S bound.
Proof. unfold countIf. destruct c; lia. Qed.

Section CounterFacts.
Context `{NumberBuiltins}.

Lemma educationFold_counters facilities :
  forall metrics bound,
    Education.withElectricity (Education.infrastructure metrics) <= bound ->
    Education.withWater (Education.infrastructure metrics) <= bound ->
    Education.withICTLab (Education.infrastructure metrics) <= bound ->
    Education.withLibrary (Education.infrastructure metrics) <= bound ->
    let infra := Education.infrastructure (fold_left educationStep facilities metrics) in
    Education.withElectricity infra <= bound + length facilities /\
    Education.withWater infra <= bound + length facilities /\
    Education.withICTLab infra <= bound + length facilities /\
    Education.withLibrary infra <= bound + length facilities.
Proof.
  induction facilities as [|facility facilities IH]; intros metrics bound He Hw Hi Hl; simpl.
  - lia.
  - replace (bound + S (length facilities)) with (S bound + length facilities) by lia.
    apply IH; simpl; apply countIf_le; assumption.
Qed.

Lemma healthFold_counters facilities :
  forall metrics bound,
    Health.withElectricity (Health.infrastructure metrics) <= bound ->
    Health.withWater (Health.infrastructure metrics) <= bound ->
    Health.withAmbulance (Health.infrastructure metrics) <= bound ->
    Health.withMaternity (Health.infrastructure metrics) <= bound ->
    Health.offeringHIV (Health.services metrics) <= bound ->
    Health.offeringMaternal (Health.services metrics) <= bound ->
    Health.offeringChildHealth (Health.services metrics) <= bound ->
    Health.offeringImmunization (Health.services metrics) <= bound ->
    let infra := Health.infrastructure (fold_left healthStep facilities metrics) in
    let serv := Health.services (fold_left healthStep facilities metrics) in
    Health.withElectricity infra <= bound + length facilities /\
    Health.withWater infra <= bound + length facilities /\
    Health.withAmbulance infra <= bound + length facilities /\
    Health.withMaternity infra <= bound + length facilities /\
    Health.offeringHIV serv <= bound + length facilities /\
    Health.offeringMaternal serv <= bound + length facilities /\
    Health.offeringChildHealth serv <= bound + length facilities /\
    Health.offeringImmunization serv <= bound + length facilities.
Proof.
  induction facilities as [|facility facilities IH];
    intros metrics bound H1 H2 H3 H4 H5 H6 H7 H8; simpl.
  - lia.
  - replace (bound + S (length facilities)) with (S bound + length facilities) by lia.
    apply IH; simpl; apply countIf_le; assumption.
Qed.

Lemma educationFold_labels facilities :
  forall metrics,
    let metrics' := fold_left educationStep facilities metrics in
    (Forall (fun facility => inheritedText (educationLevelOf facility) = None) facilities ->
     forall total, labelTotal (Education.byLevel metrics) = Some total ->
                   labelTotal (Education.byLevel metrics') = Some (total + length facilities)) /\
    (Forall (fun facility => inheritedText (ownershipOf facility) = None) facilities ->
     forall total, labelTotal (Education.byOwnership metrics) = Some total ->
                   labelTotal (Education.byOwnership metrics') = Some (total + length facilities)).
Proof.
  induction facilities as [|facility facilities IH]; intros metrics; simpl.
  - split; intros _ total ->; f_equal; lia.
  - destruct (IH (educationStep metrics facility)) as [IHlevel IHowner].
    split; intros Hown total Htotal; inversion Hown as [|? ? Hhere Hrest]; subst.
    + replace (total + S (length facilities)) with (S total + length facilities) by lia.
      apply IHlevel; [exact Hrest|]. simpl. apply labelTotal_increment; assumption.
    + replace (total + S (length facilities)) with (S total + length facilities) by lia.
      apply IHowner; [exact Hrest|]. simpl. apply labelTotal_increment; assumption.
Qed.

Lemma healthFold_labels facilities :
  forall metrics,
    let metrics' := fold_left healthStep facilities metrics in
    (Forall (fun facility => inheritedText (healthLevelOf facility) = None) facilities ->
     forall total, labelTotal (Health.byLevel metrics) = Some total ->
                   labelTotal (Health.byLevel metrics') = Some (total + length facilities)) /\
    (Forall (fun facility => inheritedText (ownershipOf facility) = None) facilities ->
     forall total, labelTotal (Health.byOwnership metrics) = Some total ->
                   labelTotal (Health.byOwnership metrics') = Some (total + length facilities)).
Proof.
  induction facilities as [|facility facilities IH]; intros metrics; simpl.
  - split; intros _ total ->; f_equal; lia.
  - destruct (IH (healthStep metrics facility)) as [IHlevel IHowner].
    split; intros Hown total Htotal; inversion Hown as [|? ? Hhere Hrest]; subst.
    + replace (total + S (length facilities)) with (S total + length facilities) by lia.
      apply IHlevel; [exact Hrest|]. simpl. apply labelTotal_increment; assumption.
    + replace (total + S (length facilities)) with (S total + length facilities) by lia.
      apply IHowner; [exact Hrest|]. simpl. apply labelTotal_increment; assumption.
Qed.

End CounterFacts.

Section CountClaims.
Context `{NumberBuiltins}.

(** The education aggregate counts every record once: [totalFacilities] is
    the length of the input, no presence counter exceeds it, and the
    per-label counts of [byLevel] and of [byOwnership] add up to it whenever
    no label is the name of a property inherited from [Object.prototype]. *)
Theorem calculateEducationMetrics_counts facilities location :
  let metrics := calculateEducationMetrics facilities location in
  let infra := Education.infrastructure metrics in
  Education.totalFacilities metrics = length facilities /\
  Education.withElectricity infra <= Education.totalFacilities metrics /\
  Education.withWater infra <= Education.totalFacilities metrics /\
  Education.withICTLab infra <= Education.totalFacilities metrics /\
  Education.withLibrary infra <= Education.totalFacilities metrics /\
  (Forall (fun facility => inheritedText (educationLevelOf facility) = None) facilities ->
   labelTotal (Education.byLevel metrics) = Some (Education.totalFacilities metrics)) /\
  (Forall (fun facility => inheritedText (ownershipOf facility) = None) facilities ->
   labelTotal (Education.byOwnership metrics) = Some (Education.totalFacilities metrics)).
Proof.
  unfold calculateEducationMetrics.
  destruct (educationFold_frame facilities (educationInit facilities)) as (Htotal & _).
  destruct (educationFold_counters facilities (educationInit facilities) 0)
    as (He & Hw & Hi & Hl); try (simpl; lia).
  destruct (educationFold_labels facilities (educationInit facilities)) as [Hlevel Howner].
  set (m := fold_left educationStep facilities (educationInit facilities)) in *.
  simpl in Htotal, He, Hw, Hi, Hl, Hlevel, Howner.
  assert (Education.totalFacilities (educationFinish m) = length facilities) as Hfinish
    by exact Htotal.
  rewrite Hfinish.
  assert (Education.withElectricity (Education.infrastructure (educationFinish m))
            = Education.withElectricity (Education.infrastructure m) /\
          Education.withWater (Education.infrastructure (educationFinish m))
            = Education.withWater (Education.infrastructure m) /\
          Education.withICTLab (Education.infrastructure (educationFinish m))
            = Education.withICTLab (Education.infrastructure m) /\
          Education.withLibrary (Education.infrastructure (educationFinish m))
            = Education.withLibrary (Education.infrastructure m)) as (-> & -> & -> & ->).
  { unfold educationFinish. cbn [Education.infrastructure].
    destruct (0 <? Education.totalFacilities m); repeat split. }
  cbn zeta. repeat split; try assumption.
  - intros Hown. apply (Hlevel Hown 0). reflexivity.
  - intros Hown. apply (Howner Hown 0). reflexivity.
Qed.

(** The health aggregate, likewise. *)
Theorem calculateHealthMetrics_counts facilities location :
  let metrics := calculateHealthMetrics facilities location in
  let infra := Health.infrastructure metrics in
  let serv := Health.services metrics in
  Health.totalFacilities metrics = length facilities /\
  Health.withElectricity infra <= Health.totalFacilities metrics /\
  Health.withWater infra <= Health.totalFacilities metrics /\
  Health.withAmbulance infra <= Health.totalFacilities metrics /\
  Health.withMaternity infra <= Health.totalFacilities metrics /\
  Health.offeringHIV serv <= Health.totalFacilities metrics /\
  Health.offeringMaternal serv <= Health.totalFacilities metrics /\
  Health.offeringChildHealth serv <= Health.totalFacilities metrics /\
  Health.offeringImmunization serv <= Health.totalFacilities metrics /\
  (Forall (fun facility => inheritedText (healthLevelOf facility) = None) facilities ->
   labelTotal (Health.byLevel metrics) = Some (Health.totalFacilities metrics)) /\
  (Forall (fun facility => inheritedText (ownershipOf facility) = None) facilities ->
   labelTotal (Health.byOwnership metrics) = Some (Health.totalFacilities metrics)).
Proof.
  unfold calculateHealthMetrics.
  destruct (healthFold_frame facilities (healthInit facilities)) as (Htotal & _).
  destruct (healthFold_counters facilities (healthInit facilities) 0)
    as (H1 & H2 & H3 & H4 & H5 & H6 & H7 & H8); try (simpl; lia).
  destruct (healthFold_labels facilities (healthInit facilities)) as [Hlevel Howner].
  set (m := fold_left healthStep facilities (healthInit facilities)) in *.
  simpl in Htotal, H1, H2, H3, H4, H5, H6, H7, H8, Hlevel, Howner.
  assert (Health.totalFacilities (healthFinish m) = length facilities) as Hfinish
    by exact Htotal.
  rewrite Hfinish.
  assert (Health.withElectricity (Health.infrastructure (healthFinish m))
            = Health.withElectricity (Health.infrastructure m) /\
          Health.withWater (Health.infrastructure (healthFinish m))
            = Health.withWater (Health.infrastructure m) /\
          Health.withAmbulance (Health.infrastructure (healthFinish m))
            = Health.withAmbulance (Health.infrastructure m) /\
          Health.withMaternity (Health.infrastructure (healthFinish m))
            = Health.withMaternity (Health.infrastructure m) /\
          Health.offeringHIV (Health.services (healthFinish m))
            = Health.offeringHIV (Health.services m) /\
          Health.offeringMaternal (Health.services (healthFinish m))
            = Health.offeringMaternal (Health.services m) /\
          Health.offeringChildHealth (Health.services (healthFinish m))
            = Health.offeringChildHealth (Health.services m) /\
          Health.offeringImmunization (Health.services (healthFinish m))
            = Health.offeringImmunization (Health.services m))
    as (-> & -> & -> & -> & -> & -> & -> & ->).
  { unfold healthFinish. cbn [Health.infrastructure Health.services].
    destruct (0 <? Health.totalFacilities m); repeat split. }
  cbn zeta. repeat split; try assumption.
  - intros Hown. apply (Hlevel Hown 0). reflexivity.
  - intros Hown. apply (Howner Hown 0). reflexivity.
Qed.

(** C9 at the input on which the code departs from it: a record whose level
    is ["__proto__"] and whose ownership is ["constructor"].  The record is
    counted in [totalFacilities], but [byLevel] stays empty, and
    [byOwnership] holds a string, not a count; the per-label counts do not add
    up to [totalFacilities].  The same happens in the health aggregate. *)
Theorem byLevel_loses_inherited_labels location :
  parseCSV ("level,ownership" +:+ nl +:+ "__proto__,constructor")
  = [ {[ "level" := "__proto__"; "ownership" := "constructor" ]} ] /\
  (let metrics :=
     calculateEducationMetrics [ {[ "level" := "__proto__"; "ownership" := "constructor" ]} ]
       location in
   Education.totalFacilities metrics = 1 /\
   Education.byLevel metrics = ∅ /\
   labelTotal (Education.byLevel metrics) = Some 0 /\
   Education.byOwnership metrics
   = {[ "constructor" := JString "function Object() { [native code] }1" ]} /\
   labelTotal (Education.byOwnership metrics) = None) /\
  (let metrics :=
     calculateHealthMetrics [ {[ "level" := "__proto__"; "ownership" := "constructor" ]} ]
       location in
   Health.totalFacilities metrics = 1 /\
   Health.byLevel metrics = ∅ /\
   labelTotal (Health.byLevel metrics) = Some 0 /\
   Health.byOwnership metrics
   = {[ "constructor" := JString "function Object() { [native code] }1" ]} /\
   labelTotal (Health.byOwnership metrics) = None).
Proof.
  split; [vm_compute; reflexivity|].
  split; cbn zeta; repeat split; vm_compute; reflexivity.
Qed.

End CountClaims.

(** The sample schools: three records, two with electricity, levels and
    ownerships that are ordinary labels. *)
Lemma calculateEducationMetrics_counts_witness :
  labelTotal (Education.byLevel
                (@calculateEducationMetrics referenceBuiltins sampleSchools noLocation))
  = Some 3.
Proof.
  pose proof (@calculateEducationMetrics_counts referenceBuiltins sampleSchools noLocation)
    as (_ & _ & _ & _ & _ & Hlevel & _).
  apply Hlevel. repeat constructor.
Defined.

Lemma calculateHealthMetrics_counts_witness :
  labelTotal (Health.byOwnership
                (@calculateHealthMetrics referenceBuiltins sampleSchools noLocation))
  = Some 3.
Proof.
  pose proof (@calculateHealthMetrics_counts referenceBuiltins sampleSchools noLocation)
    as (_ & _ & _ & _ & _ & _ & _ & _ & _ & _ & Howner).
  apply Howner. repeat constructor.
Defined.

(** ** The end-to-end example *)

(** The three sample schools under the reference built-ins: learners are
    summed over all three, the ratio uses the two teacher counts that are
    there, two of three schools have electricity, and both gaps are found. *)
Example sampleSchools_aggregate :
  let metrics := @calculateEducationMetrics referenceBuiltins sampleSchools noLocation in
  Education.totalFacilities metrics = 3 /\
  Education.totalLearners (Education.enrollment metrics) = 1900%float /\
  Education.totalTeachers (Education.enrollment metrics) = 20%float /\
  Education.pupilTeacherRatio (Education.ratios metrics) = Some "95.0" /\
  Education.pupilClassroomRatio (Education.ratios metrics) = None /\
  Education.electricityPercentage (Education.infrastructure metrics) = Some "66.7" /\
  map (fun gap => (Gap.type gap, Gap.severity gap)) (Education.gaps metrics)
  = [("electricity", "high"); ("pupil_teacher_ratio", "critical")].
Proof. cbn zeta. repeat split; vm_compute; reflexivity. Qed.

Example sampleSchools_breakdown :
  map (fun entry => (BreakdownEntry.location entry, BreakdownEntry.facilityCount entry))
    (@getSubcountyBreakdown referenceBuiltins sampleSchools "facilities")
  = [("Busaana", 2); ("Kayunga Town Council", 1)].
Proof. vm_compute. reflexivity. Qed.

(** A column called ["__proto__"] does not become a key of the records. *)
Example parseCSV_proto_column :
  parseCSV ("__proto__,name" +:+ nl +:+ "x,Bukasa") = [ {[ "name" := "Bukasa" ]} ].
Proof. vm_compute. reflexivity. Qed.

(** * Further properties *)

(** ** The tabular parser: what a record holds *)

Lemma trimEnd_decompose (s : string) :
  exists ws, allWhite ws = true /\ s = trimEnd s +:+ ws.
Proof.
  induction s as [|c s (ws & Hws & Hs)]; [exists ""; auto|].
  simpl. destruct (trimEnd s) as [|c' r] eqn:Hr.
  - rewrite append_empty_l in Hs. subst ws.
    destruct (isWhiteSpace c) eqn:Hc.
    + exists (String c s). simpl. rewrite Hc, Hws. auto.
    + exists s. auto.
  - exists ws. split; [exact Hws|]. rewrite append_cons, <- Hs. reflexivity.
Qed.

Lemma trim_app_allWhite (s ws : string) : allWhite ws = true -> trim (s +:+ ws) = trim s.
Proof.
  intros Hws. unfold trim.
  destruct (allWhite s) eqn:Hs.
  - assert (allWhite (s +:+ ws) = true) as Hall by (rewrite allWhite_app, Hs, Hws; reflexivity).
    apply trimStart_empty_iff in Hs, Hall. rewrite Hs, Hall. reflexivity.
  - rewrite trimStart_app by exact Hs. rewrite trimEnd_app, Hws. reflexivity.
Qed.

Lemma parseCSVLine_loop_white (ws : string) :
  allWhite ws = true ->
  forall values current inQuotes,
    parseCSVLine_loop ws values current inQuotes = values ++ [current +:+ ws].
Proof.
  induction ws as [|c ws IH]; intros Hws values current inQuotes.
  - rewrite append_empty_r. reflexivity.
  - simpl in Hws. apply andb_true_iff in Hws as [Hc Hws].
    destruct (isWhiteSpace_plain c Hc) as [Hquote Hcomma].
    simpl. rewrite Hquote, Hcomma. simpl. rewrite IH by exact Hws.
    rewrite append_assoc. reflexivity.
Qed.

(** White space after a line only shows, before [trim], in the last field. *)
Lemma parseCSVLine_loop_suffix (ws : string) (line : string) :
  allWhite ws = true ->
  forall values current inQuotes,
    map trim (parseCSVLine_loop (line +:+ ws) values current inQuotes)
    = map trim (parseCSVLine_loop line values current inQuotes).
Proof.
  intros Hws.
  induction line as [|c rest IHrest IHnext] using string_lookahead_ind;
    intros values current inQuotes.
  - rewrite append_empty_l, parseCSVLine_loop_white by exact Hws.
    simpl. rewrite !map_app. simpl. rewrite trim_app_allWhite by exact Hws. reflexivity.
  - rewrite append_cons. simpl. destruct (Ascii.eqb c dquote).
    + destruct inQuotes; [|apply IHrest].
      destruct rest as [|n rest'].
      * rewrite append_empty_l. rewrite append_empty_l in IHrest.
        destruct ws as [|w ws']; [reflexivity|].
        assert (Ascii.eqb w dquote = false) as Hw.
        { simpl in Hws. apply andb_true_iff in Hws as [Hw _].
          apply (isWhiteSpace_plain w Hw). }
        rewrite Hw. apply IHrest.
      * rewrite append_cons. destruct (Ascii.eqb n dquote).
        -- apply (IHnext n rest' eq_refl).
        -- rewrite <- append_cons. apply IHrest.
    + destruct (Ascii.eqb c comma && negb inQuotes); apply IHrest.
Qed.

Lemma parseCSVLine_trimEnd (line : string) :
  map trim (parseCSVLine (trimEnd line)) = map trim (parseCSVLine line).
Proof.
  destruct (trimEnd_decompose line) as (ws & Hws & Hline).
  unfold parseCSVLine. rewrite Hline at 2.
  symmetry. apply parseCSVLine_loop_suffix. exact Hws.
Qed.

Lemma cell_trim (values values' : list string) (index : nat) :
  map trim values = map trim values' -> cell values index = cell values' index.
Proof.
  intros Heq. unfold cell.
  assert (map trim values !! index = map trim values' !! index) as Hlookup by (rewrite Heq; reflexivity).
  rewrite !list_lookup_fmap in Hlookup.
  destruct (values !! index), (values' !! index); simpl in Hlookup; congruence.
Qed.

(** A row depends on the header and on the line through their trimmed fields only. *)
Lemma fillRow_trim (headers headers' values values' : list string) :
  map trim headers = map trim headers' ->
  map trim values = map trim values' ->
  forall index row, fillRow headers index values row = fillRow headers' index values' row.
Proof.
  intros Hheaders Hvalues. revert headers' Hheaders.
  induction headers as [|h headers IH]; intros [|h' headers'] Hheaders index row;
    try discriminate Hheaders; [reflexivity|].
  simpl in Hheaders. injection Hheaders as Hh Hrest.
  simpl. rewrite Hh, (cell_trim _ _ index Hvalues). apply IH. exact Hrest.
Qed.

Lemma rowOf_trimEnd (header line : string) : rowOf header (trimEnd line) = rowOf header line.
Proof. unfold rowOf. apply fillRow_trim; [reflexivity|apply parseCSVLine_trimEnd]. Qed.

Lemma rowOf_trimStart (header line : string) : rowOf (trimStart header) line = rowOf header line.
Proof. unfold rowOf. apply fillRow_trim; [apply parseCSVLine_trimStart|reflexivity]. Qed.

Lemma parseRows_rowOf (header : string) (lines : list string) :
  parseRows (parseCSVLine header) lines
  = map (rowOf header) (List.filter (fun line => negb (isBlank line)) lines).
Proof.
  induction lines as [|line lines IH]; [reflexivity|].
  simpl. unfold isBlank. destruct (trim line); simpl; rewrite IH; reflexivity.
Qed.

Lemma trimEndLines_rows (header : string) (lines : list string) :
  map (rowOf header) (List.filter (fun line => negb (isBlank line)) (trimEndLines lines))
  = map (rowOf header) (List.filter (fun line => negb (isBlank line)) lines).
Proof.
  induction lines as [|line lines IH]; [reflexivity|].
  simpl trimEndLines. destruct (trimEndLines lines) as [|kept0 kept].
  - simpl in IH. simpl. destruct (isBlank line) eqn:Hblank; simpl.
    + exact IH.
    + rewrite isBlank_trimEnd, Hblank. simpl. rewrite <- IH, rowOf_trimEnd. reflexivity.
  - simpl List.filter at 2. simpl List.filter at 1.
    destruct (negb (isBlank line)); simpl; rewrite <- IH; reflexivity.
Qed.

(** The records of a tabular input are, in order, the rows of its data lines
    that are not blank, each built from the header line and that data line
    alone; blank lines and white space around the text change nothing. *)
Theorem parseCSV_rows (header : string) (dataLines : list string) :
  hasNewline header = false -> isBlank header = false ->
  Forall (fun line => hasNewline line = false) dataLines ->
  parseCSV (joinWith nl (header :: dataLines))
  = map (rowOf header) (List.filter (fun line => negb (isBlank line)) dataLines).
Proof.
  intros Hline Hblank Hlines.
  rewrite isBlank_allWhite in Hblank.
  assert (trimStart (joinWith nl (header :: dataLines))
          = joinWith nl (trimStart header :: dataLines)) as Hstart.
  { destruct dataLines as [|line lines]; [reflexivity|].
    change (joinWith nl (header :: line :: lines))
      with (header +:+ nl +:+ joinWith nl (line :: lines)).
    rewrite trimStart_app by exact Hblank. reflexivity. }
  unfold parseCSV, trim. rewrite Hstart, trimEnd_joinWith.
  assert (isBlank (trimStart header) = false) as Hfirst.
  { rewrite isBlank_allWhite, allWhite_trimStart. exact Hblank. }
  pose proof (hasNewline_trimStart _ Hline) as Hfirstline.
  pose proof (trimEndLines_no_newline _ Hlines) as Hkept.
  rewrite <- (trimEndLines_rows header dataLines).
  simpl trimEndLines. rewrite Hfirst.
  destruct (trimEndLines dataLines) as [|kept0 kept].
  - rewrite splitLines_joinWith
      by (constructor; [apply hasNewline_trimEnd; exact Hfirstline|constructor]).
    reflexivity.
  - rewrite splitLines_joinWith by (constructor; assumption).
    rewrite parseRows_rowOf. apply map_ext. intros line. apply rowOf_trimStart.
Qed.

Lemma setProperty_lookup {V} (key key' : string) (value : V) (obj : gmap string V) :
  setProperty key value obj !! key'
  = if decide (key = key' /\ key <> "__proto__") then Some value else obj !! key'.
Proof.
  unfold setProperty. destruct (decide (key = "__proto__")) as [Hproto|Hproto].
  - destruct (decide _) as [[_ Hne]|_]; [contradiction|reflexivity].
  - rewrite lookup_insert. destruct (decide (key = key')) as [Heq|Hne].
    + destruct (decide _) as [_|Hno]; [reflexivity|tauto].
    + destruct (decide _) as [[Heq _]|_]; [contradiction|reflexivity].
Qed.

Lemma fillRow_lookup_absent (headers : list string) (key : string) :
  ~ In key (map trim headers) ->
  forall index values row, fillRow headers index values row !! key = row !! key.
Proof.
  induction headers as [|h headers IH]; intros Habsent index values row; simpl; [reflexivity|].
  simpl in Habsent. rewrite IH by tauto. rewrite setProperty_lookup.
  destruct (decide _) as [[Heq _]|_]; [tauto|reflexivity].
Qed.

Lemma fillRow_lookup_last (headers : list string) (key : string) :
  key <> "__proto__" ->
  forall position index values row,
    map trim headers !! position = Some key ->
    (forall later, position < later -> map trim headers !! later <> Some key) ->
    fillRow headers index values row !! key = Some (cell values (index + position)).
Proof.
  intros Hproto. induction headers as [|h headers IH];
    intros position index values row Hat Hlast; [discriminate Hat|].
  simpl. destruct position as [|position].
  - simpl in Hat. injection Hat as Hh.
    rewrite fillRow_lookup_absent.
    + rewrite setProperty_lookup, Hh, Nat.add_0_r.
      destruct (decide _) as [_|Hno]; [reflexivity|tauto].
    + intros Hin. apply list_elem_of_In, list_elem_of_lookup in Hin as [later Hlater].
      apply (Hlast (S later)); [lia|exact Hlater].
  - simpl in Hat. rewrite (IH position (S index)).
    + f_equal. f_equal. lia.
    + exact Hat.
    + intros later Hlt. apply (Hlast (S later)). lia.
Qed.

(** Under a header, a record maps a column name to the trimmed field of the
    data line at the position of that column, or to the empty string when the
    line has no field there; of two columns of one name the later one counts;
    fields past the last column are dropped, and a name that is no column is
    no key. *)
Theorem rowOf_lookup (header line : string) (key : string) :
  (~ In key (map trim (parseCSVLine header)) -> rowOf header line !! key = None) /\
  (key <> "__proto__" ->
   forall position,
     map trim (parseCSVLine header) !! position = Some key ->
     (forall later, position < later ->
                    map trim (parseCSVLine header) !! later <> Some key) ->
     rowOf header line !! key
     = Some (match parseCSVLine line !! position with
             | Some field => trim field
             | None => ""
             end)).
Proof.
  split.
  - intros Habsent. unfold rowOf. rewrite fillRow_lookup_absent by exact Habsent.
    apply lookup_empty.
  - intros Hproto position Hat Hlast. unfold rowOf.
    rewrite (fillRow_lookup_last _ key Hproto position 0 _ _ Hat Hlast). reflexivity.
Qed.

Lemma rowOf_lookup_witness :
  rowOf "name, count ,name" "Bukasa, 5 " !! "count" = Some "5" /\
  rowOf "name, count ,name" "Bukasa, 5 " !! "name" = Some "".
Proof.
  split.
  - refine (proj2 (rowOf_lookup "name, count ,name" "Bukasa, 5 " "count") _ 1 _ _).
    + discriminate.
    + reflexivity.
    + intros [|[|[|later]]] Hlt; try lia; discriminate.
  - refine (proj2 (rowOf_lookup "name, count ,name" "Bukasa, 5 " "name") _ 2 _ _).
    + discriminate.
    + reflexivity.
    + intros [|[|[|later]]] Hlt; try lia; discriminate.
Defined.

(** ** The tabular parser: lines without quotes *)

Lemma joinWith_snoc_append (values : list string) (current more : string) :
  joinWith "," (values ++ [current +:+ more]) = joinWith "," (values ++ [current]) +:+ more.
Proof.
  induction values as [|v values IH]; simpl.
  - reflexivity.
  - destruct (values ++ [current +:+ more]) as [|x xs] eqn:Hx;
      [destruct values; discriminate Hx|].
    destruct (values ++ [current]) as [|y ys] eqn:Hy;
      [destruct values; discriminate Hy|].
    rewrite IH, !append_assoc. reflexivity.
Qed.

Lemma joinWith_snoc_empty (values : list string) (current : string) :
  joinWith "," ((values ++ [current]) ++ [""]) = joinWith "," (values ++ [current]) +:+ ",".
Proof.
  induction values as [|v values IH]; simpl.
  - rewrite append_empty_r. reflexivity.
  - destruct ((values ++ [current]) ++ [""]) as [|x xs] eqn:Hx;
      [destruct values; discriminate Hx|].
    destruct (values ++ [current]) as [|y ys] eqn:Hy;
      [destruct values; discriminate Hy|].
    rewrite IH, !append_assoc. reflexivity.
Qed.

Lemma parseCSVLine_loop_unquoted (line : string) :
  hasQuote line = false ->
  forall values current,
    joinWith "," (parseCSVLine_loop line values current false)
    = joinWith "," (values ++ [current]) +:+ line /\
    length (parseCSVLine_loop line values current false)
    = length values + 1 + countCommas line.
Proof.
  induction line as [|c line IH]; intros Hquote values current.
  - simpl. rewrite append_empty_r, length_app. simpl. split; [reflexivity|lia].
  - simpl in Hquote. apply orb_false_iff in Hquote as [Hc Hquote].
    simpl. rewrite Hc, andb_true_r.
    destruct (Ascii.eqb_spec c comma) as [->|Hcomma].
    + destruct (IH Hquote (values ++ [current]) "") as [Hjoin Hlength].
      rewrite Hjoin, Hlength, joinWith_snoc_empty, append_assoc, length_app.
      simpl. split; [reflexivity|lia].
    + destruct (IH Hquote values (current +:+ String c "")) as [Hjoin Hlength].
      rewrite Hjoin, Hlength, joinWith_snoc_append, append_assoc.
      split; [reflexivity|lia].
Qed.

Lemma parseCSVLine_loop_nonempty (line : string) :
  forall values current inQuotes, parseCSVLine_loop line values current inQuotes <> [].
Proof.
  induction line as [|c rest IHrest IHnext] using string_lookahead_ind;
    intros values current inQuotes.
  - simpl. destruct values; discriminate.
  - simpl. destruct (Ascii.eqb c dquote).
    + destruct inQuotes; [|apply IHrest].
      destruct rest as [|n rest']; [apply IHrest|].
      destruct (Ascii.eqb n dquote); [apply (IHnext n rest' eq_refl)|apply IHrest].
    + destruct (Ascii.eqb c comma && negb inQuotes); apply IHrest.
Qed.

(** A line always splits into at least one field.  A line without a double
    quote splits at every comma: it has one field more than it has commas,
    and joining the fields with commas gives the line back. *)
Theorem parseCSVLine_unquoted (line : string) :
  parseCSVLine line <> [] /\
  (hasQuote line = false ->
   length (parseCSVLine line) = countCommas line + 1 /\
   joinWith "," (parseCSVLine line) = line).
Proof.
  split; [apply parseCSVLine_loop_nonempty|].
  intros Hquote. unfold parseCSVLine.
  destruct (parseCSVLine_loop_unquoted line Hquote [] "") as [Hjoin Hlength].
  split; [rewrite Hlength; simpl; lia|exact Hjoin].
Qed.

Lemma parseCSVLine_unquoted_witness :
  length (parseCSVLine "Bukasa HC II,,Busaana, 5") = 4 /\
  joinWith "," (parseCSVLine "Bukasa HC II,,Busaana, 5") = "Bukasa HC II,,Busaana, 5".
Proof.
  apply (proj2 (parseCSVLine_unquoted "Bukasa HC II,,Busaana, 5")). reflexivity.
Defined.

(** ** The tabular parser: trimmed keys and values *)

Lemma trimStart_head (s : string) :
  trimStart s = "" \/ exists c r, trimStart s = String c r /\ isWhiteSpace c = false.
Proof.
  induction s as [|c s IH]; simpl; [left; reflexivity|].
  destruct (isWhiteSpace c) eqn:Hc; [exact IH|].
  right. exists c, s. auto.
Qed.

Lemma trimEnd_trimEnd (s : string) : trimEnd (trimEnd s) = trimEnd s.
Proof.
  destruct (trimEnd_decompose s) as (ws & Hws & Hs).
  rewrite Hs at 2. rewrite trimEnd_app, Hws. reflexivity.
Qed.

Lemma trim_trim (s : string) : trim (trim s) = trim s.
Proof.
  unfold trim.
  destruct (trimStart_head s) as [->|(c & r & -> & Hc)]; [reflexivity|].
  assert (trimStart (trimEnd (String c r)) = trimEnd (String c r)) as ->.
  { simpl. destruct (trimEnd r); rewrite ?Hc; simpl; rewrite Hc; reflexivity. }
  apply trimEnd_trimEnd.
Qed.

Lemma cell_trimmed (values : list string) (index : nat) : trim (cell values index) = cell values index.
Proof. unfold cell. destruct (values !! index); [apply trim_trim|reflexivity]. Qed.

Lemma fillRow_trimmed (headers : list string) :
  forall index values (row : gmap string string),
    (forall key value, row !! key = Some value -> trim key = key /\ trim value = value) ->
    forall key value, fillRow headers index values row !! key = Some value ->
                      trim key = key /\ trim value = value.
Proof.
  induction headers as [|h headers IH]; intros index values row Hrow; simpl; [exact Hrow|].
  apply IH. intros key value. rewrite setProperty_lookup.
  destruct (decide _) as [[<- _]|_]; [|apply Hrow].
  intros [= <-]. split; [apply trim_trim|apply cell_trimmed].
Qed.

(** Every key and every value of every record that [parseCSV] returns is
    trimmed: it has no white space at either end, whatever the input. *)
Theorem parseCSV_trimmed (csvContent : string) :
  Forall (fun row : gmap string string =>
            forall key value, row !! key = Some value -> trim key = key /\ trim value = value)
    (parseCSV csvContent).
Proof.
  unfold parseCSV. destruct (splitLines (trim csvContent)) as [|header rest]; [constructor|].
  generalize (parseCSVLine header) as headers. intros headers.
  induction rest as [|line rest IH]; simpl; [constructor|].
  destruct (trim line); [exact IH|].
  constructor; [|exact IH].
  apply fillRow_trimmed. intros key value Hnone. rewrite lookup_empty in Hnone. discriminate.
Qed.

(** A text with no line after its first one (empty, blank, or a header
    alone) has no record. *)
Lemma parseCSV_no_data (csvContent : string) :
  hasNewline (trim csvContent) = false -> parseCSV csvContent = [].
Proof.
  intros Hline. unfold parseCSV. rewrite splitLines_line by exact Hline. reflexivity.
Qed.

Lemma parseCSV_rows_witness :
  parseCSV (joinWith nl ["  name,count"; ""; "Bukasa , 5"; "  "; "Busaana"; ""])
  = [ {[ "name" := "Bukasa"; "count" := "5" ]}; {[ "name" := "Busaana"; "count" := "" ]} ].
Proof.
  rewrite (parseCSV_rows "  name,count" [""; "Bukasa , 5"; "  "; "Busaana"; ""]).
  - vm_compute. reflexivity.
  - reflexivity.
  - reflexivity.
  - repeat constructor.
Defined.

(** ** Location-based filtering: composition *)

Lemma startsWith_trans (s p q : string) :
  startsWith s p = true -> startsWith p q = true -> startsWith s q = true.
Proof.
  rewrite !startsWith_spec. intros [rest ->] [rest' ->].
  exists (rest' +:+ rest). apply append_assoc.
Qed.

Lemma filter_filter_same {A} (keep : A -> bool) (l : list A) :
  List.filter keep (List.filter keep l) = List.filter keep l.
Proof.
  induction l as [|x l IH]; simpl; [reflexivity|].
  destruct (keep x) eqn:Hx; simpl; rewrite ?Hx, IH; reflexivity.
Qed.

Lemma filter_filter_implied {A} (keep keep' : A -> bool) (l : list A) :
  (forall x, keep' x = true -> keep x = true) ->
  List.filter keep' (List.filter keep l) = List.filter keep' l.
Proof.
  intros Himplied. induction l as [|x l IH]; simpl; [reflexivity|].
  destruct (keep x) eqn:Hx; simpl; rewrite IH; [reflexivity|].
  destruct (keep' x) eqn:Hx'; [|reflexivity].
  rewrite (Himplied x Hx') in Hx. discriminate Hx.
Qed.

Lemma filterByLocation_filter facilities location code :
  filterCode location = Some code ->
  filterByLocation facilities location
  = List.filter (fun row => startsWith (locationCode row) code) facilities.
Proof.
  intros Hcode. pose proof (filterCode_truthy _ _ Hcode) as Htruthy.
  unfold filterByLocation. rewrite Hcode.
  destruct code; [discriminate Htruthy|reflexivity].
Qed.

Lemma filterByLocation_all facilities location :
  filterCode location = None -> filterByLocation facilities location = facilities.
Proof. intros Hnone. unfold filterByLocation. rewrite Hnone. reflexivity. Qed.

(** Filtering keeps the order of the records and works record by record:
    it distributes over concatenation, never lengthens the list, and
    filtering a second time by the same location changes nothing. *)
Theorem filterByLocation_idempotent facilities facilities' location :
  filterByLocation (filterByLocation facilities location) location
  = filterByLocation facilities location /\
  filterByLocation (facilities ++ facilities') location
  = filterByLocation facilities location ++ filterByLocation facilities' location /\
  length (filterByLocation facilities location) <= length facilities.
Proof.
  destruct (filterCode location) as [code|] eqn:Hcode.
  - rewrite !(filterByLocation_filter _ _ _ Hcode).
    split; [apply filter_filter_same|]. split; [apply List.filter_app|apply List.filter_length_le].
  - rewrite !(filterByLocation_all _ _ Hcode). auto.
Qed.

(** Filtering by a code and then by a code that extends it gives what
    filtering by the longer code alone gives, so the records of a descendant
    are among the records of its ancestor. *)
Theorem filterByLocation_narrows facilities ancestor descendant code code' :
  filterCode ancestor = Some code ->
  filterCode descendant = Some code' ->
  startsWith code' code = true ->
  filterByLocation (filterByLocation facilities ancestor) descendant
  = filterByLocation facilities descendant /\
  forall row, In row (filterByLocation facilities descendant) ->
              In row (filterByLocation facilities ancestor).
Proof.
  intros Hcode Hcode' Hextends.
  rewrite (filterByLocation_filter _ _ _ Hcode'), (filterByLocation_filter _ _ _ Hcode),
    (filterByLocation_filter _ _ _ Hcode').
  split.
  - apply filter_filter_implied. intros row Hrow.
    exact (startsWith_trans _ _ _ Hrow Hextends).
  - intros row. rewrite !filter_In. intros [Hin Hrow].
    split; [exact Hin|exact (startsWith_trans _ _ _ Hrow Hextends)].
Qed.

Lemma filterByLocation_narrows_witness :
  filterByLocation
    (filterByLocation
       [ {[ "location_code" := "D01S02" ]}; {[ "location_code" := "D01S02P03" ]};
         {[ "location_code" := "D01S03P01" ]} ]
       (LocationFilter.mk (Some "D01") (Some "D01S02") None None))
    (LocationFilter.mk (Some "D01") (Some "D01S02") (Some "D01S02P03") None)
  = [ {[ "location_code" := "D01S02P03" ]} ].
Proof.
  rewrite (proj1 (filterByLocation_narrows _
                    (LocationFilter.mk (Some "D01") (Some "D01S02") None None)
                    (LocationFilter.mk (Some "D01") (Some "D01S02") (Some "D01S02P03") None)
                    "D01S02" "D01S02P03" eq_refl eq_refl eq_refl)).
  reflexivity.
Defined.

(** ** The loader: cache and scope *)

Lemma hasLowerLevel_filterCode location :
  hasLowerLevel (Some location) = true ->
  exists code, filterCode location = Some code /\ code <> "".
Proof.
  unfold hasLowerLevel, filterCode, orElse.
  destruct (truthy (LocationFilter.village location)) eqn:Hv.
  - intros _. destruct (LocationFilter.village location) as [[|c r]|]; try discriminate Hv.
    eexists. split; [reflexivity|discriminate].
  - destruct (truthy (LocationFilter.parish location)) eqn:Hp.
    + intros _. destruct (LocationFilter.parish location) as [[|c r]|]; try discriminate Hp.
      eexists. split; [reflexivity|discriminate].
    + destruct (truthy (LocationFilter.subcounty location)) eqn:Hs.
      * intros _. destruct (LocationFilter.subcounty location) as [[|c r]|]; try discriminate Hs.
        eexists. split; [reflexivity|discriminate].
      * rewrite Hp. rewrite Hv. discriminate.
Qed.

(** What the loader returns on a cache miss is in scope: every record comes
    from the fetched text; with a district code, its location code is empty
    or starts with the district code; and with a subcounty, parish or
    village in the location, its location code starts with the most specific
    of these codes, so a record without a location code is not returned. *)
Theorem loadCSVData_scope dataCache content districtName category location :
  dataCache !! cacheKey districtName category = None ->
  content <> "" ->
  let result := (loadCSVData dataCache (Some content) districtName category location).1 in
  forall row, In row result ->
    In row (parseCSV content) /\
    (forall districtCode,
       districtCodeOf location = Some districtCode -> districtCode <> "" ->
       locationCode row = "" \/ startsWith (locationCode row) districtCode = true) /\
    (forall location',
       location = Some location' -> hasLowerLevel location = true ->
       exists code, filterCode location' = Some code /\
                    startsWith (locationCode row) code = true /\ locationCode row <> "").
Proof.
  intros Hmiss Hcontent result row. unfold result, loadCSVData. rewrite Hmiss.
  destruct content as [|c0 content']; [congruence|]. cbn [truthy orDefault fst].
  set (parsed := parseCSV (String c0 content')).
  set (districtData := List.filter (inDistrict (districtCodeOf location)) parsed).
  intros Hin.
  assert (In row districtData /\
          forall location', location = Some location' -> hasLowerLevel location = true ->
            exists code, filterCode location' = Some code /\
                         startsWith (locationCode row) code = true /\ locationCode row <> "")
    as [Hdistrict Hlower].
  { unfold narrowToLocation in Hin. destruct location as [location'|].
    - destruct (hasLowerLevel (Some location')) eqn:Hlow.
      + destruct (hasLowerLevel_filterCode _ Hlow) as (code & Hcode & Hne).
        rewrite (filterByLocation_filter _ _ _ Hcode) in Hin.
        apply filter_In in Hin as [Hin Hrow].
        split; [exact Hin|]. intros ? [= <-] _. exists code.
        split; [exact Hcode|]. split; [exact Hrow|].
        intros Hempty. rewrite Hempty in Hrow. destruct code; [congruence|discriminate Hrow].
      + split; [exact Hin|]. intros ? _ Hyes. discriminate Hyes.
    - split; [exact Hin|]. intros ? Hsome. discriminate Hsome. }
  apply filter_In in Hdistrict as [Hparsed Hkeep].
  split; [exact Hparsed|]. split; [|exact Hlower].
  intros districtCode Hcode Hne. unfold inDistrict in Hkeep. rewrite Hcode in Hkeep.
  destruct districtCode as [|d ds]; [congruence|].
  destruct (locationCode row) as [|l ls]; [left; reflexivity|].
  right. exact Hkeep.
Qed.


Lemma loadCSVData_scope_witness :
  Forall (fun row => startsWith (locationCode row) "D01S02" = true)
    (loadCSVData ∅
       (Some (joinWith nl ["name,location_code"; "Bukasa,D01S02P03"; "Kayunga,D01S03";
                           "Unknown,"; "Other,D02S01"]))
       "Kayunga" "health" (Some (LocationFilter.mk (Some "D01") (Some "D01S02") None None))).1.
Proof.
  apply Forall_forall. intros row Hin. apply list_elem_of_In in Hin.
  destruct (loadCSVData_scope ∅
              (joinWith nl ["name,location_code"; "Bukasa,D01S02P03"; "Kayunga,D01S03";
                            "Unknown,"; "Other,D02S01"])
              "Kayunga" "health"
              (Some (LocationFilter.mk (Some "D01") (Some "D01S02") None None))
              (lookup_empty _) ltac:(discriminate) row Hin) as (_ & _ & Hlower).
  destruct (Hlower _ eq_refl eq_refl) as (code & [= <-] & Hrow & _). exact Hrow.
Defined.


(** ** The code patterns *)

Lemma skipDigits_run (run rest : string) :
  allDigits run = true ->
  (rest = "" \/ exists c r, rest = String c r /\ isDigit c = false) ->
  skipDigits (run +:+ rest) = rest.
Proof.
  intros Hrun Hrest. induction run as [|d run IH].
  - rewrite append_empty_l. destruct Hrest as [->|(c & r & -> & Hc)]; [reflexivity|].
    simpl. rewrite Hc. reflexivity.
  - simpl in Hrun. apply andb_true_iff in Hrun as [Hd Hrun].
    rewrite append_cons. simpl. rewrite Hd. apply IH. exact Hrun.
Qed.

Lemma skipDigits_split (s : string) :
  exists run, allDigits run = true /\ s = run +:+ skipDigits s.
Proof.
  induction s as [|c s (run & Hrun & Hs)]; [exists ""; auto|].
  simpl. destruct (isDigit c) eqn:Hc.
  - exists (String c run). simpl. rewrite Hc, Hrun. split; [reflexivity|].
    rewrite append_cons, <- Hs. reflexivity.
  - exists "". auto.
Qed.

Lemma segmentsText_head (letters : list ascii) (runs : list string) :
  Forall (fun letter => isDigit letter = false) letters ->
  segmentsText letters runs = "" \/
  exists c r, segmentsText letters runs = String c r /\ isDigit c = false.
Proof.
  intros Hletters. destruct Hletters as [|letter letters Hletter _]; [left; reflexivity|].
  destruct runs as [|run runs]; [left; reflexivity|].
  right. simpl. eauto.
Qed.

(** The matcher accepts exactly the texts of its pattern. *)
Lemma matchSegments_spec (letters : list ascii) :
  Forall (fun letter => isDigit letter = false) letters ->
  forall s,
    matchSegments letters s = true <->
    exists runs, length runs = length letters /\ Forall digitRun runs /\
                 s = segmentsText letters runs.
Proof.
  induction 1 as [|letter letters Hletter Hletters IH]; intros s.
  - simpl. split.
    + destruct s; [|discriminate]. intros _. exists []. repeat split. constructor.
    + intros ([|run runs] & Hlength & _ & ->); [reflexivity|discriminate Hlength].
  - split.
    + simpl. destruct s as [|c [|d r]]; try discriminate.
      intros Hmatch. apply andb_true_iff in Hmatch as [Hmatch Hrest].
      apply andb_true_iff in Hmatch as [Hc Hd].
      apply Ascii.eqb_eq in Hc. subst c.
      apply IH in Hrest as (runs & Hlength & Hruns & Hrest).
      destruct (skipDigits_split r) as (run & Hrun & Hr).
      exists (String d run :: runs). split; [simpl; congruence|].
      split.
      * constructor; [|exact Hruns]. split; [discriminate|]. simpl. rewrite Hd. exact Hrun.
      * simpl. rewrite append_cons, <- Hrest, <- Hr. reflexivity.
    + intros ([|run runs] & Hlength & Hruns & ->); [discriminate Hlength|].
      inversion Hruns as [|? ? [Hne Hdigits] Hruns']; subst.
      destruct run as [|d run]; [congruence|].
      simpl in Hdigits. apply andb_true_iff in Hdigits as [Hd Hdigits].
      change (segmentsText (letter :: letters) (String d run :: runs))
        with (String letter (String d (run +:+ segmentsText letters runs))).
      cbn [matchSegments]. rewrite Ascii.eqb_refl, Hd. cbn [andb].
      rewrite skipDigits_run; [|exact Hdigits|apply segmentsText_head; exact Hletters].
      apply IH. exists runs. split; [simpl in Hlength; congruence|]. auto.
Qed.

Lemma matchSegments_longer (letters : list ascii) (letter : ascii) (more : list ascii) :
  forall s, matchSegments letters s = true ->
            matchSegments (letters ++ letter :: more) s = false.
Proof.
  induction letters as [|l letters IH]; intros s; simpl.
  - destruct s; [reflexivity|discriminate].
  - destruct s as [|c [|d r]]; try discriminate.
    intros Hmatch. apply andb_true_iff in Hmatch as [-> Hrest].
    rewrite (IH _ Hrest). reflexivity.
Qed.

(** The four patterns of [getLocationByCode] read a code as a district, a
    subcounty, a parish or a village code exactly when it is [D], [S], [P],
    [V] segments of one or more digits each, to that depth; and no code has
    two of the four forms, so the form of a code names one level. *)
Theorem code_patterns (code : string) :
  (isDistrict code = true <-> exists d, digitRun d /\ code = "D" +:+ d) /\
  (isSubcounty code = true
   <-> exists d s, digitRun d /\ digitRun s /\ code = "D" +:+ d +:+ "S" +:+ s) /\
  (isParish code = true
   <-> exists d s p, digitRun d /\ digitRun s /\ digitRun p /\
                     code = "D" +:+ d +:+ "S" +:+ s +:+ "P" +:+ p) /\
  (isVillage code = true
   <-> exists d s p v, digitRun d /\ digitRun s /\ digitRun p /\ digitRun v /\
                       code = "D" +:+ d +:+ "S" +:+ s +:+ "P" +:+ p +:+ "V" +:+ v) /\
  (isDistrict code = true ->
   isSubcounty code = false /\ isParish code = false /\ isVillage code = false) /\
  (isSubcounty code = true -> isParish code = false /\ isVillage code = false) /\
  (isParish code = true -> isVillage code = false).
Proof.
  unfold isDistrict, isSubcounty, isParish, isVillage.
  repeat split.
  - intros Hmatch. apply matchSegments_spec in Hmatch as (runs & Hlength & Hruns & ->);
      [|repeat constructor].
    destruct runs as [|d [|? ?]]; try discriminate Hlength.
    inversion Hruns; subst. exists d. simpl. rewrite append_empty_r. auto.
  - intros (d & Hd & ->). apply matchSegments_spec; [repeat constructor|].
    exists [d]. simpl. rewrite append_empty_r. repeat split; auto.
  - intros Hmatch. apply matchSegments_spec in Hmatch as (runs & Hlength & Hruns & ->);
      [|repeat constructor].
    destruct runs as [|d [|s [|? ?]]]; try discriminate Hlength.
    inversion Hruns as [|? ? ? Hruns1]; subst. inversion Hruns1; subst.
    exists d, s. simpl. rewrite append_empty_r. auto.
  - intros (d & s & Hd & Hs & ->). apply matchSegments_spec; [repeat constructor|].
    exists [d; s]. simpl. rewrite append_empty_r. repeat split; auto.
  - intros Hmatch. apply matchSegments_spec in Hmatch as (runs & Hlength & Hruns & ->);
      [|repeat constructor].
    destruct runs as [|d [|s [|p [|? ?]]]]; try discriminate Hlength.
    inversion Hruns as [|? ? ? Hruns1]; subst. inversion Hruns1 as [|? ? ? Hruns2]; subst.
    inversion Hruns2; subst.
    exists d, s, p. simpl. rewrite append_empty_r. auto.
  - intros (d & s & p & Hd & Hs & Hp & ->). apply matchSegments_spec; [repeat constructor|].
    exists [d; s; p]. simpl. rewrite append_empty_r. repeat split; auto.
  - intros Hmatch. apply matchSegments_spec in Hmatch as (runs & Hlength & Hruns & ->);
      [|repeat constructor].
    destruct runs as [|d [|s [|p [|v [|? ?]]]]]; try discriminate Hlength.
    inversion Hruns as [|? ? ? Hruns1]; subst. inversion Hruns1 as [|? ? ? Hruns2]; subst.
    inversion Hruns2 as [|? ? ? Hruns3]; subst. inversion Hruns3; subst.
    exists d, s, p, v. simpl. rewrite append_empty_r. auto.
  - intros (d & s & p & v & Hd & Hs & Hp & Hv & ->).
    apply matchSegments_spec; [repeat constructor|].
    exists [d; s; p; v]. simpl. rewrite append_empty_r. repeat split; auto.
  - apply (matchSegments_longer ["D"%char] "S"%char []); assumption.
  - apply (matchSegments_longer ["D"%char] "S"%char ["P"%char]); assumption.
  - apply (matchSegments_longer ["D"%char] "S"%char ["P"%char; "V"%char]); assumption.
  - apply (matchSegments_longer ["D"%char; "S"%char] "P"%char []); assumption.
  - apply (matchSegments_longer ["D"%char; "S"%char] "P"%char ["V"%char]); assumption.
  - apply (matchSegments_longer ["D"%char; "S"%char; "P"%char] "V"%char []); assumption.
Qed.

Lemma code_patterns_witness :
  isSubcounty ("D" +:+ "01" +:+ "S" +:+ "02") = true /\
  isParish "D01S02" = false /\ isVillage "D01S02" = false.
Proof.
  pose proof (code_patterns ("D" +:+ "01" +:+ "S" +:+ "02")) as (_ & Hsub & _ & _ & _ & Hexcl & _).
  assert (isSubcounty ("D" +:+ "01" +:+ "S" +:+ "02") = true) as Hyes.
  { apply Hsub. exists "01", "02". repeat split; discriminate || reflexivity. }
  split; [exact Hyes|]. exact (Hexcl Hyes).
Defined.

(** ** The resolver: every coded node is found, with its ancestors *)

Section ResolverPaths.
Variable code : string.

Lemma searchVillages_finds district subcounty parish villages :
  isVillage code = true -> In code (map Village.code villages) ->
  is_Some (searchVillages code district subcounty parish villages).
Proof.
  intros Hpattern. induction villages as [|village villages IH]; simpl; [tauto|].
  rewrite Hpattern, andb_true_r.
  destruct (String.eqb_spec (Village.code village) code) as [_|Hne]; [eauto|].
  intros [Heq|Hin]; [contradiction|auto].
Qed.

Lemma searchParishes_finds district subcounty parishes :
  (isParish code = true /\ In code (map Parish.code parishes)) \/
  (isVillage code = true /\ In code (map Village.code (flat_map Parish.villages parishes))) ->
  is_Some (searchParishes code district subcounty parishes).
Proof.
  induction parishes as [|parish parishes IH]; simpl; [tauto|].
  destruct (String.eqb (Parish.code parish) code && isParish code) eqn:Hhere; [eauto|].
  rewrite map_app, in_app_iff.
  intros Hnode.
  destruct (searchVillages code district subcounty parish (Parish.villages parish))
    as [found|] eqn:Hvillages; [eauto|].
  apply IH. destruct Hnode as [[Hpattern [Heq|Hin]]|[Hpattern [Hin|Hin]]].
  - rewrite Hpattern, andb_true_r in Hhere. apply String.eqb_neq in Hhere. contradiction.
  - left. auto.
  - destruct (searchVillages_finds district subcounty parish _ Hpattern Hin) as [found Hfound].
    congruence.
  - right. auto.
Qed.

Lemma searchSubcounties_finds district subcounties :
  (isSubcounty code = true /\ In code (map Subcounty.code subcounties)) \/
  (isParish code = true /\
   In code (map Parish.code (flat_map Subcounty.parishes subcounties))) \/
  (isVillage code = true /\
   In code (map Village.code
              (flat_map Parish.villages (flat_map Subcounty.parishes subcounties)))) ->
  is_Some (searchSubcounties code district subcounties).
Proof.
  induction subcounties as [|subcounty subcounties IH]; simpl; [tauto|].
  destruct (String.eqb (Subcounty.code subcounty) code && isSubcounty code) eqn:Hhere; [eauto|].
  rewrite flat_map_app, !map_app, !in_app_iff.
  intros Hnode.
  destruct (searchParishes code district subcounty (Subcounty.parishes subcounty))
    as [found|] eqn:Hparishes; [eauto|].
  apply IH.
  destruct Hnode as [[Hpattern [Heq|Hin]]|[[Hpattern [Hin|Hin]]|[Hpattern [Hin|Hin]]]].
  - rewrite Hpattern, andb_true_r in Hhere. apply String.eqb_neq in Hhere. contradiction.
  - left. auto.
  - destruct (searchParishes_finds district subcounty (Subcounty.parishes subcounty))
      as [found Hfound]; [left; auto|congruence].
  - right. left. auto.
  - destruct (searchParishes_finds district subcounty (Subcounty.parishes subcounty))
      as [found Hfound]; [right; auto|congruence].
  - right. right. auto.
Qed.

Lemma searchDistricts_finds districts :
  (isDistrict code = true /\ In code (map District.code districts)) \/
  (isSubcounty code = true /\ In code (map Subcounty.code (subcountiesOf districts))) \/
  (isParish code = true /\ In code (map Parish.code (parishesOf districts))) \/
  (isVillage code = true /\ In code (map Village.code (villagesOf districts))) ->
  is_Some (searchDistricts code districts).
Proof.
  unfold villagesOf, parishesOf, subcountiesOf.
  induction districts as [|district districts IH]; simpl; [tauto|].
  destruct (String.eqb (District.code district) code && isDistrict code) eqn:Hhere; [eauto|].
  rewrite !flat_map_app, !map_app, !in_app_iff.
  intros Hnode.
  destruct (searchSubcounties code district (District.subcounties district))
    as [found|] eqn:Hsubcounties; [eauto|].
  apply IH.
  destruct Hnode as [[Hpattern [Heq|Hin]]|[[Hpattern [Hin|Hin]]
                    |[[Hpattern [Hin|Hin]]|[Hpattern [Hin|Hin]]]]].
  - rewrite Hpattern, andb_true_r in Hhere. apply String.eqb_neq in Hhere. contradiction.
  - left. auto.
  - destruct (searchSubcounties_finds district (District.subcounties district))
      as [found Hfound]; [left; auto|congruence].
  - right. left. auto.
  - destruct (searchSubcounties_finds district (District.subcounties district))
      as [found Hfound]; [right; left; auto|congruence].
  - right. right. left. auto.
  - destruct (searchSubcounties_finds district (District.subcounties district))
      as [found Hfound]; [right; right; auto|congruence].
  - right. right. right. auto.
Qed.

Lemma searchVillages_path district subcounty parish villages found :
  searchVillages code district subcounty parish villages = Some found ->
  exists village, In village villages /\
    found = Descriptor.mk "village" (Village.code village) (Village.name village)
              (Some (Parish.name parish)) (Some (Subcounty.name subcounty))
              (Some (District.name district)).
Proof.
  induction villages as [|village villages IH]; simpl; [discriminate|].
  destruct (String.eqb (Village.code village) code && isVillage code).
  - intros [= <-]. exists village. auto.
  - intros Hrest. destruct (IH Hrest) as (node & Hin & Hfound). exists node. auto.
Qed.

Lemma searchParishes_path district subcounty parishes found :
  searchParishes code district subcounty parishes = Some found ->
  (exists parish, In parish parishes /\
     found = Descriptor.mk "parish" (Parish.code parish) (Parish.name parish)
               None (Some (Subcounty.name subcounty)) (Some (District.name district))) \/
  (exists parish village, In parish parishes /\ In village (Parish.villages parish) /\
     found = Descriptor.mk "village" (Village.code village) (Village.name village)
               (Some (Parish.name parish)) (Some (Subcounty.name subcounty))
               (Some (District.name district))).
Proof.
  induction parishes as [|parish parishes IH]; simpl; [discriminate|].
  destruct (String.eqb (Parish.code parish) code && isParish code).
  - intros [= <-]. left. exists parish. auto.
  - destruct (searchVillages code district subcounty parish (Parish.villages parish))
      as [found'|] eqn:Hvillages.
    + intros [= ->]. destruct (searchVillages_path _ _ _ _ _ Hvillages) as (village & Hin & ->).
      right. exists parish, village. auto.
    + intros Hrest. destruct (IH Hrest) as [(p & Hin & ->)|(p & v & Hin & Hin' & ->)].
      * left. exists p. auto.
      * right. exists p, v. auto.
Qed.

Lemma searchSubcounties_path district subcounties found :
  searchSubcounties code district subcounties = Some found ->
  describesPath [District.mk (District.code district) (District.name district) subcounties]
    found /\ Descriptor.type found <> "district".
Proof.
  unfold describesPath.
  induction subcounties as [|subcounty subcounties IH]; simpl; [discriminate|].
  assert (forall found',
            describesPath
              [District.mk (District.code district) (District.name district) subcounties]
              found' /\ Descriptor.type found' <> "district" ->
            describesPath
              [District.mk (District.code district) (District.name district)
                 (subcounty :: subcounties)] found' /\
            Descriptor.type found' <> "district") as Hweaken.
  { intros found' [Hpath Htype]. split; [|exact Htype].
    destruct Hpath as [(d & _ & ->)|[(d & s & [<-|[]] & Hs & ->)
                      |[(d & s & p & [<-|[]] & Hs & Hp & ->)
                       |(d & s & p & v & [<-|[]] & Hs & Hp & Hv & ->)]]].
    - exfalso. apply Htype. reflexivity.
    - right. left. eexists _, s. simpl. split; [left; reflexivity|]. simpl in *. auto.
    - right. right. left. eexists _, s, p. simpl. split; [left; reflexivity|]. simpl in *. auto.
    - right. right. right. eexists _, s, p, v. simpl. split; [left; reflexivity|].
      simpl in *. auto. }
  destruct (String.eqb (Subcounty.code subcounty) code && isSubcounty code).
  - intros [= <-]. split; [|discriminate]. right. left.
    eexists _, subcounty. simpl. split; [left; reflexivity|]. simpl. auto.
  - destruct (searchParishes code district subcounty (Subcounty.parishes subcounty))
      as [found'|] eqn:Hparishes.
    + intros [= ->].
      destruct (searchParishes_path _ _ _ _ Hparishes) as [(p & Hin & ->)|(p & v & Hin & Hin' & ->)].
      * split; [|discriminate]. right. right. left. eexists _, subcounty, p. simpl.
        split; [left; reflexivity|]. simpl. auto.
      * split; [|discriminate]. right. right. right. eexists _, subcounty, p, v. simpl.
        split; [left; reflexivity|]. simpl. auto.
    + intros Hrest. apply Hweaken, IH, Hrest.
Qed.

Lemma searchDistricts_path districts found :
  searchDistricts code districts = Some found -> describesPath districts found.
Proof.
  induction districts as [|district districts IH]; simpl; [discriminate|].
  assert (forall found', describesPath districts found' ->
                         describesPath (district :: districts) found') as Hweaken.
  { unfold describesPath. intros found' Hpath.
    destruct Hpath as [(d & Hd & ->)|[(d & s & Hd & Hs & ->)
                      |[(d & s & p & Hd & Hs & Hp & ->)
                       |(d & s & p & v & Hd & Hs & Hp & Hv & ->)]]].
    - left. exists d. simpl. auto.
    - right. left. exists d, s. simpl. auto.
    - right. right. left. exists d, s, p. simpl. auto.
    - right. right. right. exists d, s, p, v. simpl. auto. }
  destruct (String.eqb (District.code district) code && isDistrict code).
  - intros [= <-]. left. exists district. simpl. auto.
  - destruct (searchSubcounties code district (District.subcounties district))
      as [found'|] eqn:Hsubcounties.
    + intros [= ->].
      destruct (searchSubcounties_path _ _ _ Hsubcounties) as [Hpath Htype].
      unfold describesPath in *.
      destruct Hpath as [(d & _ & ->)|[(d & s & [<-|[]] & Hs & ->)
                        |[(d & s & p & [<-|[]] & Hs & Hp & ->)
                         |(d & s & p & v & [<-|[]] & Hs & Hp & Hv & ->)]]].
      * exfalso. apply Htype. reflexivity.
      * right. left. exists district, s. simpl in *. auto.
      * right. right. left. exists district, s, p. simpl in *. auto.
      * right. right. right. exists district, s, p, v. simpl in *. auto.
    + intros Hrest. apply Hweaken, IH, Hrest.
Qed.

End ResolverPaths.

(** A code is resolved whenever some node at the depth that its form names
    carries it: a district code that a district has, a subcounty code that a
    subcounty has, and so on down to villages. *)
Theorem getLocationByCode_complete locations districts code :
  Locations.districts locations = Some districts ->
  (isDistrict code = true /\ In code (map District.code districts)) \/
  (isSubcounty code = true /\ In code (map Subcounty.code (subcountiesOf districts))) \/
  (isParish code = true /\ In code (map Parish.code (parishesOf districts))) \/
  (isVillage code = true /\ In code (map Village.code (villagesOf districts))) ->
  exists found, getLocationByCode locations code = Some found /\ Descriptor.code found = code.
Proof.
  intros Hdistricts Hnode.
  assert (code <> "") as Hcode.
  { intros ->. destruct Hnode as [[H _]|[[H _]|[[H _]|[H _]]]]; discriminate H. }
  destruct (searchDistricts_finds code districts Hnode) as [found Hfound].
  exists found. unfold getLocationByCode. rewrite Hdistricts.
  destruct code; [congruence|]. split; [exact Hfound|].
  apply (searchDistricts_Some _ _ _ Hfound).
Qed.

Lemma getLocationByCode_complete_witness :
  exists found, getLocationByCode sampleLocations "D01S02" = Some found /\
                Descriptor.code found = "D01S02".
Proof.
  eapply (getLocationByCode_complete sampleLocations); [reflexivity|].
  right. left. split; [reflexivity|]. left. reflexivity.
Defined.

(** A descriptor that the resolver returns is built from one node of the
    tree and from the nodes above that very node: its [parish], [subcounty]
    and [district] are the names of the node's own ancestors, and a level
    above the node's type is the only thing it leaves out. *)
Theorem getLocationByCode_ancestors locations code found :
  getLocationByCode locations code = Some found ->
  Descriptor.code found = code /\
  exists districts, Locations.districts locations = Some districts /\
                    describesPath districts found.
Proof.
  unfold getLocationByCode.
  destruct (Locations.districts locations) as [districts|]; [|discriminate].
  destruct code as [|c0 code']; [discriminate|].
  intros Hfound. split; [apply (searchDistricts_Some _ _ _ Hfound)|].
  exists districts. split; [reflexivity|]. apply (searchDistricts_path _ _ _ Hfound).
Qed.

Lemma getLocationByCode_ancestors_witness :
  Descriptor.code
    (Descriptor.mk "parish" "D01S02P03" "Namirembe" None (Some "Busaana") (Some "Kayunga"))
  = "D01S02P03".
Proof.
  apply (getLocationByCode_ancestors sampleLocations "D01S02P03"). reflexivity.
Defined.

(** ** The aggregator: order of the records *)

Lemma increment_comm (key key' : string) (obj : gmap string jsValue) :
  increment key (increment key' obj) = increment key' (increment key obj).
Proof.
  destruct (decide (key = key')) as [->|Hne]; [reflexivity|].
  unfold increment, nextCount, setProperty.
  destruct (decide (key = "__proto__")) as [Hk|Hk], (decide (key' = "__proto__")) as [Hk'|Hk'];
    try reflexivity.
  rewrite (lookup_insert_ne obj key' key) by congruence.
  rewrite (lookup_insert_ne obj key key') by congruence.
  apply insert_insert_ne. congruence.
Qed.

Lemma countIf_comm (a b : bool) (n : nat) : countIf a (countIf b n) = countIf b (countIf a n).
Proof. destruct a, b; reflexivity. Qed.

Lemma fold_left_Permutation {A B} (step : B -> A -> B) (same : B -> B -> Prop) :
  (forall b, same b b) ->
  (forall b1 b2 b3, same b1 b2 -> same b2 b3 -> same b1 b3) ->
  (forall b b' a, same b b' -> same (step b a) (step b' a)) ->
  (forall b a a', same (step (step b a) a') (step (step b a') a)) ->
  forall l l', Permutation l l' ->
  forall b b', same b b' -> same (fold_left step l b) (fold_left step l' b').
Proof.
  intros Hrefl Htrans Hstep Hcomm l l' Hperm.
  assert (forall l b b', same b b' -> same (fold_left step l b) (fold_left step l b')) as Hfold.
  { clear l l' Hperm. induction l as [|a l IH]; intros b b' Hsame; simpl; [exact Hsame|].
    apply IH, Hstep, Hsame. }
  induction Hperm as [|a l l' _ IH|a a' l|l l' l'' _ IH _ IH']; intros b b' Hsame; simpl.
  - exact Hsame.
  - apply IH, Hstep, Hsame.
  - apply Hfold. eapply Htrans; [apply Hcomm|]. apply Hstep, Hstep, Hsame.
  - eapply Htrans; [apply IH, Hrefl|apply IH', Hsame].
Qed.

Section OrderFacts.
Context `{NumberBuiltins}.

Lemma healthStep_comm metrics facility facility' :
  healthStep (healthStep metrics facility) facility'
  = healthStep (healthStep metrics facility') facility.
Proof.
  unfold healthStep. cbn.
  rewrite (increment_comm (healthLevelOf facility')), (increment_comm (ownershipOf facility')).
  f_equal; f_equal; apply countIf_comm.
Qed.

Lemma sameCounts_refl m : sameCounts m m.
Proof. repeat split. Qed.

Lemma sameCounts_trans m1 m2 m3 : sameCounts m1 m2 -> sameCounts m2 m3 -> sameCounts m1 m3.
Proof.
  intros (H1 & H2 & H3 & H4 & H5 & H6 & H7) (H1' & H2' & H3' & H4' & H5' & H6' & H7').
  repeat split; congruence.
Qed.

Lemma educationStep_sameCounts m m' facility :
  sameCounts m m' -> sameCounts (educationStep m facility) (educationStep m' facility).
Proof.
  intros (H1 & H2 & H3 & H4 & H5 & H6 & H7). unfold sameCounts, educationStep. cbn.
  rewrite H1, H2, H3, H4, H5, H6, H7. repeat split.
Qed.

Lemma educationStep_comm m facility facility' :
  sameCounts (educationStep (educationStep m facility) facility')
    (educationStep (educationStep m facility') facility).
Proof.
  unfold sameCounts, educationStep. cbn.
  rewrite (increment_comm (educationLevelOf facility')),
    (increment_comm (ownershipOf facility')).
  repeat split. f_equal; apply countIf_comm.
Qed.

(** The counts do not depend on the order of the records.  Reordering the
    input leaves the health aggregate unchanged as a whole, and leaves the
    education aggregate's [totalFacilities], [byLevel], [byOwnership] and
    [infrastructure] (counters and percentages) unchanged; only the
    enrollment sums, which are floating-point sums, and what is derived from
    them may differ. *)
Theorem calculateMetrics_order facilities facilities' location :
  Permutation facilities facilities' ->
  calculateHealthMetrics facilities location = calculateHealthMetrics facilities' location /\
  (let m := calculateEducationMetrics facilities location in
   let m' := calculateEducationMetrics facilities' location in
   Education.totalFacilities m = Education.totalFacilities m' /\
   Education.byLevel m = Education.byLevel m' /\
   Education.byOwnership m = Education.byOwnership m' /\
   Education.infrastructure m = Education.infrastructure m').
Proof.
  intros Hperm. split.
  - unfold calculateHealthMetrics. f_equal.
    apply (fold_left_Permutation healthStep eq).
    + reflexivity.
    + congruence.
    + congruence.
    + intros. apply healthStep_comm.
    + exact Hperm.
    + unfold healthInit. rewrite (Permutation_length Hperm). reflexivity.
  - assert (sameCounts (fold_left educationStep facilities (educationInit facilities))
              (fold_left educationStep facilities' (educationInit facilities'))) as Hsame.
    { apply (fold_left_Permutation educationStep sameCounts).
      - apply sameCounts_refl.
      - apply sameCounts_trans.
      - intros. apply educationStep_sameCounts. assumption.
      - intros. apply educationStep_comm.
      - exact Hperm.
      - unfold educationInit. rewrite (Permutation_length Hperm). apply sameCounts_refl. }
    destruct Hsame as (H1 & H2 & H3 & H4 & _).
    unfold calculateEducationMetrics, educationFinish. cbn.
    rewrite H1, H2, H3, H4. repeat split.
Qed.

End OrderFacts.

Lemma calculateMetrics_order_witness :
  @calculateHealthMetrics referenceBuiltins sampleSchools noLocation
  = @calculateHealthMetrics referenceBuiltins (rev sampleSchools) noLocation.
Proof.
  apply (@calculateMetrics_order referenceBuiltins sampleSchools (rev sampleSchools) noLocation).
  apply Permutation_rev.
Defined.

(** ** The aggregator: derived fields *)

Section DerivedFacts.
Context `{NumberBuiltins}.

(** Over a list that is not empty every percentage field is present, and it
    is the one-decimal text of [counter / totalFacilities * 100] for the
    counter beside it, in both categories. *)
Theorem percentages_present facilities location :
  facilities <> [] ->
  (let m := calculateEducationMetrics facilities location in
   let infra := Education.infrastructure m in
   let total := Education.totalFacilities m in
   Education.electricityPercentage infra
     = Some (percentage (Education.withElectricity infra) total) /\
   Education.waterPercentage infra = Some (percentage (Education.withWater infra) total) /\
   Education.ictLabPercentage infra = Some (percentage (Education.withICTLab infra) total) /\
   Education.libraryPercentage infra
     = Some (percentage (Education.withLibrary infra) total)) /\
  (let m := calculateHealthMetrics facilities location in
   let infra := Health.infrastructure m in
   let serv := Health.services m in
   let total := Health.totalFacilities m in
   Health.electricityPercentage infra
     = Some (percentage (Health.withElectricity infra) total) /\
   Health.waterPercentage infra = Some (percentage (Health.withWater infra) total) /\
   Health.ambulancePercentage infra = Some (percentage (Health.withAmbulance infra) total) /\
   Health.maternityPercentage infra = Some (percentage (Health.withMaternity infra) total) /\
   Health.hivPercentage serv = Some (percentage (Health.offeringHIV serv) total) /\
   Health.maternalPercentage serv = Some (percentage (Health.offeringMaternal serv) total) /\
   Health.childHealthPercentage serv
     = Some (percentage (Health.offeringChildHealth serv) total) /\
   Health.immunizationPercentage serv
     = Some (percentage (Health.offeringImmunization serv) total)).
Proof.
  intros Hne.
  assert ((0 <? length facilities) = true) as Hpos.
  { destruct facilities; [congruence|reflexivity]. }
  split.
  - unfold calculateEducationMetrics.
    destruct (educationFold_frame facilities (educationInit facilities)) as (Ht & _).
    set (m := fold_left educationStep facilities (educationInit facilities)) in *.
    simpl in Ht. unfold educationFinish. rewrite Ht, Hpos. cbn. repeat split.
  - unfold calculateHealthMetrics.
    destruct (healthFold_frame facilities (healthInit facilities)) as (Ht & _).
    set (m := fold_left healthStep facilities (healthInit facilities)) in *.
    simpl in Ht. unfold healthFinish. rewrite Ht, Hpos. cbn. repeat split.
Qed.

(** The gaps of an aggregate are read off its own fields.  An education
    aggregate reports an electricity gap exactly when its electricity
    percentage is there and reads below the target of 100, and a
    pupil-teacher gap exactly when its ratio is there and reads above the
    benchmark of 40; a health aggregate reports the electricity gap alone.
    There is at most one gap of each type, electricity first. *)
Theorem gaps_reported facilities location :
  (let m := calculateEducationMetrics facilities location in
   Education.gaps m
   = electricityGap (Education.electricityPercentage (Education.infrastructure m)) 100
     ++ pupilTeacherGap (Education.pupilTeacherRatio (Education.ratios m)) 40) /\
  (let m := calculateHealthMetrics facilities location in
   Health.gaps m
   = electricityGap (Health.electricityPercentage (Health.infrastructure m)) 100) /\
  (forall pct target gap,
     In gap (electricityGap pct target) <->
     exists current, pct = Some current /\ (toNumber current <? target)%float = true /\
       gap = Gap.mk "electricity" current (Some target) None
               (getSeverity (toNumber current) target)) /\
  (forall ratio benchmark gap,
     In gap (pupilTeacherGap ratio benchmark) <->
     exists current, ratio = Some current /\ (benchmark <? toNumber current)%float = true /\
       gap = Gap.mk "pupil_teacher_ratio" current None (Some benchmark)
               (getSeverity benchmark (toNumber current))).
Proof.
  split; [|split; [|split]].
  - unfold calculateEducationMetrics.
    destruct (educationFold_frame facilities (educationInit facilities)) as (_ & _ & Hg & _).
    set (m := fold_left educationStep facilities (educationInit facilities)) in *.
    simpl in Hg. unfold educationFinish. cbn. rewrite Hg. reflexivity.
  - unfold calculateHealthMetrics.
    destruct (healthFold_frame facilities (healthInit facilities)) as (_ & Hg & _).
    set (m := fold_left healthStep facilities (healthInit facilities)) in *.
    simpl in Hg. unfold healthFinish. cbn. rewrite Hg. reflexivity.
  - intros pct target gap. unfold electricityGap. split.
    + destruct pct as [current|]; [|intros []].
      destruct (toNumber current <? target)%float eqn:Hlt; [|intros []].
      intros [<-|[]]. exists current. auto.
    + intros (current & -> & -> & ->). left. reflexivity.
  - intros ratio benchmark gap. unfold pupilTeacherGap. split.
    + destruct ratio as [current|]; [|intros []].
      destruct (benchmark <? toNumber current)%float eqn:Hlt; [|intros []].
      intros [<-|[]]. exists current. auto.
    + intros (current & -> & -> & ->). left. reflexivity.
Qed.


End DerivedFacts.

Lemma percentages_present_witness :
  Education.electricityPercentage
    (Education.infrastructure
       (@calculateEducationMetrics referenceBuiltins sampleSchools noLocation))
  = Some "66.7".
Proof.
  pose proof (@percentages_present referenceBuiltins sampleSchools noLocation
                ltac:(discriminate)) as [(Hpct & _) _].
  rewrite Hpct. vm_compute. reflexivity.
Defined.

(** ** Subcounty breakdown: ties *)

Lemma insertBy_filter {A} (compare : A -> A -> Z) (keep : A -> bool) (x : A) (l : list A) :
  (forall y, (0 < compare x y)%Z -> keep x = true -> keep y = false) ->
  List.filter keep (insertBy compare x l) = List.filter keep (x :: l).
Proof.
  intros Hapart. induction l as [|y l IH]; [reflexivity|].
  simpl insertBy. destruct (Z.ltb_spec 0 (compare x y)) as [Hlt|_]; [|reflexivity].
  simpl. simpl in IH. rewrite IH.
  destruct (keep x) eqn:Hx; [|reflexivity].
  rewrite (Hapart y Hlt eq_refl). reflexivity.
Qed.

(** The sort does not reorder entries of one count. *)
Lemma sortBy_compareEntries_stable (count : nat) (entries : list BreakdownEntry.t) :
  List.filter (fun entry => BreakdownEntry.facilityCount entry =? count)
    (sortBy compareEntries entries)
  = List.filter (fun entry => BreakdownEntry.facilityCount entry =? count) entries.
Proof.
  induction entries as [|entry entries IH]; [reflexivity|].
  simpl sortBy. rewrite insertBy_filter.
  - simpl. rewrite IH. reflexivity.
  - intros other Hlt Hkeep. unfold compareEntries in Hlt.
    apply Nat.eqb_eq in Hkeep. apply Nat.eqb_neq. lia.
Qed.

Lemma groupStep_keys subcountyMap facility :
  map fst (groupStep subcountyMap facility)
  = noteLabel (map fst subcountyMap) (subcountyOf facility).
Proof.
  unfold groupStep, noteLabel. rewrite mapUpdate_keys.
  assert (mapHas (subcountyOf facility) subcountyMap
          = existsb (fun known => String.eqb known (subcountyOf facility))
              (map fst subcountyMap)) as Hhas.
  { unfold mapHas. induction subcountyMap as [|[k v] m IH]; simpl; [reflexivity|].
    rewrite IH. reflexivity. }
  rewrite <- Hhas. destruct (mapHas (subcountyOf facility) subcountyMap) eqn:Hyes.
  - reflexivity.
  - rewrite mapSet_fresh, map_app; [reflexivity|].
    rewrite <- mapHas_spec, Hyes. discriminate.
Qed.

Lemma groupFold_keys facilities :
  forall subcountyMap,
    map fst (fold_left groupStep facilities subcountyMap)
    = fold_left noteLabel (map subcountyOf facilities) (map fst subcountyMap).
Proof.
  induction facilities as [|facility facilities IH]; intros subcountyMap; simpl.
  - reflexivity.
  - rewrite IH, groupStep_keys. reflexivity.
Qed.

Section TieFacts.
Context `{NumberBuiltins}.

(** Entries of equal [facilityCount] stand in the order in which their
    labels are first seen in the input: for every count, the labels of the
    entries of that count, read off the breakdown in order, are the
    first-seen labels whose group has that many records, in first-seen
    order. *)
Theorem breakdown_ties facilities metric (count : nat) :
  map BreakdownEntry.location
    (List.filter (fun entry => BreakdownEntry.facilityCount entry =? count)
       (getSubcountyBreakdown facilities metric))
  = List.filter
      (fun label =>
         length (List.filter (fun facility => String.eqb (subcountyOf facility) label)
                   facilities) =? count)
      (firstSeen (map subcountyOf facilities)).
Proof.
  pose proof (grouped_fold facilities [] [] grouped_empty) as Hgrouped.
  rewrite app_nil_l in Hgrouped.
  destruct Hgrouped as (_ & Hgroups & _).
  unfold getSubcountyBreakdown, firstSeen.
  rewrite sortBy_compareEntries_stable.
  change (@nil string) with (map fst (@nil (string * SubcountyGroup.t))).
  rewrite <- groupFold_keys.
  set (subcountyMap := fold_left groupStep facilities []) in *.
  clearbody subcountyMap.
  induction subcountyMap as [|[key group] subcountyMap IH]; [reflexivity|].
  destruct (Hgroups key group (or_introl eq_refl)) as [Hname Hfacilities].
  assert (forall key' group', In (key', group') subcountyMap ->
            SubcountyGroup.name group' = key' /\
            SubcountyGroup.facilities group'
            = List.filter (fun facility => String.eqb (subcountyOf facility) key') facilities)
    as Hrest by (intros; apply Hgroups; right; assumption).
  specialize (IH Hrest).
  cbn [map List.filter fst snd breakdownEntry BreakdownEntry.facilityCount].
  rewrite <- Hfacilities.
  destruct (length (SubcountyGroup.facilities group) =? count).
  - cbn [map]. rewrite breakdownEntry_location, Hname, IH. reflexivity.
  - exact IH.
Qed.

End TieFacts.

(** ** The cache-key hash *)

Local Open Scope Z_scope.

Lemma toInt32_range (z : Z) : - 2 ^ 31 <= toInt32 z < 2 ^ 31.
Proof.
  unfold toInt32. pose proof (Z.mod_pos_bound (z + 2 ^ 31) (2 ^ 32) ltac:(lia)). lia.
Qed.

Lemma toInt32_mod (z : Z) : toInt32 z mod 2 ^ 32 = z mod 2 ^ 32.
Proof.
  unfold toInt32.
  rewrite <- (Zdiv.Zminus_mod_idemp_l ((z + 2 ^ 31) mod 2 ^ 32)).
  rewrite Z.mod_mod by lia. rewrite Zdiv.Zminus_mod_idemp_l.
  f_equal. lia.
Qed.

Lemma toInt32_congruent (a b : Z) : a mod 2 ^ 32 = b mod 2 ^ 32 -> toInt32 a = toInt32 b.
Proof.
  intros Hmod. unfold toInt32.
  rewrite <- (Zdiv.Zplus_mod_idemp_l a), <- (Zdiv.Zplus_mod_idemp_l b), Hmod. reflexivity.
Qed.

Lemma toInt32_small (z : Z) : - 2 ^ 31 <= z < 2 ^ 31 -> toInt32 z = z.
Proof. intros Hrange. unfold toInt32. rewrite Z.mod_small by lia. lia. Qed.

Lemma hashStep_arithmetic (hash : Z) (c : ascii) :
  hashStep hash c = toInt32 (31 * hash + charCode c).
Proof.
  unfold hashStep, bitAnd, shiftLeft. rewrite Z.land_diag.
  apply toInt32_congruent.
  rewrite Z.shiftl_mul_pow2 by lia.
  rewrite <- Zdiv.Zplus_mod_idemp_l, <- Zdiv.Zminus_mod_idemp_l, toInt32_mod.
  rewrite <- (Zdiv.Zmult_mod_idemp_l (toInt32 hash)), toInt32_mod.
  rewrite Zdiv.Zmult_mod_idemp_l, Zdiv.Zminus_mod_idemp_l, Zdiv.Zplus_mod_idemp_l.
  f_equal. lia.
Qed.

Lemma polynomial31_congruent (str : string) :
  forall a b, a mod 2 ^ 32 = b mod 2 ^ 32 ->
              polynomial31 str a mod 2 ^ 32 = polynomial31 str b mod 2 ^ 32.
Proof.
  induction str as [|c str IH]; intros a b Hmod; simpl; [exact Hmod|].
  apply IH.
  rewrite <- Zdiv.Zplus_mod_idemp_l, <- Zdiv.Zmult_mod_idemp_r, Hmod.
  rewrite Zdiv.Zmult_mod_idemp_r, Zdiv.Zplus_mod_idemp_l. reflexivity.
Qed.

Lemma hashLoop_polynomial (str : string) :
  forall hash, hashLoop str (toInt32 hash) = toInt32 (polynomial31 str hash).
Proof.
  induction str as [|c str IH]; intros hash; simpl; [reflexivity|].
  rewrite hashStep_arithmetic, IH. apply toInt32_congruent, polynomial31_congruent.
  rewrite <- Zdiv.Zplus_mod_idemp_l, <- Zdiv.Zmult_mod_idemp_r, toInt32_mod.
  rewrite Zdiv.Zmult_mod_idemp_r, Zdiv.Zplus_mod_idemp_l. reflexivity.
Qed.

(** The shift, subtract and mask loop of [simpleHash] computes the
    polynomial [c0 * 31^(n-1) + ... + c(n-1)] of the character codes, reduced
    modulo 2^32 into the signed 32-bit range. *)
Theorem simpleHash_polynomial (str : string) :
  hashLoop str 0 = toInt32 (polynomial31 str 0) /\
  - 2 ^ 31 <= hashLoop str 0 < 2 ^ 31 /\
  simpleHash str = toString36 (Z.abs (toInt32 (polynomial31 str 0))).
Proof.
  assert (hashLoop str 0 = toInt32 (polynomial31 str 0)) as Hloop.
  { rewrite <- hashLoop_polynomial. rewrite toInt32_small by lia. reflexivity. }
  split; [exact Hloop|]. split.
  - rewrite Hloop. apply toInt32_range.
  - unfold simpleHash. rewrite Hloop. reflexivity.
Qed.

Lemma digit36_value (d : Z) :
  0 <= d < 36 -> digitValue36 (digit36 d) = d /\ isBase36Digit (digit36 d) = true.
Proof.
  intros Hd. unfold digitValue36, isBase36Digit, digit36.
  destruct (Z.ltb_spec d 10).
  - rewrite nat_ascii_embedding by lia.
    rewrite Z2Nat.id by lia.
    destruct (Z.ltb_spec (48 + d) 58); [|lia]. split; [lia|].
    apply orb_true_iff. left. apply andb_true_iff. split; apply Nat.leb_le; lia.
  - rewrite nat_ascii_embedding by lia.
    rewrite Z2Nat.id by lia.
    destruct (Z.ltb_spec (87 + d) 58); [lia|]. split; [lia|].
    apply orb_true_iff. right. apply andb_true_iff. split; apply Nat.leb_le; lia.
Qed.

Lemma valueBase36_shift (text : string) :
  forall start, valueBase36 text start = start * 36 ^ Z.of_nat (String.length text)
                                         + valueBase36 text 0.
Proof.
  induction text as [|c text IH]; intros start.
  - simpl. lia.
  - cbn [valueBase36 String.length]. rewrite IH, (IH (36 * 0 + digitValue36 c)).
    rewrite Nat2Z.inj_succ, Z.pow_succ_r by lia. lia.
Qed.

Lemma toString36_digits_spec (fuel : nat) :
  forall n text k,
    0 <= n < 2 ^ Z.of_nat fuel -> (1 <= k)%nat -> n < 36 ^ Z.of_nat k -> (1 <= fuel)%nat ->
    let result := toString36_digits fuel n text in
    valueBase36 result 0 = n * 36 ^ Z.of_nat (String.length text) + valueBase36 text 0 /\
    (String.length text < String.length result <= k + String.length text)%nat /\
    (allBase36 text = true -> allBase36 result = true).
Proof.
  induction fuel as [|fuel IH]; intros n text k Hn Hk Hnk Hfuel; [lia|].
  cbn zeta. cbn [toString36_digits].
  pose proof (Z.mod_pos_bound n 36 ltac:(lia)) as Hmod.
  destruct (digit36_value (n mod 36) Hmod) as [Hvalue Hdigit].
  destruct (Z.ltb_spec n 36) as [Hsmall|Hbig].
  - rewrite Z.mod_small in * by lia.
    cbn [valueBase36 String.length allBase36]. rewrite valueBase36_shift, Hvalue, Hdigit.
    split; [lia|]. split; [lia|]. intros ->. reflexivity.
  - assert (2 <= k)%nat as Hk2.
    { destruct k as [|[|k]]; [lia| |lia]. simpl in Hnk. lia. }
    assert (1 <= fuel)%nat as Hfuel'.
    { destruct fuel; [|lia]. simpl in Hn. lia. }
    destruct (IH (n / 36) (String (digit36 (n mod 36)) text) (k - 1)%nat) as (Hv & Hl & Ha).
    + split; [apply Z.div_pos; lia|].
      apply Z.div_lt_upper_bound; [lia|].
      rewrite Nat2Z.inj_succ, Z.pow_succ_r in Hn by lia. lia.
    + lia.
    + apply Z.div_lt_upper_bound; [lia|].
      replace (Z.of_nat k) with (Z.succ (Z.of_nat (k - 1))) in Hnk by lia.
      rewrite Z.pow_succ_r in Hnk by lia. lia.
    + exact Hfuel'.
    + cbn [valueBase36 String.length allBase36] in *.
      rewrite Hv. rewrite (valueBase36_shift text (36 * 0 + digitValue36 (digit36 (n mod 36)))).
      rewrite Hvalue, Nat2Z.inj_succ, Z.pow_succ_r by lia.
      split; [|split].
      * pose proof (Z.div_mod n 36 ltac:(lia)). nia.
      * lia.
      * intros Htext. apply Ha. rewrite Hdigit, Htext. reflexivity.
Qed.

Lemma toString36_spec (n : Z) (k : nat) :
  0 <= n -> (1 <= k)%nat -> n < 36 ^ Z.of_nat k ->
  valueBase36 (toString36 n) 0 = n /\
  (1 <= String.length (toString36 n) <= k)%nat /\
  allBase36 (toString36 n) = true.
Proof.
  intros Hn Hk Hnk. unfold toString36.
  destruct (toString36_digits_spec (S (Z.to_nat (Z.log2 n))) n "" k) as (Hv & Hl & Ha);
    try assumption; try lia.
  - split; [exact Hn|].
    rewrite Nat2Z.inj_succ, Z2Nat.id by apply Z.log2_nonneg.
    destruct (Z.eq_dec n 0) as [->|Hpos]; [simpl; lia|].
    apply Z.log2_spec. lia.
  - cbn [String.length valueBase36] in Hv, Hl.
    change (Z.of_nat 0) with 0 in Hv. rewrite Z.pow_0_r in Hv.
    split; [lia|]. split; [lia|]. apply Ha. reflexivity.
Qed.

(** The text of the hash is never empty and has at most six characters, all
    of them digits or lower-case letters, and read in base 36 it is the
    absolute value of the 32-bit hash. *)
Theorem simpleHash_text (str : string) :
  valueBase36 (simpleHash str) 0 = Z.abs (hashLoop str 0) /\
  (1 <= String.length (simpleHash str) <= 6)%nat /\
  allBase36 (simpleHash str) = true.
Proof.
  unfold simpleHash. apply toString36_spec; [lia|lia|].
  assert (- 2 ^ 31 <= hashLoop str 0 < 2 ^ 31) as Hrange.
  { rewrite <- (toInt32_small 0) by lia. rewrite hashLoop_polynomial. apply toInt32_range. }
  change (36 ^ Z.of_nat 6) with 2176782336. lia.
Qed.

Local Close Scope Z_scope.

(** ** The rate limiter *)

Lemma isRateLimited_within (now : Z) (m : gmap string RateEntry.t) (ip : string)
    (count : nat) (reset : Z) :
  m !! ip = Some (RateEntry.mk count reset) -> (now <= reset)%Z ->
  isRateLimited now m ip
  = if RATE_LIMIT <=? count then (true, m)
    else (false, <[ip := RateEntry.mk (count + 1) reset]> m).
Proof.
  intros Hentry Hnow. unfold isRateLimited. rewrite Hentry. cbn.
  destruct (Z.ltb_spec reset now); [lia|reflexivity].
Qed.

Lemma rateRun_within (times : list Z) :
  forall (m : gmap string RateEntry.t) (ip : string) (count : nat) (reset : Z),
    m !! ip = Some (RateEntry.mk count reset) -> count <= RATE_LIMIT ->
    Forall (fun now => (now <= reset)%Z) times ->
    (rateRun times m ip).1
    = replicate (min (RATE_LIMIT - count) (length times)) false
      ++ replicate (length times - (RATE_LIMIT - count)) true /\
    (rateRun times m ip).2 !! ip
    = Some (RateEntry.mk (min RATE_LIMIT (count + length times)) reset).
Proof.
  induction times as [|now times IH]; intros m ip count reset Hentry Hcount Htimes.
  - cbn [rateRun fst snd length].
    replace (min (RATE_LIMIT - count) 0) with 0 by lia.
    replace (min RATE_LIMIT (count + 0)) with count by lia.
    split; [reflexivity|exact Hentry].
  - inversion Htimes as [|? ? Hnow Hrest]; subst.
    cbn [rateRun]. rewrite (isRateLimited_within _ _ _ _ _ Hentry Hnow).
    destruct (Nat.leb_spec RATE_LIMIT count) as [Hfull|Hroom].
    + destruct (IH m ip count reset Hentry Hcount Hrest) as [Hverdicts Hfinal].
      destruct (rateRun times m ip) as [verdicts final]. cbn [fst snd] in *.
      assert (RATE_LIMIT - count = 0) as Hzero by lia.
      rewrite Hverdicts, Hfinal, Hzero. cbn [length].
      rewrite !Nat.min_0_l, !Nat.sub_0_r. cbn [replicate app].
      split; [reflexivity|]. f_equal. f_equal. lia.
    + destruct (IH (<[ip := RateEntry.mk (count + 1) reset]> m) ip (count + 1) reset)
        as [Hverdicts Hfinal]; [apply lookup_insert_eq|lia|exact Hrest|].
      destruct (rateRun times (<[ip := RateEntry.mk (count + 1) reset]> m) ip)
        as [verdicts final]. cbn [fst snd] in *.
      rewrite Hverdicts, Hfinal. cbn [length].
      replace (min (RATE_LIMIT - count) (S (length times)))
        with (S (min (RATE_LIMIT - (count + 1)) (length times))) by lia.
      replace (S (length times) - (RATE_LIMIT - count))
        with (length times - (RATE_LIMIT - (count + 1))) by lia.
      split; [reflexivity|]. f_equal. f_equal. lia.
Qed.

(** A client without an entry that calls at time [start] and then at any
    times up to [start + 60000] is admitted on its first 20 calls and refused
    on every later one; the calls of the window leave its counter at the
    number of calls, capped at 20. *)
Theorem isRateLimited_window (m : gmap string RateEntry.t) (ip : string)
    (start : Z) (times : list Z) :
  m !! ip = None ->
  Forall (fun now => (now <= start + RATE_WINDOW)%Z) times ->
  (rateRun (start :: times) m ip).1
  = replicate (min RATE_LIMIT (S (length times))) false
    ++ replicate (S (length times) - RATE_LIMIT) true /\
  (rateRun (start :: times) m ip).2 !! ip
  = Some (RateEntry.mk (min RATE_LIMIT (S (length times))) (start + RATE_WINDOW)).
Proof.
  intros Hnone Htimes. cbn [rateRun].
  assert (isRateLimited start m ip
          = (false, <[ip := RateEntry.mk 1 (start + RATE_WINDOW)]> m)) as ->.
  { unfold isRateLimited. rewrite Hnone. cbn.
    destruct (Z.ltb_spec (start + RATE_WINDOW) start); [unfold RATE_WINDOW in *; lia|].
    reflexivity. }
  destruct (rateRun_within times (<[ip := RateEntry.mk 1 (start + RATE_WINDOW)]> m) ip 1
              (start + RATE_WINDOW)) as [Hverdicts Hfinal];
    [apply lookup_insert_eq|unfold RATE_LIMIT; lia|exact Htimes|].
  destruct (rateRun times (<[ip := RateEntry.mk 1 (start + RATE_WINDOW)]> m) ip)
    as [verdicts final]. cbn [fst snd] in *.
  rewrite Hverdicts, Hfinal.
  replace (min RATE_LIMIT (S (length times)))
    with (S (min (RATE_LIMIT - 1) (length times))) by (unfold RATE_LIMIT; lia).
  replace (S (length times) - RATE_LIMIT) with (length times - (RATE_LIMIT - 1))
    by (unfold RATE_LIMIT; lia).
  split; [reflexivity|]. f_equal.
Qed.

(** A call leaves the entries of the other clients alone; it keeps every
    counter between 1 and 20; and once the window of a client has passed, its
    next call is admitted and opens a new window of 60000 ms with the counter
    at 1. *)
Theorem isRateLimited_invariant (now : Z) (m : gmap string RateEntry.t) (ip : string) :
  (forall other, other <> ip -> (isRateLimited now m ip).2 !! other = m !! other) /\
  (map_Forall (fun _ entry => 1 <= RateEntry.count entry <= RATE_LIMIT) m ->
   map_Forall (fun _ entry => 1 <= RateEntry.count entry <= RATE_LIMIT)
     (isRateLimited now m ip).2) /\
  (forall entry, m !! ip = Some entry -> (RateEntry.resetTime entry < now)%Z ->
     isRateLimited now m ip
     = (false, <[ip := RateEntry.mk 1 (now + RATE_WINDOW)]> m)).
Proof.
  split; [|split].
  - intros other Hother. unfold isRateLimited.
    destruct (_ <? now)%Z; [apply lookup_insert_ne; congruence|].
    destruct (RATE_LIMIT <=? _); [reflexivity|apply lookup_insert_ne; congruence].
  - intros Hall. unfold isRateLimited.
    destruct (_ <? now)%Z.
    + apply map_Forall_insert_2; [unfold RATE_LIMIT; simpl; lia|exact Hall].
    + destruct (Nat.leb_spec RATE_LIMIT
                  (RateEntry.count match m !! ip with
                                   | Some entry => entry
                                   | None => RateEntry.mk 0 (now + RATE_WINDOW)
                                   end)) as [_|Hroom]; [exact Hall|].
      apply map_Forall_insert_2; [|exact Hall]. simpl. lia.
  - intros entry Hentry Hpassed. unfold isRateLimited. rewrite Hentry.
    destruct (Z.ltb_spec (RateEntry.resetTime entry) now); [reflexivity|lia].
Qed.

Lemma isRateLimited_window_witness :
  (rateRun (1000%Z :: replicate 21 2000%Z) ∅ "10.0.0.1").1
  = replicate 20 false ++ replicate 2 true.
Proof.
  refine (proj1 (isRateLimited_window ∅ "10.0.0.1" 1000 (replicate 21 2000%Z) _ _)).
  - apply lookup_empty.
  - apply Forall_forall. intros now Hin. apply elem_of_replicate in Hin.
    destruct Hin as [-> _]. unfold RATE_WINDOW. lia.
Defined.

(** ** Request validation *)

Lemma truthyField_object (v : json) (key : string) :
  truthyField v key = true ->
  exists fields value, v = JObj fields /\ fields !! key = Some value /\ truthyJson value = true.
Proof.
  unfold truthyField, getField. destruct v as [| | | | |fields]; try discriminate.
  destruct (fields !! key) as [value|] eqn:Hkey; [|discriminate].
  intros Htruthy. exists fields, value. auto.
Qed.

(** [validateQuery] throws on [null] only, and it accepts exactly the
    objects whose [query] is a string of 3 to 500 characters, whose
    [category] is the string [health] or [education] and whose [location] is
    an object with a truthy [district]. *)
Theorem validateQuery_accepts (body : json) :
  (validateQuery body = None <-> body = JNull) /\
  (validateQuery body = Some Valid <->
   exists fields query category location district,
     body = JObj fields /\
     fields !! "query" = Some (JStr query) /\ 3 <= String.length query <= 500 /\
     fields !! "category" = Some (JStr category) /\
     (category = "health" \/ category = "education") /\
     fields !! "location" = Some (JObj location) /\
     location !! "district" = Some district /\ truthyJson district = true).
Proof.
  split.
  - destruct body; simpl; split; congruence.
  - split.
    + intros Hvalid.
      destruct body as [| | | | |fields]; try discriminate.
      unfold validateQuery, truthyField, getField in Hvalid.
      destruct (fields !! "query") as [[| | |[|c query]| |]|] eqn:Hquery; try discriminate.
      destruct (Nat.ltb_spec (String.length (String c query)) 3); [discriminate|].
      destruct (Nat.ltb_spec 500 (String.length (String c query))); [discriminate|].
      destruct (fields !! "category") as [[| | |category| |]|] eqn:Hcategory;
        try (rewrite ?orb_true_r in Hvalid; discriminate).
      destruct (bool_decide_reflect (category ∈ ["health"; "education"])) as [Hin|];
        [|rewrite orb_true_r in Hvalid; discriminate].
      destruct (truthyJson (JStr category)); cbn [negb orb] in Hvalid; [|discriminate].
      destruct (fields !! "location") as [[| | | | |inner]|] eqn:Hlocation;
        try (rewrite ?orb_true_r in Hvalid; discriminate).
      destruct (inner !! "district") as [district|] eqn:Hdistrict;
        [|rewrite orb_true_r in Hvalid; discriminate].
      destruct (truthyJson district) eqn:Htruthy;
        [|rewrite orb_true_r in Hvalid; discriminate].
      exists fields, (String c query), category, inner, district.
      repeat split; try assumption; try lia.
      apply list_elem_of_In in Hin. simpl in Hin.
      destruct Hin as [<-|[<-|[]]]; auto.
    + intros (fields & query & category & location & district & -> & Hquery & Hlength
              & Hcategory & Hknown & Hlocation & Hdistrict & Htruthy).
      unfold validateQuery, truthyField, getField. rewrite Hquery.
      destruct query as [|c query]; [simpl in Hlength; lia|].
      destruct (Nat.ltb_spec (String.length (String c query)) 3); [lia|].
      destruct (Nat.ltb_spec 500 (String.length (String c query))); [lia|].
      rewrite Hcategory, Hlocation, Hdistrict, Htruthy.
      destruct Hknown as [-> | ->]; reflexivity.
Qed.

Section ValidatedRequests.
Context `{NumberBuiltins}.

(** The category of an accepted request is one that [calculateMetrics]
    knows: the handler never gets the empty aggregate for it. *)
Theorem validateQuery_category_known (body : json) :
  validateQuery body = Some Valid ->
  exists category,
    getField body "category" = Some (JStr category) /\
    forall facilities location,
      calculateMetrics facilities location category <> EmptyAggregate.
Proof.
  intros Hvalid.
  destruct body as [| | | | |fields]; try discriminate.
  unfold validateQuery, truthyField, getField in *.
  destruct (fields !! "query") as [[| | |[|c query]| |]|]; try discriminate.
  destruct (_ <? 3); [discriminate|]. destruct (500 <? _); [discriminate|].
  destruct (fields !! "category") as [[| | |category| |]|];
    try (rewrite ?orb_true_r in Hvalid; discriminate).
  destruct (bool_decide_reflect (category ∈ ["health"; "education"])) as [Hin|];
    [|rewrite orb_true_r in Hvalid; discriminate].
  exists category. split; [reflexivity|]. intros facilities location.
  apply list_elem_of_In in Hin. simpl in Hin.
  destruct Hin as [<-|[<-|[]]]; discriminate.
Qed.

End ValidatedRequests.

Lemma validateQuery_category_known_witness :
  exists category,
    getField (JObj (<["query" := JStr "schools without water"]>
                      (<["category" := JStr "education"]>
                         (<["location" := JObj (<["district" := JStr "D01"]> ∅)]> ∅))))
      "category" = Some (JStr category) /\
    forall facilities location,
      @calculateMetrics referenceBuiltins facilities location category <> EmptyAggregate.
Proof.
  apply (@validateQuery_category_known referenceBuiltins). vm_compute. reflexivity.
Defined.

(** ** Response validation *)

Lemma copyTruthy_spec (response : json) (key : string) (cleaned : gmap string json) :
  copyTruthy response key cleaned
  = match truthyPart (getField response key) with
    | Some value => <[key := value]> cleaned
    | None => cleaned
    end.
Proof.
  unfold copyTruthy, truthyPart.
  destruct (getField response key) as [value|]; [|reflexivity].
  destruct (truthyJson value); reflexivity.
Qed.

Lemma copyTruthy_lookup_ne (response : json) (key key' : string) (cleaned : gmap string json) :
  key <> key' -> copyTruthy response key cleaned !! key' = cleaned !! key'.
Proof.
  intros Hne. rewrite copyTruthy_spec.
  destruct (truthyPart _); [apply lookup_insert_ne; exact Hne|reflexivity].
Qed.

Lemma copyTruthy_lookup_eq (response : json) (key : string) (cleaned : gmap string json) :
  cleaned !! key = None ->
  copyTruthy response key cleaned !! key = truthyPart (getField response key).
Proof.
  intros Hnone. rewrite copyTruthy_spec.
  destruct (truthyPart _); [apply lookup_insert_eq|exact Hnone].
Qed.

Lemma copyTruthy_same (response response' : json) (key : string) (cleaned : gmap string json) :
  truthyPart (getField response' key) = truthyPart (getField response key) ->
  copyTruthy response' key cleaned = copyTruthy response key cleaned.
Proof. intros Hsame. rewrite !copyTruthy_spec, Hsame. reflexivity. Qed.

Lemma truthyPart_idempotent (field : option json) :
  truthyPart (truthyPart field) = truthyPart field.
Proof.
  unfold truthyPart. destruct field as [value|]; [|reflexivity].
  destruct (truthyJson value) eqn:Htruthy; [rewrite Htruthy|]; reflexivity.
Qed.

Lemma truthyPart_truthy (field : option json) (value : json) :
  truthyPart field = Some value -> truthyJson value = true.
Proof.
  unfold truthyPart. destruct field as [v|]; [|discriminate].
  destruct (truthyJson v) eqn:Htruthy; [|discriminate]. congruence.
Qed.

Lemma copyDefined_lookup_ne (response : json) (key key' : string) (cleaned : gmap string json) :
  key <> key' -> copyDefined response key cleaned !! key' = cleaned !! key'.
Proof.
  intros Hne. unfold copyDefined.
  destruct (getField _ _); [apply lookup_insert_ne; exact Hne|reflexivity].
Qed.

Lemma copyDefined_lookup_eq (response : json) (key : string) (cleaned : gmap string json) :
  cleaned !! key = None ->
  copyDefined response key cleaned !! key = getField response key.
Proof.
  intros Hnone. unfold copyDefined.
  destruct (getField _ _); [apply lookup_insert_eq|exact Hnone].
Qed.

Lemma validTypes_cases (type : string) :
  type ∈ validTypes ->
  type = "answer" \/ type = "filter" \/ type = "comparison" \/ type = "clarification".
Proof.
  intros Hin. apply list_elem_of_In in Hin. simpl in Hin.
  destruct Hin as [<-|[<-|[<-|[<-|[]]]]]; auto.
Qed.

Lemma getDefaultView_truthy (type : string) : truthyJson (JStr (getDefaultView type)) = true.
Proof.
  unfold getDefaultView. destruct (viewMap !! type) as [[|c view]|]; reflexivity.
Qed.

(** What [validateResponse] returns, by cases. *)
Lemma validateResponse_cases (response : json) :
  response <> JNull ->
  validateResponse response = Some missingFieldsResponse \/
  exists type text view,
    type ∈ validTypes /\ truthyJson text = true /\ truthyJson view = true /\
    validateResponse response
    = Some (addTypeFields type response (baseResponse type text view)).
Proof.
  intros Hnull. unfold validateResponse.
  assert (forall result : gmap string json,
             match response with JNull => None | _ => Some result end = Some result) as ->.
  { intros result. destruct response; [congruence|reflexivity..]. }
  destruct (getField response "type") as [type0|]; [|left; reflexivity].
  destruct (getField response "text") as [text|]; [|left; reflexivity].
  destruct (truthyJson type0) eqn:Htype; [|left; reflexivity].
  destruct (truthyJson text) eqn:Htext; [|left; reflexivity].
  cbn [negb orb]. right.
  set (type := match type0 with
               | JStr s => if bool_decide (s ∈ validTypes) then s else "clarification"
               | _ => "clarification"
               end).
  assert (type ∈ validTypes) as Hvalid.
  { subst type. destruct type0 as [| | |s| |]; try (vm_compute; set_solver).
    destruct (bool_decide_reflect (s ∈ validTypes)); [assumption|].
    apply list_elem_of_In. simpl. auto. }
  exists type, text.
  destruct (getField response "suggestedView") as [view|].
  - destruct (truthyJson view) eqn:Hview.
    + exists view. auto.
    + exists (JStr (getDefaultView type)). auto using getDefaultView_truthy.
  - exists (JStr (getDefaultView type)). auto using getDefaultView_truthy.
Qed.

(** What [validateResponse] returns for a response whose three base fields
    are in order. *)
Lemma validateResponse_clean (fields : gmap string json) (type : string) (text view : json) :
  fields !! "type" = Some (JStr type) -> type ∈ validTypes ->
  fields !! "text" = Some text -> truthyJson text = true ->
  fields !! "suggestedView" = Some view -> truthyJson view = true ->
  validateResponse (JObj fields)
  = Some (addTypeFields type (JObj fields) (baseResponse type text view)).
Proof.
  intros Htype Hvalid Htext Htruthy Hview Htruthy'.
  unfold validateResponse, getField. rewrite Htype, Htext, Hview, Htruthy, Htruthy'.
  rewrite (bool_decide_eq_true_2 _ Hvalid).
  assert (truthyJson (JStr type) = true) as ->.
  { apply validTypes_cases in Hvalid. destruct Hvalid as [->|[->|[->| ->]]]; reflexivity. }
  reflexivity.
Qed.

Lemma addTypeFields_base (type : string) (response : json) (cleaned : gmap string json)
    (key : string) :
  key ∈ ["type"; "text"; "suggestedView"] ->
  addTypeFields type response cleaned !! key = cleaned !! key.
Proof.
  intros Hkey. apply list_elem_of_In in Hkey. simpl in Hkey.
  unfold addTypeFields.
  destruct Hkey as [<-|[<-|[<-|[]]]];
    repeat (destruct (String.eqb type _));
    repeat first [ rewrite copyTruthy_lookup_ne by discriminate
                 | rewrite copyDefined_lookup_ne by discriminate
                 | rewrite lookup_insert_ne by discriminate ];
    reflexivity.
Qed.

Lemma copyTruthy_is_Some (response : json) (key key' : string) (cleaned : gmap string json) :
  is_Some (copyTruthy response key cleaned !! key') -> key' = key \/ is_Some (cleaned !! key').
Proof.
  destruct (decide (key = key')) as [<-|Hne]; [auto|].
  rewrite copyTruthy_lookup_ne by exact Hne. auto.
Qed.

Lemma copyDefined_is_Some (response : json) (key key' : string) (cleaned : gmap string json) :
  is_Some (copyDefined response key cleaned !! key') -> key' = key \/ is_Some (cleaned !! key').
Proof.
  destruct (decide (key = key')) as [<-|Hne]; [auto|].
  rewrite copyDefined_lookup_ne by exact Hne. auto.
Qed.

Lemma insert_is_Some (key key' : string) (value : json) (cleaned : gmap string json) :
  is_Some (<[key := value]> cleaned !! key') -> key' = key \/ is_Some (cleaned !! key').
Proof.
  destruct (decide (key = key')) as [<-|Hne]; [auto|].
  rewrite lookup_insert_ne by exact Hne. auto.
Qed.

Ltac split_keys H :=
  repeat first
    [ apply copyTruthy_is_Some in H as [->|H]
    | apply copyDefined_is_Some in H as [->|H]
    | apply insert_is_Some in H as [->|H] ].

Lemma addTypeFields_keys (type : string) (response : json) (cleaned : gmap string json)
    (key : string) :
  type ∈ validTypes -> is_Some (addTypeFields type response cleaned !! key) ->
  key ∈ typeFields type \/ is_Some (cleaned !! key).
Proof.
  intros Hvalid Hkey. apply validTypes_cases in Hvalid.
  destruct Hvalid as [->|[->|[->| ->]]];
    unfold addTypeFields in Hkey; cbn [String.eqb Ascii.eqb Bool.eqb] in Hkey;
    split_keys Hkey; auto; left; apply list_elem_of_In; vm_compute; tauto.
Qed.

Lemma baseResponse_keys (type : string) (text view : json) (key : string) :
  is_Some (baseResponse type text view !! key) -> key ∈ ["type"; "text"; "suggestedView"].
Proof.
  intros Hkey. unfold baseResponse in Hkey. split_keys Hkey;
    try (apply list_elem_of_In; simpl; tauto).
  rewrite lookup_empty in Hkey. destruct Hkey as [? Hkey]. discriminate.
Qed.

(** Whatever the model answered, as long as it is not [null], the handler
    gets an object whose [type] is one of the four response types, whose
    [text] and [suggestedView] are present and truthy, which has
    [suggestions] exactly when it is a clarification, and which has no field
    beyond the three base fields and the fields of its type. *)
Theorem validateResponse_shape (response : json) :
  response <> JNull ->
  exists cleaned type text view,
    validateResponse response = Some cleaned /\
    cleaned !! "type" = Some (JStr type) /\ type ∈ validTypes /\
    cleaned !! "text" = Some text /\ truthyJson text = true /\
    cleaned !! "suggestedView" = Some view /\ truthyJson view = true /\
    (is_Some (cleaned !! "suggestions") <-> type = "clarification") /\
    (forall key, is_Some (cleaned !! key) ->
                 key ∈ ["type"; "text"; "suggestedView"] ++ typeFields type).
Proof.
  intros Hnull.
  destruct (validateResponse_cases response Hnull)
    as [Hmissing|(type & text & view & Hvalid & Htext & Hview & Hresult)].
  - exists missingFieldsResponse, "clarification",
      (JStr "I encountered an issue processing your query. Please try rephrasing it."),
      (JStr "grid").
    split; [exact Hmissing|].
    repeat split; try reflexivity; try (apply list_elem_of_In; simpl; tauto).
    + vm_compute. eauto.
    + intros key Hkey. unfold missingFieldsResponse in Hkey. split_keys Hkey;
        try (apply list_elem_of_In; vm_compute; tauto).
      rewrite lookup_empty in Hkey. destruct Hkey as [? Hkey]. discriminate.
  - exists (addTypeFields type response (baseResponse type text view)), type, text, view.
    assert (forall key,
               is_Some (addTypeFields type response (baseResponse type text view) !! key) ->
               key ∈ ["type"; "text"; "suggestedView"] ++ typeFields type) as Hkeys.
    { intros key Hkey. apply elem_of_app.
      destruct (addTypeFields_keys _ _ _ _ Hvalid Hkey) as [Hin|Hbase]; [right; exact Hin|].
      left. exact (baseResponse_keys _ _ _ _ Hbase). }
    split; [exact Hresult|].
    rewrite !addTypeFields_base by (apply list_elem_of_In; simpl; tauto).
    repeat split; try assumption; try reflexivity.
    + intros Hsuggestions. apply Hkeys in Hsuggestions.
      apply validTypes_cases in Hvalid.
      destruct Hvalid as [->|[->|[->| ->]]]; [| | |reflexivity];
        apply list_elem_of_In in Hsuggestions; vm_compute in Hsuggestions;
        repeat (destruct Hsuggestions as [Hsuggestions|Hsuggestions]; try discriminate);
        contradiction.
    + intros ->. unfold addTypeFields. cbn [String.eqb Ascii.eqb Bool.eqb].
      rewrite lookup_insert_eq. eauto.
Qed.

Lemma baseResponse_lookup_other (type : string) (text view : json) (key : string) :
  key ∉ ["type"; "text"; "suggestedView"] -> baseResponse type text view !! key = None.
Proof.
  intros Hkey. destruct (baseResponse type text view !! key) eqn:Hlookup; [|reflexivity].
  exfalso. apply Hkey. apply (baseResponse_keys type text view). eauto.
Qed.

Lemma copyDefined_same (response response' : json) (key : string) (cleaned : gmap string json) :
  getField response' key = getField response key ->
  copyDefined response' key cleaned = copyDefined response key cleaned.
Proof. intros Hsame. unfold copyDefined. rewrite Hsame. reflexivity. Qed.

Ltac lookup_field :=
  cbn [getField];
  repeat first
    [ rewrite copyTruthy_lookup_ne by discriminate
    | rewrite copyDefined_lookup_ne by discriminate
    | rewrite copyTruthy_lookup_eq
    | rewrite copyDefined_lookup_eq
    | rewrite baseResponse_lookup_other
        by (intros Hin; apply list_elem_of_In in Hin; vm_compute in Hin;
            repeat (destruct Hin as [Hin|Hin]; try discriminate); contradiction) ];
  rewrite ?truthyPart_idempotent; try reflexivity.

Ltac own_field result :=
  subst result; unfold addTypeFields; cbn [String.eqb Ascii.eqb Bool.eqb]; lookup_field.

(** The switch reads nothing but the fields it wrote: run on its own result
    it adds the same fields. *)
Lemma addTypeFields_idempotent (type : string) (response : json) (text view : json) :
  type ∈ validTypes ->
  addTypeFields type
    (JObj (addTypeFields type response (baseResponse type text view)))
    (baseResponse type text view)
  = addTypeFields type response (baseResponse type text view).
Proof.
  intros Hvalid. apply validTypes_cases in Hvalid.
  destruct Hvalid as [->|[->|[->| ->]]];
    match goal with
    | |- context [JObj ?fields] => set (result := fields)
    end;
    unfold addTypeFields; cbn [String.eqb Ascii.eqb Bool.eqb].
  - rewrite (copyTruthy_same response (JObj result) "data") by own_field result.
    rewrite (copyTruthy_same response (JObj result) "suggestedAction") by own_field result.
    reflexivity.
  - rewrite (copyTruthy_same response (JObj result) "filters") by own_field result.
    rewrite (copyDefined_same response (JObj result) "resultCount") by own_field result.
    rewrite (copyTruthy_same response (JObj result) "facilities") by own_field result.
    rewrite (copyTruthy_same response (JObj result) "suggestedAction") by own_field result.
    reflexivity.
  - rewrite (copyTruthy_same response (JObj result) "rankings") by own_field result.
    rewrite (copyTruthy_same response (JObj result) "insights") by own_field result.
    rewrite (copyTruthy_same response (JObj result) "suggestedAction") by own_field result.
    reflexivity.
  - subst result. unfold addTypeFields. cbn [String.eqb Ascii.eqb Bool.eqb getField].
    rewrite lookup_insert_eq.
    destruct (getField response "suggestions") as [value|]; [|reflexivity].
    destruct (truthyJson value) eqn:Htruthy; [rewrite Htruthy|]; reflexivity.
Qed.

(** [validateResponse] accepts its own results unchanged: validating a
    validated response a second time is the identity. *)
Theorem validateResponse_idempotent (response : json) (cleaned : gmap string json) :
  validateResponse response = Some cleaned ->
  validateResponse (JObj cleaned) = Some cleaned.
Proof.
  intros Hresult.
  assert (response <> JNull) as Hnull by (intros ->; discriminate).
  destruct (validateResponse_cases response Hnull)
    as [Hmissing|(type & text & view & Hvalid & Htext & Hview & Hmain)].
  - rewrite Hmissing in Hresult. injection Hresult as <-. vm_compute. reflexivity.
  - rewrite Hmain in Hresult. injection Hresult as <-.
    rewrite (validateResponse_clean _ type text view); try assumption.
    + f_equal. apply addTypeFields_idempotent. exact Hvalid.
    + rewrite addTypeFields_base by (apply list_elem_of_In; simpl; tauto). reflexivity.
    + rewrite addTypeFields_base by (apply list_elem_of_In; simpl; tauto). reflexivity.
    + rewrite addTypeFields_base by (apply list_elem_of_In; simpl; tauto). reflexivity.
Qed.

Lemma validateResponse_shape_witness :
  exists cleaned type text view,
    validateResponse sampleResponse = Some cleaned /\
    cleaned !! "type" = Some (JStr type) /\ type ∈ validTypes /\
    cleaned !! "text" = Some text /\ truthyJson text = true /\
    cleaned !! "suggestedView" = Some view /\ truthyJson view = true /\
    (is_Some (cleaned !! "suggestions") <-> type = "clarification") /\
    (forall key, is_Some (cleaned !! key) ->
                 key ∈ ["type"; "text"; "suggestedView"] ++ typeFields type).
Proof. apply (validateResponse_shape sampleResponse). discriminate. Defined.

Lemma validateResponse_idempotent_witness :
  validateResponse (JObj sampleCleaned) = Some sampleCleaned.
Proof.
  apply (validateResponse_idempotent sampleResponse sampleCleaned).
  vm_compute. reflexivity.
Defined.
